(** * ChorusKernel: the chorus rendering kernel, embedded and verified

    The development follows the N-oscillator [Kernel] class of the
    repository: oscillators, per-channel delay lines, the parameter set,
    tap computation, sample generation and the render loop. The class is
    listed twice, in [README.md] and in [unnamed/part_000]; [initialize],
    [generate], [writeSample], [calcTap], [calcTaps] and [calcDisplacement]
    are the same text in both. Where the two differ ([doRendering],
    [doRenderingStateChanged], [setRate]) the README listing is embedded:
    it is written against the DSPHeaders interface the specification
    describes ([isRamping()], [normalized()], [stopRamping()]).

    Conventions of the embedding:
    - [AUValue] (a C++ [float]) and [double] are both modelled by exact
      rationals [Q]; rounding is not modelled.
    - C++ undefined behaviour and failed [assert]s are explicit faults of
      the [result] monad; so is the float division by a zero count, which
      on hardware yields a NaN and lets execution go on.
    - [std::array]/[std::vector] members are lists indexed with stdpp's
      [!!] and updated with [<[i:=x]>]; an index outside the container is
      a fault ([OutOfBounds]), never a silent no-op.
    - The DSPHeaders classes [LFO] and [DelayBuffer] are not part of the
      repository; they are an interface (type classes [LFOOps] and
      [DelayBufferOps]) and every theorem holds for all implementations.
    - The DSPHeaders parameter classes are not part of the repository
      either; they are modelled from the specification. *)

From Stdlib Require Import QArith Qabs Qminmax Qround Lqa ZArith Lia.
From stdpp Require Import base option list.

(** ** Faults and the [result] monad *)

Inductive fault : Type :=
  | DivisionByZero     (* [x / 0] *)
  | OutOfBounds        (* container index or buffer cursor past the end *)
  | AssertionFailed.   (* a C [assert] whose condition is false *)

Inductive result (A : Type) : Type :=
  | Ok (a : A)
  | Fault (f : fault).
Arguments Ok {A} a.
Arguments Fault {A} f.

#[global] Instance result_ret : MRet result := @Ok.
#[global] Instance result_bind : MBind result := λ A B f m,
  match m with
  | Ok a => f a
  | Fault e => Fault e
  end.

Definition assert (b : bool) : result unit :=
  if b then Ok tt else Fault AssertionFailed.

(** [v[i]] on a container: out of range is undefined behaviour. *)
Definition at_index {A} (l : list A) (i : nat) : result A :=
  match l !! i with
  | Some a => Ok a
  | None => Fault OutOfBounds
  end.

(** [v[i] = x] on a container. *)
Definition store_index {A} (l : list A) (i : nat) (x : A) : result (list A) :=
  if bool_decide (i < length l)%nat then Ok (<[i:=x]> l) else Fault OutOfBounds.

(** [for (index = start; index < start + count; ++index) body(index)] *)
Fixpoint for_loop {S} (start count : nat) (body : nat → S → result S) (s : S)
  : result S :=
  match count with
  | O => Ok s
  | Datatypes.S c => s' ← body start s; for_loop (Datatypes.S start) c body s'
  end.

(** [for (; frameCount > 0; --frameCount) body()] *)
Fixpoint repeat_loop {S} (frameCount : nat) (body : S → result S) (s : S) : result S :=
  match frameCount with
  | O => Ok s
  | Datatypes.S c => s' ← body s; repeat_loop c body s'
  end.

Definition Qlt_bool (x y : Q) : bool := negb (Qle_bool y x).

(** [x / n] for a float [x] and an unsigned count [n]. A zero count is a
    fault of the model: the quotient has no rational value. On IEEE
    hardware the float division yields a NaN or an infinity and execution
    goes on; the properties that speak of a rendered sample ask for a count
    of at least 1. *)
Definition div_count (x : Q) (n : nat) : result Q :=
  match n with
  | O => Fault DivisionByZero
  | Datatypes.S _ => Ok (x / inject_Z (Z.of_nat n))%Q
  end.

(** ** DSPHeaders: the interface of the signal-processing library *)

Module DSPHeaders.

Inductive LFOWaveform := sinusoid | triangle.
Inductive Interpolator := linear | cubic4thOrder.

Class LFOOps (LFO : Type) := {
  setSampleRate : Q → LFO → LFO;
  setWaveform : LFOWaveform → LFO → LFO;
  setFrequency : Q → nat → LFO → LFO;
  setPhase : Q → LFO → LFO;
  value : LFO → Q;
  quadPhaseValue : LFO → Q;
  increment : LFO → LFO
}.

Class DelayBufferOps (DelayLine : Type) := {
  makeDelayLine : Q → Interpolator → DelayLine;
  read : DelayLine → Q → Q;
  write : Q → DelayLine → DelayLine
}.

(** *** The ramped parameter family *)
Module Parameters.

(** Modelled from the spec: the class [RampingParameter] of DSPHeaders
    is not in the repository. Section 3 gives its attributes (a current
    value, a target value, the remaining ramp duration in samples) and
    section 4.3 its contract: [set] begins a ramp or snaps when the
    duration is 0, [get] is the settled target, [frameValue] yields the
    value of the next sample and advances the ramp by one sample,
    [stopRamping] snaps current to target. *)
Record RampingParameter := {
  current : Q;
  target : Q;
  remaining : nat
}.

Definition settled (v : Q) : RampingParameter :=
  {| current := v; target := v; remaining := 0 |}.

Definition set (targetValue : Q) (rampDurationSamples : nat)
    (p : RampingParameter) : RampingParameter :=
  match rampDurationSamples with
  | O => settled targetValue
  | Datatypes.S _ =>
      {| current := match remaining p with O => target p | _ => current p end;
         target := targetValue;
         remaining := rampDurationSamples |}
  end.

Definition get (p : RampingParameter) : Q := target p.

Definition isRamping (p : RampingParameter) : bool :=
  negb (Nat.eqb (remaining p) 0).

Definition frameValue (p : RampingParameter) : Q * RampingParameter :=
  match remaining p with
  | O => (target p, p)
  | Datatypes.S r =>
      (current p,
       {| current :=
            (current p + (target p - current p) / inject_Z (Z.of_nat (Datatypes.S r)))%Q;
          target := target p;
          remaining := r |})
  end.

Definition stopRamping (p : RampingParameter) : RampingParameter :=
  {| current := target p; target := target p; remaining := 0 |}.

(** Modelled from the spec: [MillisecondsParameter] is the ramped
    parameter on raw milliseconds; [normalized] is the raw value. *)
Module MillisecondsParameter.
Definition t := RampingParameter.
Definition set : Q → nat → t → t := set.
Definition get : t → Q := get.
Definition normalized : t → Q := get.
Definition frameValue : t → Q * t := frameValue.
Definition stopRamping : t → t := stopRamping.
End MillisecondsParameter.

(** Modelled from the spec: [PercentageParameter] takes a 0-100 input,
    clamps it into that domain (section 7) and keeps the 0.0-1.0
    processing value; [get] answers in the input domain, [normalized]
    and [frameValue] in the processing domain. *)
Module PercentageParameter.
Definition t := RampingParameter.
Definition clamp (v : Q) : Q := Qmax 0 (Qmin 100 v).
Definition set (v : Q) (rampDurationSamples : nat) (p : t) : t :=
  set (clamp v / 100)%Q rampDurationSamples p.
Definition get (p : t) : Q := (get p * 100)%Q.
Definition normalized (p : t) : Q := Parameters.get p.
Definition frameValue : t → Q * t := frameValue.
Definition stopRamping : t → t := stopRamping.
End PercentageParameter.

(** Modelled from the spec: [BoolParameter] holds the one internally
    stored float of section 4.3 and answers [get] with the threshold
    [> 0.5]. The listings only ever call [odd90_.get()]: none advances the
    flag with [frameValue()] or stops it with [stopRamping()]. A change of
    the flag takes effect at once; the ramp duration that the shared event
    plumbing hands to [set] is not used, so the flag never holds a ramp. *)
Module BoolParameter.
Definition t := RampingParameter.
Definition set (v : Q) (rampDurationSamples : nat) (p : t) : t := settled v.
Definition get (p : t) : bool := Qlt_bool 0.5 (Parameters.get p).
End BoolParameter.

End Parameters.
End DSPHeaders.

(** ** The kernel *)

Module ChorusKernel.
Import DSPHeaders DSPHeaders.Parameters.

(** [DSPHeaders::BusBuffers]: one sample cursor per channel. For an input
    bus a channel holds the samples not yet consumed, for an output bus the
    samples produced so far. *)
Abbreviation BusBuffers := (list (list Q)).

(** [*ins[channel]++] *)
Definition read_advance (ins : BusBuffers) (channel : nat) : result (Q * BusBuffers) :=
  buffer ← at_index ins channel;
  match buffer with
  | [] => Fault OutOfBounds
  | sample :: rest => Ok (sample, <[channel:=rest]> ins)
  end.

(** [*outs[channel]++ = sample] *)
Definition write_advance (outs : BusBuffers) (channel : nat) (sample : Q)
  : result BusBuffers :=
  buffer ← at_index outs channel;
  Ok (<[channel:=buffer ++ [sample]]> outs).

Definition MAX_LFOS : nat := 50.

Section Kernel.
Context {LFO DelayLine : Type} `{!LFOOps LFO} `{!DelayBufferOps DelayLine}.

Record Kernel := {
  rate_ : MillisecondsParameter.t;
  depth_ : PercentageParameter.t;
  delay_ : MillisecondsParameter.t;
  dryMix_ : PercentageParameter.t;
  wetMix_ : PercentageParameter.t;
  odd90_ : BoolParameter.t;
  lfoCount_ : nat;
  samplesPerMillisecond_ : Q;
  maxDelayMilliseconds_ : Q;
  delayLines_ : list DelayLine;
  lfos_ : list LFO;
  taps_ : list (Q * Q)
}.

(** Field updates. *)
Definition with_rate (rate : MillisecondsParameter.t) (k : Kernel) : Kernel :=
  {| rate_ := rate; depth_ := depth_ k; delay_ := delay_ k; dryMix_ := dryMix_ k;
     wetMix_ := wetMix_ k; odd90_ := odd90_ k; lfoCount_ := lfoCount_ k;
     samplesPerMillisecond_ := samplesPerMillisecond_ k;
     maxDelayMilliseconds_ := maxDelayMilliseconds_ k;
     delayLines_ := delayLines_ k; lfos_ := lfos_ k; taps_ := taps_ k |}.

Definition with_depth (depth : PercentageParameter.t) (k : Kernel) : Kernel :=
  {| rate_ := rate_ k; depth_ := depth; delay_ := delay_ k; dryMix_ := dryMix_ k;
     wetMix_ := wetMix_ k; odd90_ := odd90_ k; lfoCount_ := lfoCount_ k;
     samplesPerMillisecond_ := samplesPerMillisecond_ k;
     maxDelayMilliseconds_ := maxDelayMilliseconds_ k;
     delayLines_ := delayLines_ k; lfos_ := lfos_ k; taps_ := taps_ k |}.

Definition with_delay (delay : MillisecondsParameter.t) (k : Kernel) : Kernel :=
  {| rate_ := rate_ k; depth_ := depth_ k; delay_ := delay; dryMix_ := dryMix_ k;
     wetMix_ := wetMix_ k; odd90_ := odd90_ k; lfoCount_ := lfoCount_ k;
     samplesPerMillisecond_ := samplesPerMillisecond_ k;
     maxDelayMilliseconds_ := maxDelayMilliseconds_ k;
     delayLines_ := delayLines_ k; lfos_ := lfos_ k; taps_ := taps_ k |}.

Definition with_dryMix (dryMix : PercentageParameter.t) (k : Kernel) : Kernel :=
  {| rate_ := rate_ k; depth_ := depth_ k; delay_ := delay_ k; dryMix_ := dryMix;
     wetMix_ := wetMix_ k; odd90_ := odd90_ k; lfoCount_ := lfoCount_ k;
     samplesPerMillisecond_ := samplesPerMillisecond_ k;
     maxDelayMilliseconds_ := maxDelayMilliseconds_ k;
     delayLines_ := delayLines_ k; lfos_ := lfos_ k; taps_ := taps_ k |}.

Definition with_wetMix (wetMix : PercentageParameter.t) (k : Kernel) : Kernel :=
  {| rate_ := rate_ k; depth_ := depth_ k; delay_ := delay_ k; dryMix_ := dryMix_ k;
     wetMix_ := wetMix; odd90_ := odd90_ k; lfoCount_ := lfoCount_ k;
     samplesPerMillisecond_ := samplesPerMillisecond_ k;
     maxDelayMilliseconds_ := maxDelayMilliseconds_ k;
     delayLines_ := delayLines_ k; lfos_ := lfos_ k; taps_ := taps_ k |}.

Definition with_odd90 (odd90 : BoolParameter.t) (k : Kernel) : Kernel :=
  {| rate_ := rate_ k; depth_ := depth_ k; delay_ := delay_ k; dryMix_ := dryMix_ k;
     wetMix_ := wetMix_ k; odd90_ := odd90; lfoCount_ := lfoCount_ k;
     samplesPerMillisecond_ := samplesPerMillisecond_ k;
     maxDelayMilliseconds_ := maxDelayMilliseconds_ k;
     delayLines_ := delayLines_ k; lfos_ := lfos_ k; taps_ := taps_ k |}.

Definition with_format (samplesPerMillisecond maxDelayMilliseconds : Q) (k : Kernel)
  : Kernel :=
  {| rate_ := rate_ k; depth_ := depth_ k; delay_ := delay_ k; dryMix_ := dryMix_ k;
     wetMix_ := wetMix_ k; odd90_ := odd90_ k; lfoCount_ := lfoCount_ k;
     samplesPerMillisecond_ := samplesPerMillisecond;
     maxDelayMilliseconds_ := maxDelayMilliseconds;
     delayLines_ := delayLines_ k; lfos_ := lfos_ k; taps_ := taps_ k |}.

Definition with_delayLines (delayLines : list DelayLine) (k : Kernel) : Kernel :=
  {| rate_ := rate_ k; depth_ := depth_ k; delay_ := delay_ k; dryMix_ := dryMix_ k;
     wetMix_ := wetMix_ k; odd90_ := odd90_ k; lfoCount_ := lfoCount_ k;
     samplesPerMillisecond_ := samplesPerMillisecond_ k;
     maxDelayMilliseconds_ := maxDelayMilliseconds_ k;
     delayLines_ := delayLines; lfos_ := lfos_ k; taps_ := taps_ k |}.

Definition with_lfos (lfos : list LFO) (k : Kernel) : Kernel :=
  {| rate_ := rate_ k; depth_ := depth_ k; delay_ := delay_ k; dryMix_ := dryMix_ k;
     wetMix_ := wetMix_ k; odd90_ := odd90_ k; lfoCount_ := lfoCount_ k;
     samplesPerMillisecond_ := samplesPerMillisecond_ k;
     maxDelayMilliseconds_ := maxDelayMilliseconds_ k;
     delayLines_ := delayLines_ k; lfos_ := lfos; taps_ := taps_ k |}.

Definition with_taps (taps : list (Q * Q)) (k : Kernel) : Kernel :=
  {| rate_ := rate_ k; depth_ := depth_ k; delay_ := delay_ k; dryMix_ := dryMix_ k;
     wetMix_ := wetMix_ k; odd90_ := odd90_ k; lfoCount_ := lfoCount_ k;
     samplesPerMillisecond_ := samplesPerMillisecond_ k;
     maxDelayMilliseconds_ := maxDelayMilliseconds_ k;
     delayLines_ := delayLines_ k; lfos_ := lfos_ k; taps_ := taps |}.

(** [Kernel(std::string name, size_t lfoCount = 10)]. The members are
    default-constructed: settled parameters at [0], [MAX_LFOS] fresh
    oscillators, [MAX_LFOS] zero taps, no delay line. [name_] and [log_]
    only serve logging and are left out; [samplesPerMillisecond_] has no
    initialiser in the source and starts at [0] here. (The constructor of
    [unnamed/part_000] also registers the six parameters with the base
    class, which changes no member.) *)
Definition members (newLFO : LFO) (lfoCount : nat) : Kernel :=
  {| rate_ := settled 0; depth_ := settled 0; delay_ := settled 0;
     dryMix_ := settled 0; wetMix_ := settled 0; odd90_ := settled 0;
     lfoCount_ := lfoCount;
     samplesPerMillisecond_ := 0;
     maxDelayMilliseconds_ := 0;
     delayLines_ := [];
     lfos_ := replicate MAX_LFOS newLFO;
     taps_ := replicate MAX_LFOS (0, 0)%Q |}.

Definition construct (newLFO : LFO) (lfoCount : nat) : result Kernel :=
  _ ← assert (bool_decide (lfoCount ≤ MAX_LFOS)%nat);
  Ok (members newLFO lfoCount).

(** [initialize(channelCount, sampleRate, maxDelayMilliseconds)]. In
    [lfo.setPhase(index / lfos_.size())] both operands are integers
    ([int] and [size_t]), so the quotient is the truncating integer
    division, converted to a float afterwards. *)
Definition initialize (channelCount : nat) (sampleRate maxDelayMilliseconds : Q)
    (k : Kernel) : Kernel :=
  let samplesPerMillisecond := (sampleRate / 1000)%Q in
  let rate := MillisecondsParameter.get (rate_ k) in
  let lfos :=
    imap (λ index lfo,
            let lfo := setSampleRate sampleRate lfo in
            let lfo := setWaveform sinusoid lfo in
            let lfo := setFrequency rate 0 lfo in
            setPhase (inject_Z (Z.of_nat (Nat.div index (length (lfos_ k))))) lfo)
         (lfos_ k) in
  let size := (maxDelayMilliseconds * samplesPerMillisecond * 2 + 1)%Q in
  with_delayLines (replicate channelCount (makeDelayLine size cubic4thOrder))
    (with_lfos lfos (with_format samplesPerMillisecond maxDelayMilliseconds k)).

(** [setRate(rate, rampingDuration)], in the text of the README listing.
    ([unnamed/part_000] names it [setRateRamping] and sets [rate_] with
    duration 0.) *)
Definition setRate (rate : Q) (rampingDuration : nat) (k : Kernel) : Kernel :=
  with_lfos (map (setFrequency rate rampingDuration) (lfos_ k))
    (with_rate (MillisecondsParameter.set rate rampingDuration (rate_ k)) k).

(** [doRenderingStateChanged(bool rendering)], in the text of the README
    listing and of [Sources/Kernel/C++/Kernel.hpp]. (In [unnamed/part_000]
    the body is empty: the parameters are registered with the base class.) *)
Definition doRenderingStateChanged (rendering : bool) (k : Kernel) : Kernel :=
  if negb rendering then
    let k := with_rate (MillisecondsParameter.stopRamping (rate_ k)) k in
    let k := with_depth (PercentageParameter.stopRamping (depth_ k)) k in
    let k := with_delay (MillisecondsParameter.stopRamping (delay_ k)) k in
    let k := with_dryMix (PercentageParameter.stopRamping (dryMix_ k)) k in
    with_wetMix (PercentageParameter.stopRamping (wetMix_ k)) k
  else k.

(** [generate(inputSample, delayLine, isEven)] *)
Definition generate (k : Kernel) (inputSample : Q) (delayLine : DelayLine)
    (isEven : bool) : result Q :=
  output ← for_loop 0 (lfoCount_ k)
    (λ index output,
       tap ← at_index (taps_ k) index;
       Ok (output + read delayLine (if isEven then tap.1 else tap.2))%Q)
    0%Q;
  div_count output (lfoCount_ k).

(** One iteration of the channel loop of [writeSample]. The third argument
    of [generate] is [channel & 1], converted to [bool]. *)
Definition writeSample_channel (wetMix dryMix : Q) (channel : nat)
    (s : Kernel * BusBuffers * BusBuffers) : result (Kernel * BusBuffers * BusBuffers) :=
  let '(k, ins, outs) := s in
  '(inputSample, ins) ← read_advance ins channel;
  delayLine ← at_index (delayLines_ k) channel;
  outputSample ← generate k inputSample delayLine (Nat.odd channel);
  let k := with_delayLines (<[channel:=write inputSample delayLine]> (delayLines_ k)) k in
  outs ← write_advance outs channel (wetMix * outputSample + dryMix * inputSample)%Q;
  Ok (k, ins, outs).

(** [writeSample(ins, outs, odd90, wetMix, dryMix)] *)
Definition writeSample (ins outs : BusBuffers) (odd90 : bool) (wetMix dryMix : Q)
    (k : Kernel) : result (Kernel * BusBuffers * BusBuffers) :=
  for_loop 0 (length ins) (writeSample_channel wetMix dryMix) (k, ins, outs).

(** The channel loop of [writeSample] with the call of [generate] left
    open: [gen] stands for any computation of the wet sample. With
    [generate] in its place it is [writeSample] itself. *)
Definition writeSample_channel_with
    (gen : Kernel → Q → DelayLine → bool → result Q) (wetMix dryMix : Q)
    (channel : nat) (s : Kernel * BusBuffers * BusBuffers)
  : result (Kernel * BusBuffers * BusBuffers) :=
  let '(k, ins, outs) := s in
  '(inputSample, ins) ← read_advance ins channel;
  delayLine ← at_index (delayLines_ k) channel;
  outputSample ← gen k inputSample delayLine (Nat.odd channel);
  let k := with_delayLines (<[channel:=write inputSample delayLine]> (delayLines_ k)) k in
  outs ← write_advance outs channel (wetMix * outputSample + dryMix * inputSample)%Q;
  Ok (k, ins, outs).

Definition writeSample_with (gen : Kernel → Q → DelayLine → bool → result Q)
    (ins outs : BusBuffers) (odd90 : bool) (wetMix dryMix : Q) (k : Kernel)
  : result (Kernel * BusBuffers * BusBuffers) :=
  for_loop 0 (length ins) (writeSample_channel_with gen wetMix dryMix) (k, ins, outs).

(** [calcTap(lfo, nominalMilliseconds, displacementMilliseconds, odd90)]:
    the pair of taps and the oscillator after [lfo.increment()]. *)
Definition calcTap (k : Kernel) (lfo : LFO)
    (nominalMilliseconds displacementMilliseconds : Q) (odd90 : bool)
  : (Q * Q) * LFO :=
  let evenTap :=
    ((nominalMilliseconds + value lfo * displacementMilliseconds)
     * samplesPerMillisecond_ k)%Q in
  let oddTap :=
    if odd90
    then ((nominalMilliseconds + quadPhaseValue lfo * displacementMilliseconds)
          * samplesPerMillisecond_ k)%Q
    else evenTap in
  let lfo := increment lfo in
  ((evenTap, oddTap), lfo).

(** One iteration of the loop of [calcTaps]:
    [taps_[index] = calcTap(lfos_[index], ...)]. *)
Definition calcTaps_index (nominalMilliseconds displacementMilliseconds : Q)
    (odd90 : bool) (index : nat) (k : Kernel) : result Kernel :=
  lfo ← at_index (lfos_ k) index;
  let '(tap, lfo) := calcTap k lfo nominalMilliseconds displacementMilliseconds odd90 in
  taps ← store_index (taps_ k) index tap;
  Ok (with_taps taps (with_lfos (<[index:=lfo]> (lfos_ k)) k)).

(** [calcTaps(nominalMilliseconds, displacementMilliseconds, odd90)] *)
Definition calcTaps (nominalMilliseconds displacementMilliseconds : Q) (odd90 : bool)
    (k : Kernel) : result Kernel :=
  for_loop 0 (lfoCount_ k)
    (calcTaps_index nominalMilliseconds displacementMilliseconds odd90) k.

(** [calcDisplacement(nominal, displacementFraction)] *)
Definition calcDisplacement (k : Kernel) (nominal displacementFraction : Q) : Q :=
  ((maxDelayMilliseconds_ k - nominal) * displacementFraction)%Q.

(** Modelled from the spec: [isRamping()] is inherited from the
    [EventProcessor] base class, which is not in the repository. Section
    4.4 selects the per-sample strategy when any parameter is ramping.
    The five continuous parameters are the ones that can hold a ramp; the
    flag [odd90_] never does ([BoolParameter.set]). *)
Definition isRamping (k : Kernel) : bool :=
  Parameters.isRamping (rate_ k) || Parameters.isRamping (depth_ k)
  || Parameters.isRamping (delay_ k) || Parameters.isRamping (dryMix_ k)
  || Parameters.isRamping (wetMix_ k).

Definition in_unit_interval (x : Q) : bool := Qle_bool 0 x && Qle_bool x 1.

(** The first branch of [doRendering]: one frame, every parameter advanced
    with [frameValue()]. *)
Definition renderSample (odd90 : bool) (s : Kernel * BusBuffers * BusBuffers)
  : result (Kernel * BusBuffers * BusBuffers) :=
  let '(k, ins, outs) := s in
  let '(nominal, delay) := MillisecondsParameter.frameValue (delay_ k) in
  let k := with_delay delay k in
  let '(displacementFraction, depth) := PercentageParameter.frameValue (depth_ k) in
  let k := with_depth depth k in
  _ ← assert (in_unit_interval displacementFraction);
  k ← calcTaps nominal (calcDisplacement k nominal displacementFraction) odd90 k;
  let '(wetMix, wetMixP) := PercentageParameter.frameValue (wetMix_ k) in
  let k := with_wetMix wetMixP k in
  let '(dryMix, dryMixP) := PercentageParameter.frameValue (dryMix_ k) in
  let k := with_dryMix dryMixP k in
  writeSample ins outs odd90 wetMix dryMix k.

(** The two statements that render one frame of the block loop:
    [calcTaps(nominal, displacement, odd90); writeSample(ins, outs, odd90, wetMix, dryMix);] *)
Definition renderFrame (nominal displacement : Q) (odd90 : bool) (wetMix dryMix : Q)
    (s : Kernel * BusBuffers * BusBuffers) : result (Kernel * BusBuffers * BusBuffers) :=
  let '(k, ins, outs) := s in
  k ← calcTaps nominal displacement odd90 k;
  writeSample ins outs odd90 wetMix dryMix k.

(** The second branch of [doRendering]: settled values fetched once, one
    displacement for the whole block. *)
Definition renderBlock (odd90 : bool) (frameCount : nat)
    (s : Kernel * BusBuffers * BusBuffers) : result (Kernel * BusBuffers * BusBuffers) :=
  let '(k, ins, outs) := s in
  let nominal := MillisecondsParameter.get (delay_ k) in
  let displacementFraction := PercentageParameter.normalized (depth_ k) in
  _ ← assert (in_unit_interval displacementFraction);
  let displacement := calcDisplacement k nominal displacementFraction in
  let wetMix := PercentageParameter.normalized (wetMix_ k) in
  _ ← assert (in_unit_interval wetMix);
  let dryMix := PercentageParameter.normalized (dryMix_ k) in
  _ ← assert (in_unit_interval dryMix);
  repeat_loop frameCount (renderFrame nominal displacement odd90 wetMix dryMix)
    (k, ins, outs).

(** [doRendering(outputBusNumber, ins, outs, frameCount)], in the text of
    the README listing; the bus number is not used by the body. (The
    listing of [unnamed/part_000] is written against a later DSPHeaders
    interface: it tests [frameCount == 1] alone, reads the block values with
    [get()] and has no assertion.) *)
Definition doRendering (ins outs : BusBuffers) (frameCount : nat) (k : Kernel)
  : result (Kernel * BusBuffers * BusBuffers) :=
  let odd90 := BoolParameter.get (odd90_ k) in
  if isRamping k || Nat.eqb frameCount 1 then
    _ ← assert (Nat.eqb frameCount 1);
    renderSample odd90 (k, ins, outs)
  else
    renderBlock odd90 frameCount (k, ins, outs).

(** The per-sample strategy applied to a whole block: the block is
    rendered as [frameCount] successive one-frame calls of [doRendering],
    each of which advances every parameter with [frameValue()]. *)
Definition perSampleStrategy (frameCount : nat) (s : Kernel * BusBuffers * BusBuffers)
  : result (Kernel * BusBuffers * BusBuffers) :=
  repeat_loop frameCount (λ '(k, ins, outs), doRendering ins outs 1 k) s.

(** Modelled from the spec: the parameter addresses are declared by the
    [ParameterAddress] module, which is not in the repository; these are
    the six ids of section 6, under the names the tests use. *)
Inductive ParameterAddress :=
  | ParameterAddressRate
  | ParameterAddressDepth
  | ParameterAddressDelay
  | ParameterAddressDry
  | ParameterAddressWet
  | ParameterAddressOdd90.

(** Modelled from the spec: [setRampedParameterValue] is only declared in
    the header, its body is not in the repository. Section 4.4 routes a
    parameter change to the [set] of the matching parameter and, for the
    rate, to every oscillator as well (the header's [setRate]). *)
Definition setRampedParameterValue (address : ParameterAddress) (v : Q)
    (duration : nat) (k : Kernel) : Kernel :=
  match address with
  | ParameterAddressRate => setRate v duration k
  | ParameterAddressDepth => with_depth (PercentageParameter.set v duration (depth_ k)) k
  | ParameterAddressDelay => with_delay (MillisecondsParameter.set v duration (delay_ k)) k
  | ParameterAddressDry => with_dryMix (PercentageParameter.set v duration (dryMix_ k)) k
  | ParameterAddressWet => with_wetMix (PercentageParameter.set v duration (wetMix_ k)) k
  | ParameterAddressOdd90 => with_odd90 (BoolParameter.set v duration (odd90_ k)) k
  end.

(** Modelled from the spec: [getParameterValue] is only declared in the
    header. Section 6 has it return the settled value in the domain in
    which the value was supplied. *)
Definition getParameterValue (address : ParameterAddress) (k : Kernel) : Q :=
  match address with
  | ParameterAddressRate => MillisecondsParameter.get (rate_ k)
  | ParameterAddressDepth => PercentageParameter.get (depth_ k)
  | ParameterAddressDelay => MillisecondsParameter.get (delay_ k)
  | ParameterAddressDry => PercentageParameter.get (dryMix_ k)
  | ParameterAddressWet => PercentageParameter.get (wetMix_ k)
  | ParameterAddressOdd90 => if BoolParameter.get (odd90_ k) then 1%Q else 0%Q
  end.

(** The legal domain of each parameter (section 6): percentages lie in
    0-100, the flag is 0 or 1, the millisecond family is unconstrained. *)
Definition legal (address : ParameterAddress) (v : Q) : Prop :=
  match address with
  | ParameterAddressRate | ParameterAddressDelay => True
  | ParameterAddressDepth | ParameterAddressDry | ParameterAddressWet =>
      (0 <= v)%Q ∧ (v <= 100)%Q
  | ParameterAddressOdd90 => (v == 0)%Q ∨ (v == 1)%Q
  end.

(** *** Specification vocabulary *)

(** The container bounds the constructor establishes: the oscillator and
    tap arrays have [MAX_LFOS] slots and the active count fits in them. *)
Definition arrays_ok (k : Kernel) : Prop :=
  length (lfos_ k) = MAX_LFOS ∧ length (taps_ k) = MAX_LFOS
  ∧ (lfoCount_ k ≤ MAX_LFOS)%nat.

(** The tap pair of an oscillator, in samples. *)
Definition tapOf (k : Kernel) (lfo : LFO) (nominalMs displacementMs : Q) (odd90 : bool)
  : Q * Q :=
  (((nominalMs + value lfo * displacementMs) * samplesPerMillisecond_ k)%Q,
   if odd90
   then ((nominalMs + quadPhaseValue lfo * displacementMs) * samplesPerMillisecond_ k)%Q
   else ((nominalMs + value lfo * displacementMs) * samplesPerMillisecond_ k)%Q).

(** Everything but the oscillators and the taps is the same. *)
Definition same_but_taps (k k' : Kernel) : Prop :=
  rate_ k' = rate_ k ∧ depth_ k' = depth_ k ∧ delay_ k' = delay_ k
  ∧ dryMix_ k' = dryMix_ k ∧ wetMix_ k' = wetMix_ k ∧ odd90_ k' = odd90_ k
  ∧ lfoCount_ k' = lfoCount_ k
  ∧ samplesPerMillisecond_ k' = samplesPerMillisecond_ k
  ∧ maxDelayMilliseconds_ k' = maxDelayMilliseconds_ k
  ∧ delayLines_ k' = delayLines_ k
  ∧ length (lfos_ k') = length (lfos_ k) ∧ length (taps_ k') = length (taps_ k).

(** The state of [calcTaps] once the slots below [i] have been computed. *)
Definition calcTaps_done (nominalMs displacementMs : Q) (odd90 : bool) (k : Kernel)
    (i : nat) (k' : Kernel) : Prop :=
  same_but_taps k k'
  ∧ (∀ index lfo, lfos_ k !! index = Some lfo →
       if bool_decide (index < i)%nat
       then taps_ k' !! index = Some (tapOf k lfo nominalMs displacementMs odd90)
            ∧ lfos_ k' !! index = Some (increment lfo)
       else taps_ k' !! index = taps_ k !! index ∧ lfos_ k' !! index = Some lfo).

(** The sum [generate] accumulates over the active taps. *)
Definition readSum (k : Kernel) (delayLine : DelayLine) (isEven : bool) : Q :=
  foldl (λ output tap, (output + read delayLine (if isEven then tap.1 else tap.2))%Q)
    0%Q (take (lfoCount_ k) (taps_ k)).

(** Everything but the delay lines is the same. *)
Definition same_but_lines (k k' : Kernel) : Prop :=
  rate_ k' = rate_ k ∧ depth_ k' = depth_ k ∧ delay_ k' = delay_ k
  ∧ dryMix_ k' = dryMix_ k ∧ wetMix_ k' = wetMix_ k ∧ odd90_ k' = odd90_ k
  ∧ lfoCount_ k' = lfoCount_ k
  ∧ samplesPerMillisecond_ k' = samplesPerMillisecond_ k
  ∧ maxDelayMilliseconds_ k' = maxDelayMilliseconds_ k
  ∧ lfos_ k' = lfos_ k ∧ taps_ k' = taps_ k
  ∧ length (delayLines_ k') = length (delayLines_ k).

(** A frame can be read and written: every input channel has a sample
    left, a delay line and an output channel. *)
Definition channels_ok (k : Kernel) (ins outs : BusBuffers) : Prop :=
  (length ins ≤ length (delayLines_ k))%nat ∧ (length ins ≤ length outs)%nat
  ∧ ∀ channel buffer, ins !! channel = Some buffer → buffer ≠ [].

(** What [writeSample] has done to one channel: the wet sample was
    generated from the delay line as it was before the write, the input
    sample was consumed and written to the line once, and the mix was
    appended to the output. *)
Definition channel_rendered (wetMix dryMix : Q) (k : Kernel) (ins outs : BusBuffers)
    (channel : nat) (s' : Kernel * BusBuffers * BusBuffers) : Prop :=
  ∀ inputSample rest delayLine buffer,
    ins !! channel = Some (inputSample :: rest) →
    delayLines_ k !! channel = Some delayLine →
    outs !! channel = Some buffer →
    ∃ wetSample,
      generate k inputSample delayLine (Nat.odd channel) = Ok wetSample
      ∧ s'.1.2 !! channel = Some rest
      ∧ delayLines_ s'.1.1 !! channel = Some (write inputSample delayLine)
      ∧ s'.2 !! channel = Some (buffer ++ [(wetMix * wetSample + dryMix * inputSample)%Q]).

(** What [writeSample] has not touched yet. *)
Definition channel_untouched (k : Kernel) (ins outs : BusBuffers) (channel : nat)
    (s' : Kernel * BusBuffers * BusBuffers) : Prop :=
  s'.1.2 !! channel = ins !! channel
  ∧ delayLines_ s'.1.1 !! channel = delayLines_ k !! channel
  ∧ s'.2 !! channel = outs !! channel.

(** The state of [writeSample] once the channels below [c] are done. *)
Definition writeSample_done (wetMix dryMix : Q) (k : Kernel) (ins outs : BusBuffers)
    (c : nat) (s' : Kernel * BusBuffers * BusBuffers) : Prop :=
  same_but_lines k s'.1.1
  ∧ length s'.1.2 = length ins ∧ length s'.2 = length outs
  ∧ ∀ channel,
      if bool_decide (channel < c)%nat
      then channel_rendered wetMix dryMix k ins outs channel s'
      else channel_untouched k ins outs channel s'.

(** The parameters, the format and the container sizes are the same. *)
Definition same_settings (k k' : Kernel) : Prop :=
  rate_ k' = rate_ k ∧ depth_ k' = depth_ k ∧ delay_ k' = delay_ k
  ∧ dryMix_ k' = dryMix_ k ∧ wetMix_ k' = wetMix_ k ∧ odd90_ k' = odd90_ k
  ∧ lfoCount_ k' = lfoCount_ k
  ∧ samplesPerMillisecond_ k' = samplesPerMillisecond_ k
  ∧ maxDelayMilliseconds_ k' = maxDelayMilliseconds_ k
  ∧ length (lfos_ k') = length (lfos_ k) ∧ length (taps_ k') = length (taps_ k)
  ∧ length (delayLines_ k') = length (delayLines_ k).

(** A block of [frameCount] frames can be rendered: the arrays are in
    bounds, there is an oscillator, and every input channel has a delay
    line, an output channel and [frameCount] samples. *)
Definition block_ok (frameCount : nat) (k : Kernel) (ins outs : BusBuffers) : Prop :=
  arrays_ok k ∧ (1 ≤ lfoCount_ k)%nat
  ∧ (length ins ≤ length (delayLines_ k))%nat ∧ (length ins ≤ length outs)%nat
  ∧ ∀ channel buffer, ins !! channel = Some buffer → (frameCount ≤ length buffer)%nat.

(** The state after [j] frames rendered with fixed nominal delay and
    displacement: every active oscillator was incremented [j] times, the
    taps are those of the last frame, [j] samples were consumed. *)
Definition frames_done (nominal displacement : Q) (odd90 : bool) (k : Kernel)
    (ins outs : BusBuffers) (j : nat) (s' : Kernel * BusBuffers * BusBuffers) : Prop :=
  same_settings k s'.1.1
  ∧ length s'.1.2 = length ins ∧ length s'.2 = length outs
  ∧ (∀ index lfo, (index < lfoCount_ k)%nat → lfos_ k !! index = Some lfo →
       lfos_ s'.1.1 !! index = Some (Nat.iter j increment lfo)
       ∧ ((1 ≤ j)%nat →
          taps_ s'.1.1 !! index
          = Some (tapOf k (Nat.iter (j - 1) increment lfo) nominal displacement odd90)))
  ∧ (∀ channel buffer, ins !! channel = Some buffer →
       s'.1.2 !! channel = Some (drop j buffer)).

(** The delay line after the samples of a list were written to it, one
    [write] per sample, first sample first. *)
Definition written (samples : list Q) (delayLine : DelayLine) : DelayLine :=
  foldl (λ line sample, write sample line) delayLine samples.

(** The delay lines after [j] frames of a block: the line of every input
    channel has received the first [j] input samples of the channel, one
    [write] each, in their order. *)
Definition frames_written (k : Kernel) (ins : BusBuffers) (j : nat)
    (s' : Kernel * BusBuffers * BusBuffers) : Prop :=
  ∀ channel buffer delayLine,
    ins !! channel = Some buffer → delayLines_ k !! channel = Some delayLine →
    delayLines_ s'.1.1 !! channel = Some (written (take j buffer) delayLine).

(** What the channel loop has done to the delay lines and the input once
    the channels below [c] are through, whatever the wet samples were:
    each of these lines has received the input sample of its channel. *)
Definition lines_written_below (k : Kernel) (ins outs : BusBuffers) (c : nat)
    (s' : Kernel * BusBuffers * BusBuffers) : Prop :=
  length (delayLines_ s'.1.1) = length (delayLines_ k)
  ∧ length s'.1.2 = length ins ∧ length s'.2 = length outs
  ∧ ∀ channel,
      if bool_decide (channel < c)%nat
      then ∀ inputSample rest delayLine,
             ins !! channel = Some (inputSample :: rest) →
             delayLines_ k !! channel = Some delayLine →
             delayLines_ s'.1.1 !! channel = Some (write inputSample delayLine)
             ∧ s'.1.2 !! channel = Some rest
      else s'.1.2 !! channel = ins !! channel
           ∧ delayLines_ s'.1.1 !! channel = delayLines_ k !! channel.

(** The parameters, the oscillator count and the format of a kernel. *)
Definition settings (k : Kernel) :=
  (rate_ k, depth_ k, delay_ k, dryMix_ k, wetMix_ k, odd90_ k,
   lfoCount_ k, samplesPerMillisecond_ k, maxDelayMilliseconds_ k).

(** The percentage parameters hold processing values in [0, 1]. *)
Definition percentages_ok (k : Kernel) : Prop :=
  in_unit_interval (PercentageParameter.normalized (depth_ k)) = true
  ∧ in_unit_interval (PercentageParameter.normalized (wetMix_ k)) = true
  ∧ in_unit_interval (PercentageParameter.normalized (dryMix_ k)) = true.

(** A percentage parameter whose current and target values are processing
    values in [0, 1]. *)
Definition unit_range (p : PercentageParameter.t) : Prop :=
  ((0 <= current p)%Q ∧ (current p <= 1)%Q) ∧ ((0 <= target p)%Q ∧ (target p <= 1)%Q).

(** The invariant of the kernel: the arrays are in bounds and the
    percentage parameters hold processing values in [0, 1]. *)
Definition kernel_ok (k : Kernel) : Prop :=
  arrays_ok k ∧ unit_range (depth_ k) ∧ unit_range (wetMix_ k) ∧ unit_range (dryMix_ k).

(** The kernels the operations of the class can produce. *)
Inductive reachable : Kernel → Prop :=
  | reachable_construct newLFO lfoCount k :
      construct newLFO lfoCount = Ok k → reachable k
  | reachable_initialize channelCount sampleRate maxDelayMilliseconds k :
      reachable k → reachable (initialize channelCount sampleRate maxDelayMilliseconds k)
  | reachable_setRampedParameterValue address v duration k :
      reachable k → reachable (setRampedParameterValue address v duration k)
  | reachable_doRenderingStateChanged rendering k :
      reachable k → reachable (doRenderingStateChanged rendering k)
  | reachable_doRendering ins outs frameCount k k' ins' outs' :
      reachable k → doRendering ins outs frameCount k = Ok (k', ins', outs') →
      reachable k'.


End Kernel.
Arguments Kernel : clear implicits.
End ChorusKernel.

(** ** The single-oscillator listings

    Two earlier listings of the class use one oscillator and compute the
    taps inside the render loop: [Sources/Kernel/C++/Kernel.hpp] and
    [unnamed/part_001]. They are embedded here to record where they depart
    from the N-oscillator kernel above. *)

Module SingleOscillator.
Import DSPHeaders DSPHeaders.Parameters.

Section Kernel.
Context {LFO DelayLine : Type} `{!LFOOps LFO} `{!DelayBufferOps DelayLine}.

Record Kernel := {
  rate_ : MillisecondsParameter.t;
  depth_ : PercentageParameter.t;
  delay_ : MillisecondsParameter.t;
  dryMix_ : PercentageParameter.t;
  wetMix_ : PercentageParameter.t;
  odd90_ : BoolParameter.t;
  samplesPerMillisecond_ : Q;
  delayLines_ : list DelayLine;
  lfo_ : LFO;
  rampRemaining_ : nat
}.

Definition with_parameters (delay : MillisecondsParameter.t)
    (depth wetMix dryMix : PercentageParameter.t) (k : Kernel) : Kernel :=
  {| rate_ := rate_ k; depth_ := depth; delay_ := delay; dryMix_ := dryMix;
     wetMix_ := wetMix; odd90_ := odd90_ k;
     samplesPerMillisecond_ := samplesPerMillisecond_ k;
     delayLines_ := delayLines_ k; lfo_ := lfo_ k;
     rampRemaining_ := rampRemaining_ k |}.

Definition with_lfo (lfo : LFO) (k : Kernel) : Kernel :=
  {| rate_ := rate_ k; depth_ := depth_ k; delay_ := delay_ k; dryMix_ := dryMix_ k;
     wetMix_ := wetMix_ k; odd90_ := odd90_ k;
     samplesPerMillisecond_ := samplesPerMillisecond_ k;
     delayLines_ := delayLines_ k; lfo_ := lfo;
     rampRemaining_ := rampRemaining_ k |}.

Definition with_delayLines (delayLines : list DelayLine) (k : Kernel) : Kernel :=
  {| rate_ := rate_ k; depth_ := depth_ k; delay_ := delay_ k; dryMix_ := dryMix_ k;
     wetMix_ := wetMix_ k; odd90_ := odd90_ k;
     samplesPerMillisecond_ := samplesPerMillisecond_ k;
     delayLines_ := delayLines; lfo_ := lfo_ k;
     rampRemaining_ := rampRemaining_ k |}.

Definition with_rampRemaining (rampRemaining : nat) (k : Kernel) : Kernel :=
  {| rate_ := rate_ k; depth_ := depth_ k; delay_ := delay_ k; dryMix_ := dryMix_ k;
     wetMix_ := wetMix_ k; odd90_ := odd90_ k;
     samplesPerMillisecond_ := samplesPerMillisecond_ k;
     delayLines_ := delayLines_ k; lfo_ := lfo_ k;
     rampRemaining_ := rampRemaining |}.

(** The parameter reads at the head of a frame, shared by both listings:
    [delay_.frameValue()], [depth_.frameValue()], [wetMix_.frameValue()],
    [dryMix_.frameValue()], each percentage asserted to lie in [0, 1]. *)
Definition frameValues (k : Kernel) : result (Q * Q * Q * Q * Kernel) :=
  let '(tap, delay) := MillisecondsParameter.frameValue (delay_ k) in
  let '(displacementFraction, depth) := PercentageParameter.frameValue (depth_ k) in
  _ ← assert (ChorusKernel.in_unit_interval displacementFraction);
  let '(wetMix, wetMixP) := PercentageParameter.frameValue (wetMix_ k) in
  _ ← assert (ChorusKernel.in_unit_interval wetMix);
  let '(dryMix, dryMixP) := PercentageParameter.frameValue (dryMix_ k) in
  _ ← assert (ChorusKernel.in_unit_interval dryMix);
  Ok (tap, displacementFraction, wetMix, dryMix,
      with_parameters delay depth wetMixP dryMixP k).

(** *** [Sources/Kernel/C++/Kernel.hpp] *)

(** One iteration of the channel loop of [doRendering]. *)
Definition hpp_channel (odd90 : bool) (evenTap oddTap wetMix dryMix : Q) (channel : nat)
    (s : Kernel * ChorusKernel.BusBuffers * ChorusKernel.BusBuffers)
  : result (Kernel * ChorusKernel.BusBuffers * ChorusKernel.BusBuffers) :=
  let '(k, ins, outs) := s in
  '(inputSample, ins) ← ChorusKernel.read_advance ins channel;
  delayLine ← at_index (delayLines_ k) channel;
  let delayedSample :=
    read delayLine (if Nat.odd channel && odd90 then oddTap else evenTap) in
  let k := with_delayLines (<[channel:=write inputSample delayLine]> (delayLines_ k)) k in
  outs ← ChorusKernel.write_advance outs channel
           (wetMix * delayedSample + dryMix * inputSample)%Q;
  Ok (k, ins, outs).

(** One iteration of the frame loop of [doRendering]. *)
Definition hpp_frame (odd90 : bool)
    (s : Kernel * ChorusKernel.BusBuffers * ChorusKernel.BusBuffers)
  : result (Kernel * ChorusKernel.BusBuffers * ChorusKernel.BusBuffers) :=
  let '(k, ins, outs) := s in
  '(tap, displacementFraction, wetMix, dryMix, k) ← frameValues k;
  let displacement := (tap * displacementFraction)%Q in
  let evenTap := (value (lfo_ k) * displacement + tap)%Q in
  let oddTap := (quadPhaseValue (lfo_ k) * displacement + tap)%Q in
  let k := with_lfo (increment (lfo_ k)) k in
  for_loop 0 (length ins) (hpp_channel odd90 evenTap oddTap wetMix dryMix) (k, ins, outs).

(** [doRendering(outputBusNumber, ins, outs, frameCount)] of
    [Sources/Kernel/C++/Kernel.hpp]. *)
Definition hpp_doRendering (ins outs : ChorusKernel.BusBuffers) (frameCount : nat)
    (k : Kernel) : result (Kernel * ChorusKernel.BusBuffers * ChorusKernel.BusBuffers) :=
  let odd90 := BoolParameter.get (odd90_ k) in
  repeat_loop frameCount (hpp_frame odd90) (k, ins, outs).

(** *** [unnamed/part_001] *)

Definition minTap : Q := 1.0e-3.

(** One iteration of the channel loop of [renderFrames]; [if (displacement)]
    tests the float against zero. *)
Definition part_001_channel (odd90 : bool) (displacement evenDelay oddDelay wetMix dryMix : Q)
    (channel : nat) (s : Kernel * ChorusKernel.BusBuffers * ChorusKernel.BusBuffers)
  : result (Kernel * ChorusKernel.BusBuffers * ChorusKernel.BusBuffers) :=
  let '(k, ins, outs) := s in
  '(inputSample, ins) ← ChorusKernel.read_advance ins channel;
  '(delayedSample, k) ←
    (if negb (Qeq_bool displacement 0) then
       delayLine ← at_index (delayLines_ k) channel;
       let delayedSample :=
         read delayLine (if Nat.odd channel && odd90 then oddDelay else evenDelay) in
       Ok (delayedSample,
           with_delayLines (<[channel:=write inputSample delayLine]> (delayLines_ k)) k)
     else Ok (inputSample, k));
  outs ← ChorusKernel.write_advance outs channel
           (wetMix * delayedSample + dryMix * inputSample)%Q;
  Ok (k, ins, outs).

(** One iteration of the frame loop of [renderFrames]. *)
Definition part_001_frame (odd90 : bool) (tap displacement wetMix dryMix : Q)
    (s : Kernel * ChorusKernel.BusBuffers * ChorusKernel.BusBuffers)
  : result (Kernel * ChorusKernel.BusBuffers * ChorusKernel.BusBuffers) :=
  let '(k, ins, outs) := s in
  let evenDelay := (value (lfo_ k) * displacement + tap)%Q in
  let oddDelay := (quadPhaseValue (lfo_ k) * displacement + tap)%Q in
  let k := with_lfo (increment (lfo_ k)) k in
  for_loop 0 (length ins)
    (part_001_channel odd90 displacement evenDelay oddDelay wetMix dryMix) (k, ins, outs).

(** [renderFrames(frameCount, ins, outs)] *)
Definition renderFrames (frameCount : nat)
    (s : Kernel * ChorusKernel.BusBuffers * ChorusKernel.BusBuffers)
  : result (Kernel * ChorusKernel.BusBuffers * ChorusKernel.BusBuffers) :=
  let '(k, ins, outs) := s in
  '(tap, displacementFraction, wetMix, dryMix, k) ← frameValues k;
  let displacement := (Qmax (tap - minTap) 0 * displacementFraction)%Q in
  let odd90 := BoolParameter.get (odd90_ k) in
  repeat_loop frameCount (part_001_frame odd90 tap displacement wetMix dryMix)
    (k, ins, outs).

(** [doRendering(outputBusNumber, ins, outs, frameCount)] of
    [unnamed/part_001]. *)
Definition part_001_doRendering (ins outs : ChorusKernel.BusBuffers) (frameCount : nat)
    (k : Kernel) : result (Kernel * ChorusKernel.BusBuffers * ChorusKernel.BusBuffers) :=
  let rampCount := Nat.min (rampRemaining_ k) frameCount in
  s ← (if (0 <? rampCount)%nat then
         let k := with_rampRemaining (rampRemaining_ k - rampCount) k in
         repeat_loop rampCount (renderFrames 1) (k, ins, outs)
       else Ok (k, ins, outs));
  let frameCount := (frameCount - rampCount)%nat in
  if (0 <? frameCount)%nat then renderFrames frameCount s else Ok s.

End Kernel.
Arguments Kernel : clear implicits.
End SingleOscillator.

(** ** Sampling a ramp *)

Module Ramp.
Import DSPHeaders.Parameters.

(** The parameter after [k] calls of [frameValue()]. *)
Definition advance (k : nat) (p : RampingParameter) : RampingParameter :=
  Nat.iter k (λ q, (frameValue q).2) p.

(** The per-frame value at sample [k]: what the [k+1]-th call of
    [frameValue()] returns. *)
Definition frameAt (k : nat) (p : RampingParameter) : Q :=
  (frameValue (advance k p)).1.

End Ramp.

(** ** Executable stand-ins for the DSPHeaders interface

    Small implementations of [LFOOps] and [DelayBufferOps] on which the
    kernel can be run on concrete inputs. *)

Module TestDoubles.
Import DSPHeaders.

(** Modelled from the spec: the oscillator of section 4.1 with the
    attributes of section 3 and the triangle waveform, a piecewise-linear
    mapping of the phase with period 1 and range [-1, 1]. The sinusoid is
    not rational; this stand-in evaluates the triangle for both kinds. *)
Record TriangleLFO := {
  sampleRate : Q;
  waveform : LFOWaveform;
  frequency : Q;
  phase : Q
}.

Definition wrap (x : Q) : Q := (x - inject_Z (Qfloor x))%Q.

Definition triangleAt (x : Q) : Q :=
  let x := wrap x in
  Qred (if Qle_bool x 0.5 then 4 * x - 1 else 3 - 4 * x)%Q.

#[global] Instance triangle_lfo : LFOOps TriangleLFO := {|
  setSampleRate r l :=
    {| sampleRate := r; waveform := waveform l; frequency := frequency l; phase := phase l |};
  setWaveform w l :=
    {| sampleRate := sampleRate l; waveform := w; frequency := frequency l; phase := phase l |};
  setFrequency f _ l :=
    {| sampleRate := sampleRate l; waveform := waveform l; frequency := f; phase := phase l |};
  setPhase p l :=
    {| sampleRate := sampleRate l; waveform := waveform l; frequency := frequency l;
       phase := p |};
  value l := triangleAt (phase l);
  quadPhaseValue l := triangleAt (phase l + 0.25);
  increment l :=
    {| sampleRate := sampleRate l; waveform := waveform l; frequency := frequency l;
       phase := Qred (wrap (phase l + frequency l / sampleRate l)) |}
|}.

Definition newLFO : TriangleLFO :=
  {| sampleRate := 44100; waveform := sinusoid; frequency := 1; phase := 0 |}.

(** Modelled from the spec: the delay line of section 4.2 reduced to its
    history, most recent sample first; [read] returns the stored sample at
    the integer part of the offset (no interpolation), silence beyond the
    history. *)
Record HistoryLine := { history : list Q }.

#[global] Instance history_line : DelayBufferOps HistoryLine := {|
  makeDelayLine _ _ := {| history := [] |};
  read d offset := nth (Z.to_nat (Qfloor offset)) (history d) 0%Q;
  write sample d := {| history := sample :: history d |}
|}.

(** A fresh oscillator after [initialize] at 1000 Hz and the change of the
    rate to 100 Hz. *)
Definition newLFO_configured : TriangleLFO :=
  {| sampleRate := 1000; waveform := sinusoid; frequency := 100; phase := 0 |}.

(** A kernel with [lfoCount] oscillators, configured for two channels at
    1000 Hz (one sample per millisecond) with a 10 ms maximum delay, a
    100 Hz rate, a 6 ms nominal delay, 50 % depth and full wet mix. *)
Definition demoKernel (lfoCount : nat) (odd90 : Q) : ChorusKernel.Kernel TriangleLFO HistoryLine :=
  let k := ChorusKernel.initialize 2 1000 10 (ChorusKernel.members newLFO lfoCount) in
  let k := ChorusKernel.setRampedParameterValue ChorusKernel.ParameterAddressRate 100 0 k in
  let k := ChorusKernel.setRampedParameterValue ChorusKernel.ParameterAddressDelay 6 0 k in
  let k := ChorusKernel.setRampedParameterValue ChorusKernel.ParameterAddressDepth 50 0 k in
  let k := ChorusKernel.setRampedParameterValue ChorusKernel.ParameterAddressWet 100 0 k in
  let k := ChorusKernel.setRampedParameterValue ChorusKernel.ParameterAddressDry 0 0 k in
  ChorusKernel.setRampedParameterValue ChorusKernel.ParameterAddressOdd90 odd90 0 k.

(** The same kernel after each delay line has received the samples
    8, 7, ..., 1 (so that the sample [n] frames back is [n + 1]). *)
Definition demoHistory : HistoryLine := {| history := [1; 2; 3; 4; 5; 6; 7; 8]%Q |}.

Definition demoKernelPlayed (lfoCount : nat) (odd90 : Q)
  : ChorusKernel.Kernel TriangleLFO HistoryLine :=
  ChorusKernel.with_delayLines [demoHistory; demoHistory] (demoKernel lfoCount odd90).


(** The played kernel after a change of the depth to 10 % over 4 samples. *)
Definition demoKernelRamping : ChorusKernel.Kernel TriangleLFO HistoryLine :=
  ChorusKernel.setRampedParameterValue ChorusKernel.ParameterAddressDepth 10 4
    (demoKernelPlayed 2 1).

(** A single-oscillator kernel with the same settings and delay lines, in
    the middle of a change of the depth from 50 % to 10 % over 4 samples. *)
Definition demoSingleKernel : SingleOscillator.Kernel TriangleLFO HistoryLine :=
  {| SingleOscillator.rate_ := Parameters.settled 100;
     SingleOscillator.depth_ :=
       Parameters.PercentageParameter.set 10 4 (Parameters.settled 0.5);
     SingleOscillator.delay_ := Parameters.settled 6;
     SingleOscillator.dryMix_ := Parameters.settled 0;
     SingleOscillator.wetMix_ := Parameters.settled 1;
     SingleOscillator.odd90_ := Parameters.settled 1;
     SingleOscillator.samplesPerMillisecond_ := 1;
     SingleOscillator.delayLines_ := [demoHistory; demoHistory];
     SingleOscillator.lfo_ := newLFO_configured;
     SingleOscillator.rampRemaining_ := 4 |}.

End TestDoubles.

(** ** Further vocabulary and the test signal *)

Module Coverage.
Import DSPHeaders DSPHeaders.Parameters ChorusKernel.

Section Kernel.
Context {LFO DelayLine : Type} `{!LFOOps LFO} `{!DelayBufferOps DelayLine}.

(** The active oscillators are all in one state. *)
Definition oscillators_identical (k : Kernel LFO DelayLine) : Prop :=
  ∃ lfo, ∀ index, (index < lfoCount_ k)%nat → lfos_ k !! index = Some lfo.

(** The active taps are all one pair. *)
Definition taps_identical (k : Kernel LFO DelayLine) (tap : Q * Q) : Prop :=
  ∀ index, (index < lfoCount_ k)%nat → taps_ k !! index = Some tap.

(** The sizes of the three containers of a kernel. *)
Definition sizes (k : Kernel LFO DelayLine) : nat * nat * nat :=
  (length (lfos_ k), length (taps_ k), length (delayLines_ k)).

(** The state after [j] frames of a block, seen from the buses: every
    input channel has lost its first [j] samples and the matching output
    channel has gained [j] samples, which are the consumed input samples if
    the wet weight is 0 and the dry weight is 1. *)
Definition frames_produced (wetMix dryMix : Q) (ins outs : BusBuffers) (j : nat)
    (s' : Kernel LFO DelayLine * BusBuffers * BusBuffers) : Prop :=
  ∀ channel inBuffer outBuffer,
    ins !! channel = Some inBuffer → outs !! channel = Some outBuffer →
    ∃ samples,
      s'.2 !! channel = Some (outBuffer ++ samples)
      ∧ length samples = j
      ∧ ((wetMix == 0)%Q → (dryMix == 1)%Q → Forall2 Qeq samples (take j inBuffer)).

End Kernel.

(** Everything of a single-oscillator kernel but its delay lines. *)
Definition core {LFO DelayLine : Type} (k : SingleOscillator.Kernel LFO DelayLine) :=
  (SingleOscillator.rate_ k, SingleOscillator.depth_ k, SingleOscillator.delay_ k,
   SingleOscillator.dryMix_ k, SingleOscillator.wetMix_ k, SingleOscillator.odd90_ k,
   SingleOscillator.samplesPerMillisecond_ k, SingleOscillator.lfo_ k,
   SingleOscillator.rampRemaining_ k).

(** The input the tests feed to the kernel, from [mockPullInput] of
    [Tests/KernelTests/KernelTests.mm]: [ptr[pos] = AUValue(pos) / (frameCount - 1)]
    for [pos] from 0 to [frameCount - 1]. The quotient is the exact
    rational; the code rounds it to single precision, which keeps the
    order of the samples for frame counts up to 2^24. *)
Definition mockSample (frameCount pos : nat) : result Q :=
  div_count (inject_Z (Z.of_nat pos)) (frameCount - 1).

Fixpoint mockFill (frameCount pos count : nat) : result (list Q) :=
  match count with
  | O => Ok []
  | Datatypes.S c =>
      sample ← mockSample frameCount pos;
      rest ← mockFill frameCount (Datatypes.S pos) c;
      Ok (sample :: rest)
  end.

Definition mockBuffer (frameCount : nat) : result (list Q) :=
  mockFill frameCount 0 frameCount.

End Coverage.

(** * Properties *)

(** ** The [result] monad and the loops *)

Lemma bind_Ok {A B} (m : result A) (f : A → result B) (b : B) :
  m ≫= f = Ok b ↔ ∃ a, m = Ok a ∧ f a = Ok b.
Proof.
  destruct m as [a|e]; simpl.
  - split; [eauto|]. by intros (a' & [= <-] & ?).
  - split; [done|]. by intros (? & ? & _).
Qed.

Lemma at_index_Ok {A} (l : list A) (i : nat) (a : A) :
  at_index l i = Ok a ↔ l !! i = Some a.
Proof. unfold at_index. destruct (l !! i); split; congruence. Qed.

Lemma at_index_lookup {A} (l : list A) (i : nat) (a : A) :
  l !! i = Some a → at_index l i = Ok a.
Proof. apply at_index_Ok. Qed.

Lemma store_index_lt {A} (l : list A) (i : nat) (x : A) :
  (i < length l)%nat → store_index l i x = Ok (<[i:=x]> l).
Proof. intros Hi. unfold store_index. by rewrite bool_decide_true. Qed.

(** Invariant rule for the counting loop: an invariant that holds at
    [start] and is carried by every successful iteration holds at the end,
    and the loop does not fault. *)
Lemma for_loop_inv {S} (P : nat → S → Prop) (body : nat → S → result S)
    (count start : nat) (s : S) :
  P start s →
  (∀ i t, (start ≤ i < start + count)%nat → P i t →
          ∃ t', body i t = Ok t' ∧ P (Datatypes.S i) t') →
  ∃ s', for_loop start count body s = Ok s' ∧ P (start + count)%nat s'.
Proof.
  revert start s. induction count as [|c IH]; intros start s Hs Hstep; simpl.
  - exists s. by rewrite Nat.add_0_r.
  - destruct (Hstep start s) as (t & -> & Ht); [lia|done|]. simpl.
    destruct (IH (Datatypes.S start) t Ht) as (s' & Hs' & HP).
    + intros i u Hi. apply Hstep. lia.
    + exists s'. split; [done|]. by replace (start + Datatypes.S c)%nat
        with (Datatypes.S start + c)%nat by lia.
Qed.

(** ** Ramps *)

Lemma frameValue_settled_eq (p : DSPHeaders.Parameters.RampingParameter) :
  DSPHeaders.Parameters.remaining p = 0%nat →
  DSPHeaders.Parameters.frameValue p = (DSPHeaders.Parameters.target p, p).
Proof. intros Hp. unfold DSPHeaders.Parameters.frameValue. by rewrite Hp. Qed.

Section RampFacts.
Import DSPHeaders.Parameters.
Local Open Scope Q_scope.
#[local] Abbreviation ofnat n := (inject_Z (Z.of_nat n)).

Lemma ofnat_pos n : 0 < ofnat (Datatypes.S n).
Proof. change 0 with (inject_Z 0). rewrite <- Zlt_Qlt. lia. Qed.

Lemma ofnat_succ n : ofnat (Datatypes.S n) == ofnat n + 1.
Proof.
  rewrite Nat2Z.inj_succ. unfold Z.succ. rewrite inject_Z_plus. reflexivity.
Qed.

Lemma ofnat_sub n k : (k ≤ n)%nat → ofnat (n - k) == ofnat n - ofnat k.
Proof.
  intros Hk. rewrite Nat2Z.inj_sub by done. unfold Z.sub.
  rewrite inject_Z_plus, inject_Z_opp. reflexivity.
Qed.

Lemma ofnat_le n k : (k ≤ n)%nat → ofnat k <= ofnat n.
Proof. intros Hk. rewrite <- Zle_Qle. lia. Qed.

Lemma interpolation_step (c t a n : Q) :
  0 < n → 0 < n - a →
  (c + (t - c) * (a / n)) + (t - (c + (t - c) * (a / n))) / (n - a)
  == c + (t - c) * ((a + 1) / n).
Proof. intros Hn Hna. field. split; lra. Qed.

Lemma fraction_step_le (a n : Q) : 0 < n → a / n <= (a + 1) / n.
Proof.
  intros Hn. apply Qle_shift_div_l; [done|]. field_simplify (a / n * n); lra.
Qed.

Lemma advance_succ k (p : RampingParameter) :
  Ramp.advance (Datatypes.S k) p = (frameValue (Ramp.advance k p)).2.
Proof. reflexivity. Qed.

(** A settled parameter stays as it is. *)
Lemma advance_settled j (p : RampingParameter) :
  remaining p = 0%nat → Ramp.advance j p = p.
Proof.
  intros Hp. induction j as [|j IH]; [done|].
  rewrite advance_succ, IH. by rewrite frameValue_settled_eq.
Qed.


Lemma advance_add a b (p : RampingParameter) :
  Ramp.advance (a + b) p = Ramp.advance a (Ramp.advance b p).
Proof.
  induction a as [|a IH]; [done|].
  change (Datatypes.S a + b)%nat with (Datatypes.S (a + b)).
  by rewrite !advance_succ, IH.
Qed.

(** The state of a ramp of [R] samples from [c] to its target after
    [k <= R] frames. *)
Lemma advance_ramping (p : RampingParameter) (R : nat) (c : Q) k :
  remaining p = R → current p == c → (k ≤ R)%nat →
  remaining (Ramp.advance k p) = (R - k)%nat
  ∧ target (Ramp.advance k p) = target p
  ∧ current (Ramp.advance k p) == c + (target p - c) * (ofnat k / ofnat R).
Proof.
  intros HR Hc. induction k as [|k IH]; intros Hk.
  - simpl. rewrite Nat.sub_0_r. split; [done|]. split; [done|].
    rewrite Hc. unfold Qdiv. simpl. ring.
  - destruct IH as (Hrem & Htgt & Hcur); [lia|].
    rewrite advance_succ. unfold frameValue.
    destruct (remaining (Ramp.advance k p)) as [|r] eqn:Hr; [lia|]. simpl.
    split; [lia|]. split; [done|].
    rewrite Hcur, Htgt.
    assert (ofnat (Datatypes.S r) == ofnat R - ofnat k) as ->.
    { rewrite <- ofnat_sub by lia. by rewrite Hrem. }
    rewrite ofnat_succ. destruct R as [|R']; [lia|].
    apply interpolation_step; [apply ofnat_pos|].
    rewrite <- ofnat_sub by lia. rewrite <- Hrem. apply ofnat_pos.
Qed.

Lemma set_ramp (p0 : RampingParameter) (t : Q) (n : nat) :
  remaining p0 = 0%nat →
  set t (Datatypes.S n) p0
  = {| current := target p0; target := t; remaining := Datatypes.S n |}.
Proof. intros Hp0. unfold set. by rewrite Hp0. Qed.

(** Every frame value of a ramp, the one at the end included, lies on the
    line from the start value to the target. *)
Lemma frameAt_ramp (p0 : RampingParameter) (t : Q) (n j : nat) :
  remaining p0 = 0%nat → (j ≤ Datatypes.S n)%nat →
  Ramp.frameAt j (set t (Datatypes.S n) p0)
  == get p0 + (t - get p0) * (ofnat j / ofnat (Datatypes.S n)).
Proof.
  intros Hp0 Hj. rewrite set_ramp by done.
  set (p := {| current := target p0; target := t; remaining := Datatypes.S n |}).
  destruct (advance_ramping p (Datatypes.S n) (get p0) j) as (Hrem & Htgt & Hcur);
    [done|done|done|].
  unfold Ramp.frameAt, frameValue.
  destruct (remaining (Ramp.advance j p)) as [|r] eqn:Hr; simpl.
  - assert (j = Datatypes.S n) as -> by lia. rewrite Htgt. simpl.
    pose proof (ofnat_pos n) as Hpos. field. lra.
  - exact Hcur.
Qed.

Lemma frameAt_after (p0 : RampingParameter) (t : Q) (N k : nat) :
  remaining p0 = 0%nat → (N ≤ k)%nat →
  remaining (Ramp.advance k (set t N p0)) = 0%nat
  ∧ target (Ramp.advance k (set t N p0)) = t
  ∧ Ramp.advance k (set t N p0) = Ramp.advance N (set t N p0).
Proof.
  intros Hp0 Hk.
  assert (remaining (Ramp.advance N (set t N p0)) = 0%nat
          ∧ target (Ramp.advance N (set t N p0)) = t) as [Hrem Htgt].
  { destruct N as [|n]; [done|]. rewrite set_ramp by done.
    destruct (advance_ramping
                {| current := target p0; target := t; remaining := Datatypes.S n |}
                (Datatypes.S n) (target p0) (Datatypes.S n)) as (Hrem & Htgt & _);
      [done|done|done|].
    rewrite Hrem, Htgt. split; [lia|done]. }
  replace k with ((k - N) + N)%nat by lia.
  rewrite advance_add, advance_settled by done. done.
Qed.

(** C7. After a change to a target with a ramp of N samples, starting from
    the settled value v0, the per-frame values at samples 0..N-1 are the
    linear interpolation between v0 and the target, the sequence is
    monotonic toward the target (non-decreasing when the target is above
    v0, non-increasing when below), the value at sample N is the target
    exactly, and from then on the parameter is settled: every later frame
    is the target and the state no longer changes. *)
Theorem ramp_linear_monotone_exact (p0 : RampingParameter) (targetValue : Q) (N : nat) :
  remaining p0 = 0%nat →
  let v0 := get p0 in
  let p := set targetValue N p0 in
  (∀ k, (k < N)%nat →
     Ramp.frameAt k p == v0 + (targetValue - v0) * (ofnat k / ofnat N))
  ∧ (v0 <= targetValue →
     ∀ k, (k < N)%nat → Ramp.frameAt k p <= Ramp.frameAt (Datatypes.S k) p)
  ∧ (targetValue <= v0 →
     ∀ k, (k < N)%nat → Ramp.frameAt (Datatypes.S k) p <= Ramp.frameAt k p)
  ∧ (∀ k, (N ≤ k)%nat → Ramp.frameAt k p = targetValue)
  ∧ (∀ k, (N ≤ k)%nat →
       remaining (Ramp.advance k p) = 0%nat
       ∧ Ramp.advance (Datatypes.S k) p = Ramp.advance k p).
Proof.
  intros Hp0 v0 p. subst v0 p.
  assert (∀ k, (N ≤ k)%nat → Ramp.frameAt k (set targetValue N p0) = targetValue)
    as Hafter.
  { intros k Hk. destruct (frameAt_after p0 targetValue N k Hp0 Hk) as (Hrem & Htgt & _).
    unfold Ramp.frameAt. rewrite frameValue_settled_eq by done. exact Htgt. }
  split; [|split; [|split; [|split]]].
  - intros k Hk. destruct N as [|n]; [lia|]. apply frameAt_ramp; [done|lia].
  - intros Hup k Hk. destruct N as [|n]; [lia|].
    rewrite !frameAt_ramp by (done || lia). rewrite (ofnat_succ k).
    pose proof (fraction_step_le (ofnat k) (ofnat (Datatypes.S n)) (ofnat_pos n)) as Hxy.
    revert Hxy Hup. generalize (ofnat k / ofnat (Datatypes.S n)).
    generalize ((ofnat k + 1) / ofnat (Datatypes.S n)). generalize (get p0).
    intros c y x Hxy Hup. nra.
  - intros Hdown k Hk. destruct N as [|n]; [lia|].
    rewrite !frameAt_ramp by (done || lia). rewrite (ofnat_succ k).
    pose proof (fraction_step_le (ofnat k) (ofnat (Datatypes.S n)) (ofnat_pos n)) as Hxy.
    revert Hxy Hdown. generalize (ofnat k / ofnat (Datatypes.S n)).
    generalize ((ofnat k + 1) / ofnat (Datatypes.S n)). generalize (get p0).
    intros c y x Hxy Hdown. nra.
  - exact Hafter.
  - intros k Hk.
    destruct (frameAt_after p0 targetValue N k Hp0 Hk) as (Hrem & _ & Heq).
    split; [done|].
    destruct (frameAt_after p0 targetValue N (Datatypes.S k) Hp0) as (_ & _ & Heq');
      [lia|]. congruence.
Qed.

(** *** Percentages stay in [0, 1] *)

Lemma clamp_range (v : Q) :
  0 <= PercentageParameter.clamp v / 100 ∧ PercentageParameter.clamp v / 100 <= 1.
Proof.
  unfold PercentageParameter.clamp.
  pose proof (Q.le_max_l 0 (Qmin 100 v)) as Hlo.
  assert (Qmax 0 (Qmin 100 v) <= 100) as Hhi.
  { apply Q.max_lub; [by intros [=]|apply Q.le_min_l]. }
  revert Hlo Hhi. generalize (Qmax 0 (Qmin 100 v)). intros c Hlo Hhi.
  split.
  - apply Qle_shift_div_l; [reflexivity|]. lra.
  - apply Qle_shift_div_r; [reflexivity|]. lra.
Qed.

Lemma interpolation_between (c t n : Q) :
  1 <= n → 0 <= c → c <= 1 → 0 <= t → t <= 1 →
  0 <= c + (t - c) / n ∧ c + (t - c) / n <= 1.
Proof.
  intros Hn Hc0 Hc1 Ht0 Ht1.
  assert (c + (t - c) / n == (c * (n - 1) + t) / n) as ->.
  { field. lra. }
  split.
  - apply Qle_shift_div_l; [lra|]. nra.
  - apply Qle_shift_div_r; [lra|]. nra.
Qed.

Lemma ofnat_ge_1 n : 1 <= ofnat (Datatypes.S n).
Proof. change 1 with (inject_Z 1). rewrite <- Zle_Qle. lia. Qed.

End RampFacts.

Section PercentageFacts.
Import DSPHeaders.Parameters ChorusKernel.
Local Open Scope Q_scope.
#[local] Abbreviation ofnat n := (inject_Z (Z.of_nat n)).

(** The default percentage is in range and [set], [frameValue] and
    [stopRamping] keep it there; the values rendering reads from a
    percentage in range pass the assertions of [doRendering]. *)
Lemma unit_range_settled_0 : unit_range (settled 0).
Proof. by repeat split. Qed.

Lemma unit_range_set v n (p : PercentageParameter.t) :
  unit_range p →
  unit_range (PercentageParameter.set v n p).
Proof.
  intros [Hc Ht]. pose proof (clamp_range v) as Hv.
  unfold PercentageParameter.set, set, unit_range.
  destruct n as [|n]; simpl; [done|]. split; [|done].
  by destruct (remaining p).
Qed.

Lemma unit_range_frameValue (p : PercentageParameter.t) :
  unit_range p →
  in_unit_interval (PercentageParameter.frameValue p).1 = true
  ∧ in_unit_interval (PercentageParameter.normalized p) = true
  ∧ unit_range (PercentageParameter.frameValue p).2.
Proof.
  intros [[Hc0 Hc1] [Ht0 Ht1]].
  unfold PercentageParameter.frameValue, PercentageParameter.normalized, frameValue, get,
    in_unit_interval, unit_range.
  destruct (remaining p) as [|r]; simpl.
  - rewrite !andb_true_iff, !Qle_bool_iff. done.
  - rewrite !andb_true_iff, !Qle_bool_iff.
    split; [done|]. split; [done|]. split; [|done].
    apply interpolation_between; try done. apply ofnat_ge_1.
Qed.

Lemma unit_range_stopRamping (p : PercentageParameter.t) :
  unit_range p →
  unit_range (PercentageParameter.stopRamping p).
Proof. by intros [_ Ht]. Qed.

End PercentageFacts.


Section KernelFacts.
Import DSPHeaders DSPHeaders.Parameters ChorusKernel.
Context {LFO DelayLine : Type} `{!LFOOps LFO} `{!DelayBufferOps DelayLine}.
Implicit Types k : Kernel LFO DelayLine.

Lemma calcTap_eq k lfo nominalMs displacementMs odd90 :
  calcTap k lfo nominalMs displacementMs odd90
  = (tapOf k lfo nominalMs displacementMs odd90, increment lfo).
Proof. unfold calcTap, tapOf. by destruct odd90. Qed.

Lemma calcTaps_index_spec nominalMs displacementMs odd90 index k lfo :
  lfos_ k !! index = Some lfo →
  (index < length (taps_ k))%nat →
  calcTaps_index nominalMs displacementMs odd90 index k
  = Ok (with_taps (<[index:=tapOf k lfo nominalMs displacementMs odd90]> (taps_ k))
          (with_lfos (<[index:=increment lfo]> (lfos_ k)) k)).
Proof.
  intros Hlfo Hlen. unfold calcTaps_index.
  rewrite (at_index_lookup _ _ _ Hlfo). cbn [mbind result_bind].
  rewrite calcTap_eq. by rewrite store_index_lt.
Qed.

Lemma calcTaps_done_start nominalMs displacementMs odd90 k :
  calcTaps_done nominalMs displacementMs odd90 k 0 k.
Proof.
  split; [by repeat split|]. intros index lfo Hlfo.
  rewrite bool_decide_false by lia. done.
Qed.

Lemma calcTaps_done_step nominalMs displacementMs odd90 k i k' :
  arrays_ok k → (i < lfoCount_ k)%nat →
  calcTaps_done nominalMs displacementMs odd90 k i k' →
  ∃ k'', calcTaps_index nominalMs displacementMs odd90 i k' = Ok k''
         ∧ calcTaps_done nominalMs displacementMs odd90 k (Datatypes.S i) k''.
Proof.
  intros (Hl & Ht & Hc) Hi [Hsame Hslots].
  destruct Hsame as (?&?&?&?&?&?&?&Hspm&?&?&Hll&Htl).
  destruct (lookup_lt_is_Some_2 (lfos_ k) i) as [lfo Hlfo]; [lia|].
  pose proof (Hslots i lfo Hlfo) as Hi'. rewrite bool_decide_false in Hi' by lia.
  destruct Hi' as [_ Hlfo'].
  eexists. split.
  { apply calcTaps_index_spec; [done|]. rewrite Htl, Ht. lia. }
  split.
  { repeat split; simpl; try done; by rewrite length_insert. }
  intros index lfo0 Hlfo0. simpl.
  pose proof (Hslots index lfo0 Hlfo0) as Hidx.
  destruct (decide (index = i)) as [->|Hne].
  - rewrite bool_decide_true by lia.
    assert (lfo0 = lfo) as -> by congruence.
    rewrite !list_lookup_insert_eq by lia.
    unfold tapOf. by rewrite Hspm.
  - rewrite !list_lookup_insert_ne by done.
    destruct (decide (index < i)%nat).
    + rewrite bool_decide_true in Hidx by done. by rewrite bool_decide_true by lia.
    + rewrite bool_decide_false in Hidx by done. by rewrite bool_decide_false by lia.
Qed.

Lemma calcTaps_spec nominalMs displacementMs odd90 k :
  arrays_ok k →
  ∃ k', calcTaps nominalMs displacementMs odd90 k = Ok k'
        ∧ calcTaps_done nominalMs displacementMs odd90 k (lfoCount_ k) k'.
Proof.
  intros Hok. unfold calcTaps.
  apply (for_loop_inv (calcTaps_done nominalMs displacementMs odd90 k)
           _ (lfoCount_ k) 0%nat k).
  - apply calcTaps_done_start.
  - intros i t Hi Ht. apply calcTaps_done_step; [done|lia|done].
Qed.

(** [calcTaps] on a well-formed kernel: every active oscillator gets its
    tap pair from its value before the increment and is incremented once;
    the inactive slots and the rest of the kernel are untouched. *)
Lemma calcTaps_lookup nominalMs displacementMs odd90 k :
  arrays_ok k →
  ∃ k', calcTaps nominalMs displacementMs odd90 k = Ok k'
    ∧ same_but_taps k k'
    ∧ (∀ index lfo, (index < lfoCount_ k)%nat → lfos_ k !! index = Some lfo →
         taps_ k' !! index = Some (tapOf k lfo nominalMs displacementMs odd90)
         ∧ lfos_ k' !! index = Some (increment lfo))
    ∧ (∀ index, (lfoCount_ k ≤ index)%nat →
         taps_ k' !! index = taps_ k !! index ∧ lfos_ k' !! index = lfos_ k !! index).
Proof.
  intros Hok. destruct (calcTaps_spec nominalMs displacementMs odd90 k Hok)
    as (k' & Hrun & Hsame & Hslots).
  exists k'. split; [done|]. split; [done|]. split.
  - intros index lfo Hi Hlfo. specialize (Hslots index lfo Hlfo).
    by rewrite bool_decide_true in Hslots.
  - intros index Hi. destruct (lfos_ k !! index) as [lfo|] eqn:Hlfo.
    + specialize (Hslots index lfo Hlfo). by rewrite bool_decide_false in Hslots by lia.
    + destruct Hsame as (_&_&_&_&_&_&_&_&_&_&Hll&Htl). destruct Hok as (Hl&Ht&_).
      apply lookup_ge_None in Hlfo.
      rewrite !(proj2 (lookup_ge_None _ _)); [done|lia|lia|lia].
Qed.

Lemma arrays_ok_same_but_taps k k' :
  same_but_taps k k' → arrays_ok k → arrays_ok k'.
Proof.
  intros (_&_&_&_&_&_&Hc&_&_&_&Hl&Ht) (?&?&?). unfold arrays_ok.
  rewrite Hl, Ht, Hc. done.
Qed.

(** *** [generate] *)

Lemma generate_loop k (delayLine : DelayLine) (isEven : bool) count :
  ∀ start acc, (start + count ≤ length (taps_ k))%nat →
  for_loop start count
    (λ index output,
       tap ← at_index (taps_ k) index;
       Ok (output + read delayLine (if isEven then tap.1 else tap.2))%Q) acc
  = Ok (foldl (λ output tap,
                 (output + read delayLine (if isEven then tap.1 else tap.2))%Q)
          acc (take count (drop start (taps_ k)))).
Proof.
  induction count as [|c IH]; intros start acc Hlen; simpl; [done|].
  destruct (lookup_lt_is_Some_2 (taps_ k) start) as [tap Htap]; [lia|].
  rewrite (at_index_lookup _ _ _ Htap). simpl.
  rewrite IH by lia. by rewrite (drop_S _ _ _ Htap).
Qed.

(** [generate] sums the reads of the active taps and divides the sum by
    the oscillator count. *)
Lemma generate_eq k inputSample (delayLine : DelayLine) (isEven : bool) :
  (lfoCount_ k ≤ length (taps_ k))%nat →
  generate k inputSample delayLine isEven
  = div_count (readSum k delayLine isEven) (lfoCount_ k).
Proof.
  intros Hlen. unfold generate. rewrite generate_loop by lia. simpl.
  by rewrite drop_0.
Qed.

Lemma generate_same k k' inputSample (delayLine : DelayLine) (isEven : bool) :
  taps_ k' = taps_ k → lfoCount_ k' = lfoCount_ k →
  generate k' inputSample delayLine isEven = generate k inputSample delayLine isEven.
Proof. intros Ht Hc. unfold generate. by rewrite Ht, Hc. Qed.

(** *** [writeSample] *)

Lemma read_advance_cons (ins : BusBuffers) channel inputSample rest :
  ins !! channel = Some (inputSample :: rest) →
  read_advance ins channel = Ok (inputSample, <[channel:=rest]> ins).
Proof. intros Hin. unfold read_advance. by rewrite (at_index_lookup _ _ _ Hin). Qed.

Lemma write_advance_lookup (outs : BusBuffers) channel buffer sample :
  outs !! channel = Some buffer →
  write_advance outs channel sample = Ok (<[channel:=buffer ++ [sample]]> outs).
Proof. intros Hout. unfold write_advance. by rewrite (at_index_lookup _ _ _ Hout). Qed.

Lemma writeSample_done_start wetMix dryMix k ins outs :
  writeSample_done wetMix dryMix k ins outs 0 (k, ins, outs).
Proof.
  split; [by repeat split|]. split; [done|]. split; [done|].
  intros channel. rewrite bool_decide_false by lia. by repeat split.
Qed.

Lemma writeSample_done_step wetMix dryMix k ins outs c s' :
  channels_ok k ins outs →
  (1 ≤ lfoCount_ k)%nat → (lfoCount_ k ≤ length (taps_ k))%nat →
  (c < length ins)%nat →
  writeSample_done wetMix dryMix k ins outs c s' →
  ∃ s'', writeSample_channel wetMix dryMix c s' = Ok s''
         ∧ writeSample_done wetMix dryMix k ins outs (Datatypes.S c) s''.
Proof.
  intros (Hlines & Houts & Hnonempty) Hone Htaps Hc (Hsame & Hli & Hlo & Hchan).
  destruct s' as [[k' ins'] outs']. simpl in *.
  destruct Hsame as (Hr&Hde&Hdl&Hdr&Hw&Ho&Hcnt&Hspm&Hmax&Hlf&Htp&Hll).
  pose proof (Hchan c) as Hcur. rewrite bool_decide_false in Hcur by lia.
  destruct Hcur as (Hin & Hline & Hout). simpl in *.
  destruct (lookup_lt_is_Some_2 ins c) as [buffer Hbuffer]; [lia|].
  destruct buffer as [|inputSample rest]; [by destruct (Hnonempty c [])|].
  destruct (lookup_lt_is_Some_2 (delayLines_ k) c) as [delayLine HdelayLine]; [lia|].
  destruct (lookup_lt_is_Some_2 outs c) as [obuf Hobuf]; [lia|].
  assert (generate k' inputSample delayLine (Nat.odd c)
          = Ok (readSum k delayLine (Nat.odd c) / inject_Z (Z.of_nat (lfoCount_ k)))%Q)
    as Hgen.
  { rewrite (generate_same k k') by done. rewrite generate_eq by done.
    unfold div_count. destruct (lfoCount_ k); [lia|done]. }
  eexists. split.
  { unfold writeSample_channel.
    rewrite (read_advance_cons ins' c inputSample rest) by (by rewrite Hin).
    cbn [mbind result_bind].
    rewrite (at_index_lookup (delayLines_ k') c delayLine) by (by rewrite Hline).
    cbn [mbind result_bind]. rewrite Hgen. cbn [mbind result_bind].
    rewrite (write_advance_lookup outs' c obuf) by (by rewrite Hout).
    cbn [mbind result_bind]. reflexivity. }
  split; [|split; [|split]]; cbn [fst snd].
  - repeat split; simpl; try done. by rewrite length_insert.
  - by rewrite length_insert.
  - by rewrite length_insert.
  - intros channel. specialize (Hchan channel).
    destruct (decide (channel = c)) as [->|Hne].
    + rewrite bool_decide_true by lia.
      intros x r dl buf Hx Hdl' Hbuf. simpl.
      assert (x = inputSample ∧ r = rest) as [-> ->] by (split; congruence).
      assert (dl = delayLine) as -> by congruence.
      assert (buf = obuf) as -> by congruence.
      eexists. split.
      { rewrite <- (generate_same k k') by done. exact Hgen. }
      rewrite !list_lookup_insert_eq by lia. done.
    + destruct (decide (channel < c)%nat) as [Hlt|Hge].
      * rewrite bool_decide_true in Hchan by done. rewrite bool_decide_true by lia.
        intros x r dl buf Hx Hdl' Hbuf.
        destruct (Hchan x r dl buf Hx Hdl' Hbuf) as (w & ? & ? & ? & ?). simpl in *.
        exists w. by rewrite !list_lookup_insert_ne.
      * rewrite bool_decide_false in Hchan by done. rewrite bool_decide_false by lia.
        destruct Hchan as (? & ? & ?). unfold channel_untouched. simpl in *.
        by rewrite !list_lookup_insert_ne.
Qed.

(** [writeSample] on a frame that can be read and written: it does not
    fault, renders every input channel, and leaves everything else. *)
Lemma writeSample_spec ins outs odd90 wetMix dryMix k :
  channels_ok k ins outs →
  (1 ≤ lfoCount_ k)%nat → (lfoCount_ k ≤ length (taps_ k))%nat →
  ∃ s', writeSample ins outs odd90 wetMix dryMix k = Ok s'
        ∧ writeSample_done wetMix dryMix k ins outs (length ins) s'.
Proof.
  intros Hok Hone Htaps. unfold writeSample.
  apply (for_loop_inv (writeSample_done wetMix dryMix k ins outs)
           _ (length ins) 0%nat (k, ins, outs)).
  - apply writeSample_done_start.
  - intros i t Hi Ht. apply writeSample_done_step; [done|done|done|lia|done].
Qed.

(** *** One rendered frame *)

Lemma channels_ok_same_but_taps k k' ins outs :
  same_but_taps k k' → channels_ok k ins outs → channels_ok k' ins outs.
Proof.
  intros (_&_&_&_&_&_&_&_&_&Hd&_&_) (?&?&?). unfold channels_ok. by rewrite Hd.
Qed.

(** A frame on a well-formed kernel with readable buses does not fault:
    the taps are computed, then every channel is rendered. *)
Lemma renderFrame_spec nominal displacement odd90 wetMix dryMix k ins outs :
  arrays_ok k → (1 ≤ lfoCount_ k)%nat → channels_ok k ins outs →
  ∃ k1 s',
    calcTaps nominal displacement odd90 k = Ok k1
    ∧ renderFrame nominal displacement odd90 wetMix dryMix (k, ins, outs) = Ok s'
    ∧ calcTaps_done nominal displacement odd90 k (lfoCount_ k) k1
    ∧ writeSample_done wetMix dryMix k1 ins outs (length ins) s'.
Proof.
  intros Hok Hone Hch.
  destruct (calcTaps_spec nominal displacement odd90 k Hok) as (k1 & Hk1 & Hdone).
  pose proof Hdone as [Hsame _].
  pose proof (arrays_ok_same_but_taps _ _ Hsame Hok) as (Hl1 & Ht1 & Hc1).
  assert (lfoCount_ k1 = lfoCount_ k) as Hcnt by apply Hsame.
  destruct (writeSample_spec ins outs odd90 wetMix dryMix k1) as (s' & Hs' & Hw).
  { by eapply channels_ok_same_but_taps. }
  { lia. }
  { lia. }
  exists k1, s'. split; [done|]. split; [|done].
  unfold renderFrame. rewrite Hk1. exact Hs'.
Qed.

(** *** A block of frames *)

Lemma repeat_loop_inv {S} (P : nat → S → Prop) (body : S → result S) (n : nat) (s : S) :
  P 0%nat s →
  (∀ j t, (j < n)%nat → P j t → ∃ t', body t = Ok t' ∧ P (Datatypes.S j) t') →
  ∃ s', repeat_loop n body s = Ok s' ∧ P n s'.
Proof.
  revert P s. induction n as [|n IH]; intros P s Hs Hstep; simpl; [eauto|].
  destruct (Hstep 0%nat s) as (t & -> & Ht); [lia|done|]. simpl.
  apply (IH (λ j, P (Datatypes.S j))); [done|].
  intros j u Hj. apply Hstep. lia.
Qed.

Lemma drop_cons_S {A} (l : list A) (j : nat) (x : A) (rest : list A) :
  drop j l = x :: rest → drop (Datatypes.S j) l = rest.
Proof.
  revert l. induction j as [|j IH]; intros l Hd.
  - rewrite drop_0 in Hd. by subst l.
  - destruct l as [|y l]; [done|]. simpl in *. by apply IH.
Qed.

Lemma frames_done_start nominal displacement odd90 k ins outs :
  frames_done nominal displacement odd90 k ins outs 0 (k, ins, outs).
Proof.
  split; [by repeat split|]. split; [done|]. split; [done|]. split.
  - intros index lfo _ Hlfo. simpl. split; [done|lia].
  - intros channel buffer Hb. simpl. by rewrite drop_0.
Qed.

Lemma frames_done_step nominal displacement odd90 wetMix dryMix n k ins outs j s' :
  block_ok n k ins outs → (j < n)%nat →
  frames_done nominal displacement odd90 k ins outs j s' →
  ∃ s'', renderFrame nominal displacement odd90 wetMix dryMix s' = Ok s''
         ∧ frames_done nominal displacement odd90 k ins outs (Datatypes.S j) s''.
Proof.
  intros (Hok & Hone & Hlines & Houts & Hsamples) Hj (Hset & Hli & Hlo & Hosc & Hins).
  destruct s' as [[k' ins'] outs']. cbn [fst snd] in *.
  destruct Hset as (Hr&Hde&Hdl&Hdr&Hw&Ho&Hcnt&Hspm&Hmax&Hll&Htl&Hdll).
  destruct Hok as (Hl & Ht & Hc).
  assert (arrays_ok k') as Hok' by (unfold arrays_ok; rewrite Hll, Htl, Hcnt; done).
  assert (channels_ok k' ins' outs') as Hch'.
  { unfold channels_ok. rewrite Hli, Hlo, Hdll. split; [done|]. split; [done|].
    intros channel buffer' Hb'.
    destruct (lookup_lt_is_Some_2 ins channel) as [buffer Hb].
    { apply lookup_lt_Some in Hb'. lia. }
    rewrite (Hins channel buffer Hb) in Hb'. injection Hb' as <-.
    pose proof (Hsamples channel buffer Hb) as Hlen.
    intros Hnil. apply (f_equal length) in Hnil. rewrite length_drop in Hnil.
    simpl in Hnil. lia. }
  destruct (renderFrame_spec nominal displacement odd90 wetMix dryMix k' ins' outs')
    as (k1 & [[k2 ins2] outs2] & Hk1 & Hrun & Htaps & Hwrite); [done|lia|done|].
  exists (k2, ins2, outs2). split; [done|].
  destruct Htaps as [Hsame1 Hslots].
  destruct Hsame1 as (Hr1&Hde1&Hdl1&Hdr1&Hw1&Ho1&Hcnt1&Hspm1&Hmax1&Hd1&Hll1&Htl1).
  destruct Hwrite as (Hsame2 & Hli2 & Hlo2 & Hchan). cbn [fst snd] in *.
  destruct Hsame2 as (Hr2&Hde2&Hdl2&Hdr2&Hw2&Ho2&Hcnt2&Hspm2&Hmax2&Hlf2&Htp2&Hdll2).
  split; [|split; [|split; [|split]]]; cbn [fst snd].
  - repeat split; congruence.
  - congruence.
  - congruence.
  - intros index lfo Hi Hlfo.
    destruct (Hosc index lfo Hi Hlfo) as [Hcur _].
    specialize (Hslots index _ Hcur). rewrite bool_decide_true in Hslots by lia.
    destruct Hslots as [Htap Hinc]. rewrite Hlf2, Htp2. split; [done|].
    intros _. rewrite Htap. replace (Datatypes.S j - 1)%nat with j by lia.
    unfold tapOf. by rewrite Hspm.
  - intros channel buffer Hb.
    pose proof (Hins channel buffer Hb) as Hcur.
    pose proof (Hsamples channel buffer Hb) as Hlen.
    assert (channel < length ins)%nat as Hlt by (by eapply lookup_lt_Some).
    destruct (drop j buffer) as [|inputSample rest] eqn:Hdrop.
    { apply (f_equal length) in Hdrop. rewrite length_drop in Hdrop. simpl in Hdrop. lia. }
    destruct (lookup_lt_is_Some_2 (delayLines_ k1) channel) as [delayLine Hline].
    { rewrite Hd1. lia. }
    destruct (lookup_lt_is_Some_2 outs' channel) as [obuf Hobuf]; [lia|].
    specialize (Hchan channel). rewrite bool_decide_true in Hchan by lia.
    destruct (Hchan inputSample rest delayLine obuf Hcur Hline Hobuf)
      as (w & _ & Hrest & _ & _). cbn [fst snd] in Hrest.
    rewrite Hrest. f_equal. symmetry. by apply (drop_cons_S _ _ inputSample).
Qed.

(** Rendering [n] frames with fixed values on a block that can be rendered
    does not fault. *)
Lemma renderFrames_spec nominal displacement odd90 wetMix dryMix n k ins outs :
  block_ok n k ins outs →
  ∃ s', repeat_loop n (renderFrame nominal displacement odd90 wetMix dryMix) (k, ins, outs)
        = Ok s'
        ∧ frames_done nominal displacement odd90 k ins outs n s'.
Proof.
  intros Hok.
  apply (repeat_loop_inv (frames_done nominal displacement odd90 k ins outs)).
  - apply frames_done_start.
  - intros j t Hj Ht. by eapply frames_done_step.
Qed.

(** *** What rendering leaves alone *)

Lemma for_loop_preserves {S} (P : S → Prop) (body : nat → S → result S) count :
  (∀ i t t', body i t = Ok t' → P t → P t') →
  ∀ start s s', for_loop start count body s = Ok s' → P s → P s'.
Proof.
  intros Hbody. induction count as [|c IH]; intros start s s' Hrun Hs; simpl in Hrun.
  - by injection Hrun as <-.
  - apply bind_Ok in Hrun as (t & Ht & Hrun). eauto.
Qed.

Lemma calcTaps_settings nominal displacement odd90 k k' :
  calcTaps nominal displacement odd90 k = Ok k' → settings k' = settings k.
Proof.
  intros Hrun.
  eapply (for_loop_preserves (λ t, settings t = settings k)); [|exact Hrun|done].
  intros i t t' Hstep Ht. unfold calcTaps_index in Hstep.
  apply bind_Ok in Hstep as (lfo & _ & Hstep).
  destruct (calcTap t lfo nominal displacement odd90) as [tap lfo'].
  apply bind_Ok in Hstep as (taps & _ & [= <-]). exact Ht.
Qed.

Lemma writeSample_settings ins outs odd90 wetMix dryMix k s' :
  writeSample ins outs odd90 wetMix dryMix k = Ok s' → settings s'.1.1 = settings k.
Proof.
  intros Hrun.
  eapply (for_loop_preserves (λ t : Kernel LFO DelayLine * BusBuffers * BusBuffers,
                                settings t.1.1 = settings k)); [|exact Hrun|done].
  intros i [[t tin] tout] t' Hstep Ht. unfold writeSample_channel in Hstep.
  apply bind_Ok in Hstep as ([x tin'] & _ & Hstep).
  apply bind_Ok in Hstep as (dl & _ & Hstep).
  apply bind_Ok in Hstep as (w & _ & Hstep).
  apply bind_Ok in Hstep as (o & _ & [= <-]). exact Ht.
Qed.

Lemma renderFrame_settings nominal displacement odd90 wetMix dryMix s s' :
  renderFrame nominal displacement odd90 wetMix dryMix s = Ok s' →
  settings s'.1.1 = settings s.1.1.
Proof.
  destruct s as [[k ins] outs]. unfold renderFrame. intros Hrun.
  apply bind_Ok in Hrun as (k1 & Hk1 & Hrun).
  apply writeSample_settings in Hrun. apply calcTaps_settings in Hk1.
  simpl. congruence.
Qed.

(** Two loops whose bodies agree on the states of an invariant that the
    second body maintains run alike. *)
Lemma repeat_loop_ext_inv {S} (P : S → Prop) (f g : S → result S) n :
  (∀ t, P t → f t = g t) →
  (∀ t t', P t → g t = Ok t' → P t') →
  ∀ s, P s → repeat_loop n f s = repeat_loop n g s.
Proof.
  intros Hfg Hg. induction n as [|n IH]; intros s Hs; simpl; [done|].
  rewrite (Hfg s Hs). destruct (g s) as [t|e] eqn:Hgs; simpl; [|done].
  apply IH. eauto.
Qed.

(** *** Settled parameters *)

Lemma isRamping_false (p : RampingParameter) :
  Parameters.isRamping p = false ↔ remaining p = 0%nat.
Proof.
  unfold Parameters.isRamping. destruct (remaining p); simpl; split; (done || lia).
Qed.

Lemma kernel_isRamping_false k :
  isRamping k = false ↔
  remaining (rate_ k) = 0%nat ∧ remaining (depth_ k) = 0%nat
  ∧ remaining (delay_ k) = 0%nat ∧ remaining (dryMix_ k) = 0%nat
  ∧ remaining (wetMix_ k) = 0%nat.
Proof.
  unfold isRamping. rewrite !orb_false_iff, !isRamping_false. tauto.
Qed.

Lemma with_delay_same k : with_delay (delay_ k) k = k.
Proof. by destruct k. Qed.
Lemma with_depth_same k : with_depth (depth_ k) k = k.
Proof. by destruct k. Qed.
Lemma with_wetMix_same k : with_wetMix (wetMix_ k) k = k.
Proof. by destruct k. Qed.
Lemma with_dryMix_same k : with_dryMix (dryMix_ k) k = k.
Proof. by destruct k. Qed.

(** With no ramp in progress a one-frame [doRendering] is the frame of the
    block loop at the settled values. *)
Lemma doRendering_one_settled ins outs k :
  isRamping k = false →
  in_unit_interval (PercentageParameter.normalized (depth_ k)) = true →
  doRendering ins outs 1 k
  = renderFrame (MillisecondsParameter.get (delay_ k))
      (calcDisplacement k (MillisecondsParameter.get (delay_ k))
         (PercentageParameter.normalized (depth_ k)))
      (BoolParameter.get (odd90_ k))
      (PercentageParameter.normalized (wetMix_ k))
      (PercentageParameter.normalized (dryMix_ k)) (k, ins, outs).
Proof.
  intros Hramp Hunit. pose proof Hramp as Hsettled.
  apply kernel_isRamping_false in Hsettled as (_ & Hde & Hdl & Hdr & Hw).
  unfold doRendering. rewrite Hramp. cbn [orb Nat.eqb assert mbind result_bind].
  unfold renderSample, MillisecondsParameter.frameValue, PercentageParameter.frameValue.
  rewrite (frameValue_settled_eq _ Hdl), with_delay_same.
  rewrite (frameValue_settled_eq _ Hde), with_depth_same.
  unfold PercentageParameter.normalized, Parameters.get in Hunit. rewrite Hunit.
  cbn [assert mbind result_bind]. unfold renderFrame.
  unfold MillisecondsParameter.get, PercentageParameter.normalized, Parameters.get.
  destruct (calcTaps _ _ _ k) as [k1|e] eqn:Hk1; cbn [mbind result_bind]; [|done].
  apply calcTaps_settings in Hk1. injection Hk1 as _ _ _ Hdr1 Hw1 _ _ _ _.
  rewrite (frameValue_settled_eq (wetMix_ k1)) by congruence. rewrite with_wetMix_same.
  rewrite (frameValue_settled_eq (dryMix_ k1)) by congruence. rewrite with_dryMix_same.
  by rewrite Hw1, Hdr1.
Qed.

Lemma in_unit_interval_true (x : Q) :
  in_unit_interval x = true ↔ (0 <= x)%Q ∧ (x <= 1)%Q.
Proof. unfold in_unit_interval. by rewrite andb_true_iff, !Qle_bool_iff. Qed.

Lemma block_ok_channels n k ins outs :
  block_ok n k ins outs → (1 ≤ n)%nat → channels_ok k ins outs.
Proof.
  intros (_ & _ & Hlines & Houts & Hsamples) Hn. split; [done|]. split; [done|].
  intros channel buffer Hb ->. specialize (Hsamples channel [] Hb). simpl in Hsamples. lia.
Qed.

Lemma frameAt_0 (p : RampingParameter) : Ramp.frameAt 0 p = (frameValue p).1.
Proof. reflexivity. Qed.

(** The first branch of [doRendering] on a block that can be rendered: it
    does not fault and leaves, for each active oscillator, the taps of the
    frame values of the delay and depth parameters. *)
Lemma renderSample_spec odd90 k ins outs :
  block_ok 1 k ins outs →
  in_unit_interval (Ramp.frameAt 0 (depth_ k)) = true →
  ∃ s', renderSample odd90 (k, ins, outs) = Ok s'
    ∧ ∀ index lfo, (index < lfoCount_ k)%nat → lfos_ k !! index = Some lfo →
        taps_ s'.1.1 !! index
        = Some (tapOf k lfo (Ramp.frameAt 0 (delay_ k))
                  ((maxDelayMilliseconds_ k - Ramp.frameAt 0 (delay_ k))
                   * Ramp.frameAt 0 (depth_ k)) odd90)
        ∧ lfos_ s'.1.1 !! index = Some (increment lfo).
Proof.
  intros Hblock Hunit. pose proof (block_ok_channels _ _ _ _ Hblock (le_n 1)) as Hch.
  destruct Hblock as (Hok & Hone & _).
  rewrite !frameAt_0 in *.
  unfold renderSample, MillisecondsParameter.frameValue, PercentageParameter.frameValue.
  destruct (frameValue (delay_ k)) as [nominal delay'] eqn:Hdelay.
  cbn [depth_ with_delay fst snd] in *.
  destruct (frameValue (depth_ k)) as [frac depth'] eqn:Hdepth.
  cbn [fst snd] in *. rewrite Hunit. cbn [assert mbind result_bind].
  set (kA := with_depth depth' (with_delay delay' k)).
  destruct (calcTaps_lookup nominal (calcDisplacement kA nominal frac) odd90 kA)
    as (k1 & Hk1 & Hsame & Hactive & _); [exact Hok|].
  rewrite Hk1. cbn [mbind result_bind].
  destruct (frameValue (wetMix_ k1)) as [wetMix wetP].
  cbn [dryMix_ with_wetMix].
  destruct (frameValue (dryMix_ k1)) as [dryMix dryP].
  set (kB := with_dryMix dryP (with_wetMix wetP k1)).
  destruct Hsame as (_&_&_&_&_&_&Hcnt&_&_&Hd&_&Htl).
  destruct Hok as (Hl & Ht & Hc).
  destruct (writeSample_spec ins outs odd90 wetMix dryMix kB) as (s' & Hs' & Hw).
  { destruct Hch as (? & ? & ?). split; [|done]. simpl. rewrite Hd. done. }
  { simpl. rewrite Hcnt. done. }
  { simpl. rewrite Hcnt, Htl. simpl. lia. }
  exists s'. split; [done|]. intros index lfo Hi Hlfo.
  destruct Hw as (Hlines & _). destruct Hlines as (_&_&_&_&_&_&_&_&_&Hlf&Htp&_).
  rewrite Htp, Hlf. simpl. exact (Hactive index lfo Hi Hlfo).
Qed.

(** The second branch of [doRendering] on a block that can be rendered: it
    does not fault and leaves the taps of the last frame, all frames being
    computed with the one displacement fetched before the loop. *)
Lemma renderBlock_spec odd90 n k ins outs :
  block_ok n k ins outs → percentages_ok k →
  ∃ s', renderBlock odd90 n (k, ins, outs) = Ok s'
    ∧ frames_done (MillisecondsParameter.get (delay_ k))
        ((maxDelayMilliseconds_ k - MillisecondsParameter.get (delay_ k))
         * PercentageParameter.normalized (depth_ k)) odd90 k ins outs n s'.
Proof.
  intros Hblock (Hdepth & Hwet & Hdry). unfold renderBlock.
  rewrite Hdepth, Hwet, Hdry. cbn [assert mbind result_bind].
  by apply renderFrames_spec.
Qed.

(** *** The hypotheses of the claims hold on the kernels the code builds *)

Lemma construct_arrays_ok (newLFO : LFO) lfoCount k :
  construct (DelayLine:=DelayLine) newLFO lfoCount = Ok k → arrays_ok k.
Proof.
  unfold construct, assert. case_bool_decide as Hle; [|done].
  intros [= <-]. unfold arrays_ok, members. cbn [lfos_ taps_ lfoCount_].
  by rewrite !length_replicate.
Qed.

Lemma initialize_arrays_ok channelCount sampleRate maxDelayMilliseconds k :
  arrays_ok k → arrays_ok (initialize channelCount sampleRate maxDelayMilliseconds k).
Proof.
  intros (Hl & Ht & Hc). unfold arrays_ok, initialize.
  cbn [lfos_ taps_ lfoCount_ with_delayLines with_lfos with_format].
  by rewrite length_imap.
Qed.

Lemma setRampedParameterValue_arrays_ok address v duration k :
  arrays_ok k → arrays_ok (setRampedParameterValue address v duration k).
Proof.
  intros (Hl & Ht & Hc). unfold arrays_ok.
  destruct address; cbn; try done. by rewrite length_map.
Qed.

Lemma unit_range_percentages_ok k :
  unit_range (depth_ k) → unit_range (wetMix_ k) → unit_range (dryMix_ k) →
  percentages_ok k ∧ in_unit_interval (Ramp.frameAt 0 (depth_ k)) = true.
Proof.
  intros Hdepth Hwet Hdry.
  destruct (unit_range_frameValue _ Hdepth) as (Hframe & Hn & _).
  destruct (unit_range_frameValue _ Hwet) as (_ & Hw & _).
  destruct (unit_range_frameValue _ Hdry) as (_ & Hd & _).
  by repeat split.
Qed.

(** *** The invariant of the reachable kernels *)

Lemma calcTaps_lengths nominal displacement odd90 k k' :
  calcTaps nominal displacement odd90 k = Ok k' →
  length (lfos_ k') = length (lfos_ k) ∧ length (taps_ k') = length (taps_ k).
Proof.
  intros Hrun.
  eapply (for_loop_preserves
            (λ t, length (lfos_ t) = length (lfos_ k)
                  ∧ length (taps_ t) = length (taps_ k))); [|exact Hrun|done].
  intros i t t' Hstep [Hl Ht]. unfold calcTaps_index in Hstep.
  apply bind_Ok in Hstep as (lfo & _ & Hstep).
  destruct (calcTap t lfo nominal displacement odd90) as [tap lfo'].
  apply bind_Ok in Hstep as (taps & Hstore & [= <-]).
  unfold store_index in Hstore. case_bool_decide; [|done]. injection Hstore as <-.
  cbn [lfos_ taps_ with_taps with_lfos]. by rewrite !length_insert.
Qed.

Lemma writeSample_arrays ins outs odd90 wetMix dryMix k s' :
  writeSample ins outs odd90 wetMix dryMix k = Ok s' →
  lfos_ s'.1.1 = lfos_ k ∧ taps_ s'.1.1 = taps_ k.
Proof.
  intros Hrun.
  eapply (for_loop_preserves (λ t : Kernel LFO DelayLine * BusBuffers * BusBuffers,
                                lfos_ t.1.1 = lfos_ k ∧ taps_ t.1.1 = taps_ k));
    [|exact Hrun|done].
  intros i [[t tin] tout] t' Hstep Ht. unfold writeSample_channel in Hstep.
  apply bind_Ok in Hstep as ([x tin'] & _ & Hstep).
  apply bind_Ok in Hstep as (dl & _ & Hstep).
  apply bind_Ok in Hstep as (w & _ & Hstep).
  apply bind_Ok in Hstep as (o & _ & [= <-]). exact Ht.
Qed.

Lemma kernel_ok_shape k k' :
  settings k' = settings k →
  length (lfos_ k') = length (lfos_ k) → length (taps_ k') = length (taps_ k) →
  kernel_ok k → kernel_ok k'.
Proof.
  intros Hset Hl Ht ((Hal & Hat & Hc) & Hdepth & Hwet & Hdry).
  injection Hset as _ Hde _ Hdr Hw _ Hcnt _ _.
  unfold kernel_ok, arrays_ok. by rewrite Hl, Ht, Hcnt, Hde, Hw, Hdr.
Qed.

Lemma renderFrame_kernel_ok nominal displacement odd90 wetMix dryMix s s' :
  renderFrame nominal displacement odd90 wetMix dryMix s = Ok s' →
  kernel_ok s.1.1 → kernel_ok s'.1.1.
Proof.
  destruct s as [[k ins] outs]. intros Hrun. pose proof (renderFrame_settings _ _ _ _ _ _ _ Hrun).
  unfold renderFrame in Hrun. apply bind_Ok in Hrun as (k1 & Hk1 & Hrun).
  apply calcTaps_lengths in Hk1 as [Hl Ht].
  apply writeSample_arrays in Hrun as [Hl' Ht'].
  apply kernel_ok_shape; [done|by rewrite Hl'|by rewrite Ht'].
Qed.

Lemma repeat_loop_preserves {S} (P : S → Prop) (body : S → result S) n :
  (∀ t t', body t = Ok t' → P t → P t') →
  ∀ s s', repeat_loop n body s = Ok s' → P s → P s'.
Proof.
  intros Hbody. induction n as [|n IH]; intros s s' Hrun Hs; simpl in Hrun.
  - by injection Hrun as <-.
  - apply bind_Ok in Hrun as (t & Ht & Hrun). eauto.
Qed.

Lemma renderSample_kernel_ok odd90 k ins outs s' :
  renderSample odd90 (k, ins, outs) = Ok s' → kernel_ok k → kernel_ok s'.1.1.
Proof.
  intros Hrun (Hok & Hdepth & Hwet & Hdry). unfold renderSample in Hrun.
  destruct (MillisecondsParameter.frameValue (delay_ k)) as [nominal delay'].
  cbn [depth_ with_delay] in Hrun.
  destruct (unit_range_frameValue _ Hdepth) as (_ & _ & Hdepth').
  destruct (PercentageParameter.frameValue (depth_ k)) as [frac depth'].
  cbn [snd] in Hdepth'.
  apply bind_Ok in Hrun as (_ & _ & Hrun).
  apply bind_Ok in Hrun as (k1 & Hk1 & Hrun).
  pose proof (calcTaps_settings _ _ _ _ _ Hk1) as Hset.
  apply calcTaps_lengths in Hk1 as [Hl Ht].
  injection Hset as _ Hde1 _ Hdr1 Hw1 _ Hcnt1 _ _. simpl in *.
  rewrite <- Hw1 in Hwet. rewrite <- Hdr1 in Hdry.
  destruct (unit_range_frameValue _ Hwet) as (_ & _ & Hwet').
  destruct (PercentageParameter.frameValue (wetMix_ k1)) as [wetMix wetP].
  cbn [dryMix_ with_wetMix] in Hrun.
  destruct (unit_range_frameValue _ Hdry) as (_ & _ & Hdry').
  destruct (PercentageParameter.frameValue (dryMix_ k1)) as [dryMix dryP].
  pose proof (writeSample_settings _ _ _ _ _ _ _ Hrun) as Hset'.
  apply writeSample_arrays in Hrun as [Hl' Ht'].
  injection Hset' as _ Hde' _ Hdr' Hw' _ Hcnt' _ _. simpl in *.
  destruct Hok as (Hal & Hat & Hc).
  unfold kernel_ok, arrays_ok.
  rewrite Hl', Ht', Hl, Ht, Hcnt', Hcnt1, Hde', Hde1, Hw', Hdr'. done.
Qed.

(** Every reachable kernel satisfies the invariant. *)
Lemma reachable_kernel_ok k : reachable k → kernel_ok k.
Proof.
  induction 1 as [newLFO lfoCount k Hk|c sr md k _ IH|address v d k _ IH
                  |rendering k _ IH|ins outs n k k' ins' outs' _ IH Hrun].
  - split; [by eapply construct_arrays_ok|].
    unfold construct in Hk. apply bind_Ok in Hk as (_ & _ & [= <-]).
    cbn. (split; [|split]); apply unit_range_settled_0.
  - destruct IH as (Hok & ? & ? & ?).
    split; [by apply initialize_arrays_ok|done].
  - destruct IH as (Hok & Hdepth & Hwet & Hdry).
    split; [by apply setRampedParameterValue_arrays_ok|].
    destruct address; cbn; (split; [|split]); try done; by apply unit_range_set.
  - destruct rendering; [done|]. destruct IH as (Hok & Hdepth & Hwet & Hdry).
    split; [done|]. cbn. (split; [|split]); by apply unit_range_stopRamping.
  - unfold doRendering in Hrun.
    destruct (isRamping k || Nat.eqb n 1).
    + apply bind_Ok in Hrun as (_ & _ & Hrun).
      by apply (renderSample_kernel_ok _ _ _ _ _ Hrun).
    + unfold renderBlock in Hrun.
      apply bind_Ok in Hrun as (_ & _ & Hrun).
      apply bind_Ok in Hrun as (_ & _ & Hrun).
      apply bind_Ok in Hrun as (_ & _ & Hrun).
      eapply (repeat_loop_preserves
                (λ t : Kernel LFO DelayLine * BusBuffers * BusBuffers, kernel_ok t.1.1))
        in Hrun; [exact Hrun| |exact IH].
      intros t t' Ht. by eapply renderFrame_kernel_ok.
Qed.

(** On a reachable kernel the hypotheses of the claims about rendering
    hold. *)
Lemma reachable_hypotheses k :
  reachable k →
  arrays_ok k ∧ percentages_ok k
  ∧ in_unit_interval (Ramp.frameAt 0 (depth_ k)) = true.
Proof.
  intros Hr. destruct (reachable_kernel_ok k Hr) as (Hok & Hdepth & Hwet & Hdry).
  split; [done|]. by apply unit_range_percentages_ok.
Qed.

(** *** Rendering reads the flag through [get] alone *)







(** *** The flag never holds a ramp *)



(** ** The claims *)

(** C1. For every rendered sample and every active oscillator, the even tap
    in samples is (nominalMs + value() * displacementMs) * samplesPerMs,
    the odd tap is (nominalMs + quadPhaseValue() * displacementMs) *
    samplesPerMs when odd90 is enabled and the even tap otherwise, and the
    oscillator is incremented exactly once, after both values were read:
    the taps are built from the oscillator as it was before [increment].
    [calcTaps] is what [doRendering] runs once for each frame, in both of
    its branches. *)
Theorem calcTaps_formula nominalMs displacementMs odd90 k :
  arrays_ok k →
  ∃ k', calcTaps nominalMs displacementMs odd90 k = Ok k'
    ∧ ∀ index lfo, (index < lfoCount_ k)%nat → lfos_ k !! index = Some lfo →
        let evenTap :=
          ((nominalMs + value lfo * displacementMs) * samplesPerMillisecond_ k)%Q in
        let oddTap :=
          if odd90
          then ((nominalMs + quadPhaseValue lfo * displacementMs)
                * samplesPerMillisecond_ k)%Q
          else evenTap in
        taps_ k' !! index = Some (evenTap, oddTap)
        ∧ lfos_ k' !! index = Some (increment lfo).
Proof.
  intros Hok.
  destruct (calcTaps_lookup nominalMs displacementMs odd90 k Hok)
    as (k' & Hrun & _ & Hactive & _).
  exists k'. split; [done|]. intros index lfo Hi Hlfo. simpl.
  destruct (Hactive index lfo Hi Hlfo) as [Htap Hinc]. split; [|done].
  rewrite Htap. unfold tapOf. by destruct odd90.
Qed.

Lemma frames_done_ready nominal displacement odd90 n k ins outs j s' :
  block_ok n k ins outs → (j < n)%nat →
  frames_done nominal displacement odd90 k ins outs j s' →
  arrays_ok s'.1.1 ∧ (1 ≤ lfoCount_ s'.1.1)%nat ∧ channels_ok s'.1.1 s'.1.2 s'.2.
Proof.
  intros (Hok & Hone & Hlines & Houts & Hsamples) Hj (Hset & Hli & Hlo & _ & Hins).
  destruct s' as [[k' ins'] outs']. cbn [fst snd] in *.
  destruct Hset as (_&_&_&_&_&_&Hcnt&_&_&Hll&Htl&Hdll).
  destruct Hok as (Hl & Ht & Hc).
  split; [unfold arrays_ok; by rewrite Hll, Htl, Hcnt|]. split; [lia|].
  unfold channels_ok. rewrite Hli, Hlo, Hdll. split; [done|]. split; [done|].
  intros channel buffer' Hb'.
  destruct (lookup_lt_is_Some_2 ins channel) as [buffer Hb].
  { apply lookup_lt_Some in Hb'. lia. }
  rewrite (Hins channel buffer Hb) in Hb'. injection Hb' as <-.
  pose proof (Hsamples channel buffer Hb) as Hlen.
  intros Hnil. apply (f_equal length) in Hnil. rewrite length_drop in Hnil.
  simpl in Hnil. lia.
Qed.

Lemma drop_cons_lookup {A} (l : list A) (j : nat) (x : A) (rest : list A) :
  drop j l = x :: rest → l !! j = Some x.
Proof.
  intros Hd. pose proof (lookup_drop l j 0) as Hl. rewrite Hd in Hl.
  simpl in Hl. by rewrite Nat.add_0_r in Hl.
Qed.

Lemma block_ok_le n m k ins outs :
  block_ok n k ins outs → (m ≤ n)%nat → block_ok m k ins outs.
Proof.
  intros (Hok & Hone & Hlines & Houts & Hsamples) Hm.
  split; [done|]. split; [done|]. split; [done|]. split; [done|].
  intros channel buffer Hb. specialize (Hsamples channel buffer Hb). lia.
Qed.

Lemma written_snoc (samples : list Q) (sample : Q) (delayLine : DelayLine) :
  written (samples ++ [sample]) delayLine = write sample (written samples delayLine).
Proof. unfold written. by rewrite foldl_app. Qed.

(** The wet sample of a channel whose reads succeed: the reads are made on
    the delay line handed to [generate]. *)
Lemma generate_readSum k inputSample (delayLine : DelayLine) isEven wetSample :
  (1 ≤ lfoCount_ k)%nat → (lfoCount_ k ≤ length (taps_ k))%nat →
  generate k inputSample delayLine isEven = Ok wetSample →
  wetSample = (readSum k delayLine isEven / inject_Z (Z.of_nat (lfoCount_ k)))%Q.
Proof.
  intros Hone Hlen. rewrite generate_eq by done. unfold div_count.
  destruct (lfoCount_ k); [lia|]. by intros [= <-].
Qed.

Lemma frames_written_step nominal displacement odd90 wetMix dryMix n k ins outs j s' :
  block_ok n k ins outs → (j < n)%nat →
  frames_done nominal displacement odd90 k ins outs j s' →
  frames_written k ins j s' →
  ∃ s'', renderFrame nominal displacement odd90 wetMix dryMix s' = Ok s''
    ∧ frames_done nominal displacement odd90 k ins outs (Datatypes.S j) s''
    ∧ frames_written k ins (Datatypes.S j) s''.
Proof.
  intros Hblock Hj Hdone Hwritten.
  destruct (frames_done_step nominal displacement odd90 wetMix dryMix n k ins outs j s'
              Hblock Hj Hdone) as (s'' & Hrun & Hdone').
  exists s''. split; [done|]. split; [done|].
  destruct (frames_done_ready _ _ _ _ _ _ _ _ _ Hblock Hj Hdone) as (Hok' & Hone' & Hch').
  destruct s' as [[k' ins'] outs']. cbn [fst snd] in *.
  destruct (renderFrame_spec nominal displacement odd90 wetMix dryMix k' ins' outs'
              Hok' Hone' Hch') as (k1 & s2 & Hk1 & Hrun2 & Htaps & Hw).
  assert (s2 = s'') as -> by congruence.
  destruct Hw as (_ & _ & _ & Hchan).
  destruct Htaps as [Hsame1 _].
  assert (delayLines_ k1 = delayLines_ k') as Hd1 by apply Hsame1.
  destruct Hdone as (_ & Hli & Hlo & _ & Hins).
  intros channel buffer delayLine Hin Hline.
  pose proof (Hwritten channel buffer delayLine Hin Hline) as Hcurrent.
  cbn [fst snd] in *.
  pose proof (Hins channel buffer Hin) as Hcur.
  assert (channel < length ins)%nat as Hlt by (by eapply lookup_lt_Some).
  destruct Hblock as (_ & _ & Hlines & Houts & Hsamples).
  pose proof (Hsamples channel buffer Hin) as Hn.
  destruct (drop j buffer) as [|inputSample rest] eqn:Hdrop.
  { apply (f_equal length) in Hdrop. rewrite length_drop in Hdrop. simpl in Hdrop. lia. }
  destruct (lookup_lt_is_Some_2 outs' channel) as [obuf Hobuf]; [lia|].
  specialize (Hchan channel). rewrite bool_decide_true in Hchan by lia.
  rewrite <- Hd1 in Hcurrent.
  destruct (Hchan inputSample rest _ obuf Hcur Hcurrent Hobuf)
    as (w & _ & _ & Hline' & _).
  rewrite Hline'. f_equal.
  rewrite (take_S_r _ _ inputSample) by (by eapply drop_cons_lookup).
  by rewrite written_snoc.
Qed.

Lemma renderFrames_written nominal displacement odd90 wetMix dryMix n k ins outs :
  block_ok n k ins outs →
  ∃ s', repeat_loop n (renderFrame nominal displacement odd90 wetMix dryMix) (k, ins, outs)
        = Ok s'
    ∧ frames_done nominal displacement odd90 k ins outs n s'
    ∧ frames_written k ins n s'.
Proof.
  intros Hblock.
  apply (repeat_loop_inv
           (λ j t, frames_done nominal displacement odd90 k ins outs j t
                   ∧ frames_written k ins j t)).
  - split; [apply frames_done_start|].
    intros channel buffer delayLine Hin Hline. by rewrite take_0.
  - intros j t Hj [Hdone Hwritten]. by eapply frames_written_step.
Qed.

(** The write of [writeSample] does not wait on the wet sample: whatever
    value stands for it, every channel's line receives the input sample. *)
Lemma writeSample_with_written (gen : Kernel LFO DelayLine → Q → DelayLine → bool → result Q)
    ins outs odd90 wetMix dryMix k :
  (∀ k1 inputSample delayLine isEven, ∃ w, gen k1 inputSample delayLine isEven = Ok w) →
  channels_ok k ins outs →
  ∃ s', writeSample_with gen ins outs odd90 wetMix dryMix k = Ok s'
        ∧ lines_written_below k ins outs (length ins) s'.
Proof.
  intros Hgen (Hlines & Houts & Hnonempty). unfold writeSample_with.
  apply (for_loop_inv (lines_written_below k ins outs) _ (length ins) 0%nat (k, ins, outs)).
  - split; [done|]. split; [done|]. split; [done|].
    intros channel. by rewrite bool_decide_false by lia.
  - intros c [[k' ins'] outs'] Hc (Hll & Hli & Hlo & Hchan). cbn [fst snd] in *.
    pose proof (Hchan c) as Hcur. rewrite bool_decide_false in Hcur by lia.
    destruct Hcur as [Hin Hline].
    destruct (lookup_lt_is_Some_2 ins c) as [buffer Hbuffer]; [lia|].
    destruct buffer as [|inputSample rest]; [by destruct (Hnonempty c [])|].
    destruct (lookup_lt_is_Some_2 (delayLines_ k) c) as [delayLine HdelayLine]; [lia|].
    destruct (lookup_lt_is_Some_2 outs' c) as [obuf Hobuf]; [lia|].
    destruct (Hgen k' inputSample delayLine (Nat.odd c)) as [w Hw].
    eexists. split.
    { unfold writeSample_channel_with.
      rewrite (read_advance_cons ins' c inputSample rest) by (by rewrite Hin).
      cbn [mbind result_bind].
      rewrite (at_index_lookup (delayLines_ k') c delayLine) by (by rewrite Hline).
      cbn [mbind result_bind]. rewrite Hw. cbn [mbind result_bind].
      rewrite (write_advance_lookup outs' c obuf) by done.
      cbn [mbind result_bind]. reflexivity. }
    split; [|split; [|split]]; cbn [fst snd delayLines_ with_delayLines].
    + by rewrite length_insert.
    + by rewrite length_insert.
    + by rewrite length_insert.
    + intros channel. specialize (Hchan channel).
      destruct (decide (channel = c)) as [->|Hne].
      * rewrite bool_decide_true by lia. intros x r dl Hx Hdl.
        assert (x = inputSample ∧ r = rest) as [-> ->] by (split; congruence).
        assert (dl = delayLine) as -> by congruence.
        by rewrite !list_lookup_insert_eq by lia.
      * destruct (decide (channel < c)%nat) as [Hlt|Hge].
        -- rewrite bool_decide_true in Hchan by done. rewrite bool_decide_true by lia.
           intros x r dl Hx Hdl. destruct (Hchan x r dl Hx Hdl) as [? ?].
           by rewrite !list_lookup_insert_ne.
        -- rewrite bool_decide_false in Hchan by done. rewrite bool_decide_false by lia.
           by rewrite !list_lookup_insert_ne.
Qed.

(** The per-sample branch on a frame that can be rendered: it returns, the
    wet sample of every channel is read from the delay line as it was
    before the frame, and the line then receives the input sample. *)
Lemma renderSample_rendered odd90 k ins outs :
  block_ok 1 k ins outs →
  in_unit_interval (Ramp.frameAt 0 (depth_ k)) = true →
  ∃ k' ins' outs',
    renderSample odd90 (k, ins, outs) = Ok (k', ins', outs')
    ∧ length (delayLines_ k') = length (delayLines_ k)
    ∧ ∀ channel inputSample rest delayLine buffer,
        ins !! channel = Some (inputSample :: rest) →
        delayLines_ k !! channel = Some delayLine →
        outs !! channel = Some buffer →
        outs' !! channel
        = Some (buffer
                ++ [(Ramp.frameAt 0 (wetMix_ k)
                     * (readSum k' delayLine (Nat.odd channel)
                        / inject_Z (Z.of_nat (lfoCount_ k)))
                     + Ramp.frameAt 0 (dryMix_ k) * inputSample)%Q])
        ∧ delayLines_ k' !! channel = Some (write inputSample delayLine)
        ∧ ins' !! channel = Some rest.
Proof.
  intros Hblock Hunit. pose proof (block_ok_channels _ _ _ _ Hblock (le_n 1)) as Hch.
  destruct Hblock as (Hok & Hone & _).
  rewrite !frameAt_0 in *.
  unfold renderSample, MillisecondsParameter.frameValue, PercentageParameter.frameValue.
  destruct (frameValue (delay_ k)) as [nominal delay'] eqn:Hdelay.
  cbn [depth_ with_delay fst snd] in *.
  destruct (frameValue (depth_ k)) as [frac depth'] eqn:Hdepth.
  cbn [fst snd] in *. rewrite Hunit. cbn [assert mbind result_bind].
  set (kA := with_depth depth' (with_delay delay' k)).
  destruct (calcTaps_lookup nominal (calcDisplacement kA nominal frac) odd90 kA)
    as (k1 & Hk1 & Hsame & _); [exact Hok|].
  rewrite Hk1. cbn [mbind result_bind].
  destruct Hsame as (_&_&_&Hdr&Hwm&_&Hcnt&_&_&Hd&_&Htl).
  cbn [dryMix_ wetMix_ lfoCount_ delayLines_ taps_ kA with_depth with_delay] in *.
  rewrite Hwm.
  destruct (frameValue (wetMix_ k)) as [wetMix wetP] eqn:Hwet.
  cbn [dryMix_ with_wetMix]. rewrite Hdr.
  destruct (frameValue (dryMix_ k)) as [dryMix dryP] eqn:Hdry.
  set (kB := with_dryMix dryP (with_wetMix wetP k1)).
  destruct Hok as (Hl & Ht & Hc).
  assert (lfoCount_ kB ≤ length (taps_ kB))%nat as Hsize.
  { cbn. rewrite Hcnt, Htl. lia. }
  destruct (writeSample_spec ins outs odd90 wetMix dryMix kB)
    as ([[k' ins'] outs'] & Hs' & Hw).
  { destruct Hch as (? & ? & ?). split; [|done]. cbn. rewrite Hd. done. }
  { cbn. rewrite Hcnt. done. }
  { exact Hsize. }
  exists k', ins', outs'. split; [done|].
  destruct Hw as (Hlines & _ & _ & Hchan). cbn [fst snd] in *.
  destruct Hlines as (_&_&_&_&_&_&Hcnt'&_&_&_&Htp&Hll).
  split; [rewrite Hll; cbn; by rewrite Hd|].
  intros channel inputSample rest delayLine buffer Hin Hline Hout.
  specialize (Hchan channel).
  rewrite bool_decide_true in Hchan by (apply lookup_lt_Some in Hin; lia).
  destruct (Hchan inputSample rest delayLine buffer Hin) as (w & Hgen & Hins' & Hline' & Hout');
    [cbn; by rewrite Hd|done|].
  cbn [fst snd] in *.
  apply generate_readSum in Hgen; [|cbn; rewrite Hcnt; done|exact Hsize].
  split; [|done]. rewrite Hout', Hgen. unfold readSum.
  rewrite Htp, Hcnt'. cbn [lfoCount_ kB with_dryMix with_wetMix].
  by rewrite Hcnt.
Qed.

(** C5. For every rendered sample and every channel, in both branches of
    [doRendering]: the wet sample is the average of the reads of the
    channel's delay line as it is before the frame, at the taps computed
    for the frame, and the line then receives exactly one [write], that of
    the input sample, whatever the parameter values (the nominal delay,
    the displacement -- zero included --, the mix weights and odd90). Over
    a block of [frameCount] frames the line of a channel ends as the line
    it was with the first [frameCount] input samples of the channel
    written to it, one [write] per sample, in their order. The write does
    not depend on the wet sample at all: with any computation in the place
    of [generate] that yields a value -- as the float division does for
    every oscillator count, 0 included -- the channel loop of [writeSample]
    writes the input sample to the line of every channel. *)
Theorem read_before_unconditional_write nominal displacement odd90 wetMix dryMix
    frameCount k ins outs :
  block_ok frameCount k ins outs → (1 ≤ frameCount)%nat →
  percentages_ok k →
  in_unit_interval (Ramp.frameAt 0 (depth_ k)) = true →
  (∃ k' ins' outs',
     doRendering ins outs 1 k = Ok (k', ins', outs')
     ∧ (∀ index lfo, (index < lfoCount_ k)%nat → lfos_ k !! index = Some lfo →
          taps_ k' !! index
          = Some (tapOf k lfo (Ramp.frameAt 0 (delay_ k))
                    ((maxDelayMilliseconds_ k - Ramp.frameAt 0 (delay_ k))
                     * Ramp.frameAt 0 (depth_ k)) (BoolParameter.get (odd90_ k))))
     ∧ ∀ channel inputSample rest delayLine buffer,
         ins !! channel = Some (inputSample :: rest) →
         delayLines_ k !! channel = Some delayLine →
         outs !! channel = Some buffer →
         outs' !! channel
         = Some (buffer
                 ++ [(Ramp.frameAt 0 (wetMix_ k)
                      * (readSum k' delayLine (Nat.odd channel)
                         / inject_Z (Z.of_nat (lfoCount_ k)))
                      + Ramp.frameAt 0 (dryMix_ k) * inputSample)%Q])
         ∧ delayLines_ k' !! channel = Some (write inputSample delayLine)
         ∧ ins' !! channel = Some rest)
  ∧ (∃ k1 k' ins' outs',
       calcTaps nominal displacement odd90 k = Ok k1
       ∧ renderFrame nominal displacement odd90 wetMix dryMix (k, ins, outs)
         = Ok (k', ins', outs')
       ∧ taps_ k' = taps_ k1
       ∧ length (delayLines_ k') = length (delayLines_ k)
       ∧ ∀ channel inputSample rest delayLine buffer,
           ins !! channel = Some (inputSample :: rest) →
           delayLines_ k !! channel = Some delayLine →
           outs !! channel = Some buffer →
           outs' !! channel
           = Some (buffer
                   ++ [(wetMix
                        * (readSum k1 delayLine (Nat.odd channel)
                           / inject_Z (Z.of_nat (lfoCount_ k)))
                        + dryMix * inputSample)%Q])
           ∧ delayLines_ k' !! channel = Some (write inputSample delayLine)
           ∧ ins' !! channel = Some rest)
  ∧ (isRamping k = false → frameCount ≠ 1%nat →
     ∃ k' ins' outs',
       doRendering ins outs frameCount k = Ok (k', ins', outs')
       ∧ length (delayLines_ k') = length (delayLines_ k)
       ∧ ∀ channel buffer delayLine,
           ins !! channel = Some buffer → delayLines_ k !! channel = Some delayLine →
           delayLines_ k' !! channel = Some (written (take frameCount buffer) delayLine)
           ∧ ins' !! channel = Some (drop frameCount buffer))
  ∧ (∀ ins0 outs0 k0,
       writeSample_with generate ins0 outs0 odd90 wetMix dryMix k0
       = writeSample ins0 outs0 odd90 wetMix dryMix k0)
  ∧ (∀ (gen : Kernel LFO DelayLine → Q → DelayLine → bool → result Q) ins0 outs0 k0,
       (∀ k1 inputSample delayLine isEven,
          ∃ w, gen k1 inputSample delayLine isEven = Ok w) →
       channels_ok k0 ins0 outs0 →
       ∃ k' ins' outs',
         writeSample_with gen ins0 outs0 odd90 wetMix dryMix k0 = Ok (k', ins', outs')
         ∧ length (delayLines_ k') = length (delayLines_ k0)
         ∧ ∀ channel inputSample rest delayLine,
             ins0 !! channel = Some (inputSample :: rest) →
             delayLines_ k0 !! channel = Some delayLine →
             delayLines_ k' !! channel = Some (write inputSample delayLine)
             ∧ ins' !! channel = Some rest).
Proof.
  intros Hblock Hcount Hpercent Hunit.
  pose proof (block_ok_le _ 1 _ _ _ Hblock Hcount) as Hblock1.
  pose proof (block_ok_channels _ _ _ _ Hblock Hcount) as Hch.
  split; [|split; [|split; [|split]]].
  - destruct (renderSample_rendered (BoolParameter.get (odd90_ k)) k ins outs
                Hblock1 Hunit) as (k' & ins' & outs' & Hrun & _ & Hchan).
    destruct (renderSample_spec (BoolParameter.get (odd90_ k)) k ins outs
                Hblock1 Hunit) as (s' & Hrun' & Htaps).
    assert (s' = (k', ins', outs')) as -> by congruence.
    exists k', ins', outs'. split; [|split; [|exact Hchan]].
    + unfold doRendering. rewrite orb_true_r. exact Hrun.
    + intros index lfo Hindex Hlfo. by destruct (Htaps index lfo Hindex Hlfo).
  - destruct Hblock as (Hok & Hone & _).
    destruct (renderFrame_spec nominal displacement odd90 wetMix dryMix k ins outs
                Hok Hone Hch) as (k1 & [[k' ins'] outs'] & Hk1 & Hrun & Htaps & Hw).
    destruct Htaps as [Hsame _]. destruct Hw as (Hlines & _ & _ & Hchan).
    destruct Hsame as (_&_&_&_&_&_&Hcnt&_&_&Hd&_&Htl).
    destruct Hlines as (_&_&_&_&_&_&_&_&_&_&Htp&Hll). cbn [fst snd] in *.
    exists k1, k', ins', outs'. split; [done|]. split; [done|]. split; [done|].
    split; [by rewrite Hll, Hd|].
    intros channel inputSample rest delayLine buffer Hin Hline Hout.
    specialize (Hchan channel).
    rewrite bool_decide_true in Hchan by (apply lookup_lt_Some in Hin; lia).
    rewrite <- Hd in Hline.
    destruct (Hchan inputSample rest delayLine buffer Hin Hline Hout)
      as (wetSample & Hgen & Hins' & Hline' & Hout').
    cbn [fst snd] in *.
    apply generate_readSum in Hgen;
      [|rewrite Hcnt; done|destruct Hok as (_ & Ht & Hc); rewrite Hcnt, Htl; lia].
    split; [|done]. by rewrite Hout', Hgen, Hcnt.
  - intros Hramp Hne. unfold doRendering. rewrite Hramp.
    destruct (Nat.eqb_spec frameCount 1) as [|_]; [done|]. cbn [orb].
    unfold renderBlock. destruct Hpercent as (Hdepth & Hwet & Hdry).
    rewrite Hdepth, Hwet, Hdry. cbn [assert mbind result_bind].
    destruct (renderFrames_written
                (MillisecondsParameter.get (delay_ k))
                (calcDisplacement k (MillisecondsParameter.get (delay_ k))
                   (PercentageParameter.normalized (depth_ k)))
                (BoolParameter.get (odd90_ k))
                (PercentageParameter.normalized (wetMix_ k))
                (PercentageParameter.normalized (dryMix_ k))
                frameCount k ins outs Hblock)
      as ([[k' ins'] outs'] & Hrun & Hdone & Hwritten).
    exists k', ins', outs'. split; [exact Hrun|].
    destruct Hdone as (Hset & _ & _ & _ & Hins). cbn [fst snd] in *.
    split; [apply Hset|].
    intros channel buffer delayLine Hin Hline. split.
    + by apply (Hwritten channel buffer delayLine).
    + by apply Hins.
  - reflexivity.
  - intros gen ins0 outs0 k0 Hgen Hch0.
    destruct (writeSample_with_written gen ins0 outs0 odd90 wetMix dryMix k0 Hgen Hch0)
      as ([[k' ins'] outs'] & Hrun & Hll & _ & _ & Hchan). cbn [fst snd] in *.
    exists k', ins', outs'. split; [done|]. split; [done|].
    intros channel inputSample rest delayLine Hin Hline.
    specialize (Hchan channel).
    rewrite bool_decide_true in Hchan by (apply lookup_lt_Some in Hin; lia).
    by apply Hchan.
Qed.

(** C10. The wet sample of the N-oscillator kernel is the sum of the
    lfoCount reads divided by lfoCount; the constructor accepts exactly the
    counts up to MAX_LFOS = 50, 0 included; the division is defined exactly
    when lfoCount >= 1, and with lfoCount = 0 every call of [generate] --
    one for each rendered sample and channel -- divides by zero. *)
Theorem generate_divides_by_lfoCount :
  MAX_LFOS = 50%nat
  ∧ (∀ (newLFO : LFO) lfoCount,
       (lfoCount ≤ MAX_LFOS)%nat
       ↔ ∃ k, construct (DelayLine:=DelayLine) newLFO lfoCount = Ok k
              ∧ lfoCount_ k = lfoCount)
  ∧ (∀ k inputSample (delayLine : DelayLine) isEven,
       (1 ≤ lfoCount_ k ≤ length (taps_ k))%nat →
       generate k inputSample delayLine isEven
       = Ok (readSum k delayLine isEven / inject_Z (Z.of_nat (lfoCount_ k)))%Q)
  ∧ (∀ k inputSample (delayLine : DelayLine) isEven,
       lfoCount_ k = 0%nat →
       generate k inputSample delayLine isEven = Fault DivisionByZero)
  ∧ (∀ k inputSample (delayLine : DelayLine) isEven wetSample,
       generate k inputSample delayLine isEven = Ok wetSample →
       (1 ≤ lfoCount_ k)%nat).
Proof.
  split; [done|]. split; [|split; [|split]].
  - intros newLFO lfoCount. unfold construct, assert. split.
    + intros Hle. rewrite bool_decide_true by done. simpl. eauto.
    + intros (k & Hk & _). case_bool_decide; [done|]. discriminate.
  - intros k x dl e [Hone Hlen]. rewrite generate_eq by done.
    unfold div_count. destruct (lfoCount_ k); [lia|done].
  - intros k x dl e Hzero. rewrite generate_eq by lia. by rewrite Hzero.
  - intros k x dl e w Hgen. unfold generate in Hgen.
    apply bind_Ok in Hgen as (output & _ & Hdiv).
    unfold div_count in Hdiv. destruct (lfoCount_ k); [discriminate|lia].
Qed.

(** C2. For every rendered sample the displacement that moves the taps is
    (maxDelayMilliseconds - nominalDelayMilliseconds) * displacementFraction,
    the fraction being the depth parameter's value in [0, 1] for that
    sample: its frame value in the per-sample strategy, its settled
    processing value in the per-block strategy, where the one displacement
    serves every frame up to the last. *)
Theorem displacement_formula odd90 frameCount k ins outs :
  block_ok frameCount k ins outs → (1 ≤ frameCount)%nat →
  percentages_ok k →
  in_unit_interval (Ramp.frameAt 0 (depth_ k)) = true →
  (∀ nominal displacementFraction,
     calcDisplacement k nominal displacementFraction
     = ((maxDelayMilliseconds_ k - nominal) * displacementFraction)%Q)
  ∧ (let nominal := Ramp.frameAt 0 (delay_ k) in
     let displacementFraction := Ramp.frameAt 0 (depth_ k) in
     (0 <= displacementFraction)%Q ∧ (displacementFraction <= 1)%Q
     ∧ ∃ s', renderSample odd90 (k, ins, outs) = Ok s'
         ∧ ∀ index lfo, (index < lfoCount_ k)%nat → lfos_ k !! index = Some lfo →
             taps_ s'.1.1 !! index
             = Some (tapOf k lfo nominal
                       ((maxDelayMilliseconds_ k - nominal) * displacementFraction)
                       odd90))
  ∧ (let nominal := MillisecondsParameter.get (delay_ k) in
     let displacementFraction := PercentageParameter.normalized (depth_ k) in
     (0 <= displacementFraction)%Q ∧ (displacementFraction <= 1)%Q
     ∧ ∃ s', renderBlock odd90 frameCount (k, ins, outs) = Ok s'
         ∧ ∀ index lfo, (index < lfoCount_ k)%nat → lfos_ k !! index = Some lfo →
             taps_ s'.1.1 !! index
             = Some (tapOf k (Nat.iter (frameCount - 1) increment lfo) nominal
                       ((maxDelayMilliseconds_ k - nominal) * displacementFraction)
                       odd90)).
Proof.
  intros Hblock Hn Hpct Hunit. split; [done|]. split.
  - cbn zeta. apply in_unit_interval_true in Hunit as Hrange.
    destruct Hrange as [H0 H1]. split; [done|]. split; [done|].
    destruct (renderSample_spec odd90 k ins outs) as (s' & Hs' & Htaps); [|done|].
    { destruct Hblock as (?&?&?&?&Hsamples).
      split; [done|]. split; [done|]. split; [done|]. split; [done|].
      intros channel buffer Hb. specialize (Hsamples channel buffer Hb). lia. }
    exists s'. split; [done|]. intros index lfo Hi Hlfo.
    by destruct (Htaps index lfo Hi Hlfo).
  - cbn zeta. destruct Hpct as (Hdepth & Hrest).
    apply in_unit_interval_true in Hdepth as Hrange.
    destruct Hrange as [H0 H1]. split; [done|]. split; [done|].
    destruct (renderBlock_spec odd90 frameCount k ins outs Hblock) as (s' & Hs' & Hdone).
    { by split. }
    exists s'. split; [done|]. intros index lfo Hi Hlfo.
    destruct Hdone as (_ & _ & _ & Hosc & _).
    destruct (Hosc index lfo Hi Hlfo) as [_ Htap]. by apply Htap.
Qed.

(** C4. For every block rendered while no parameter ramp is in progress,
    the per-block strategy (settled values fetched once, one displacement)
    yields the same result -- outputs, consumed inputs, delay lines,
    oscillators, taps, or the same fault -- as the per-sample strategy
    ([frameCount] one-frame renders advancing the parameters with
    [frameValue()]) on the same input; and the per-block strategy is what
    [doRendering] runs for such a block of more than one frame. The range
    hypothesis on the percentages holds on every reachable kernel
    ([reachable_hypotheses]). *)
Theorem block_strategy_matches_per_sample frameCount k ins outs :
  isRamping k = false → percentages_ok k →
  renderBlock (BoolParameter.get (odd90_ k)) frameCount (k, ins, outs)
  = perSampleStrategy frameCount (k, ins, outs)
  ∧ (frameCount ≠ 1%nat →
     doRendering ins outs frameCount k
     = renderBlock (BoolParameter.get (odd90_ k)) frameCount (k, ins, outs)).
Proof.
  intros Hramp (Hdepth & Hwet & Hdry). split.
  - unfold renderBlock, perSampleStrategy.
    rewrite Hdepth, Hwet, Hdry. cbn [assert mbind result_bind]. symmetry.
    apply (repeat_loop_ext_inv
             (λ t : Kernel LFO DelayLine * BusBuffers * BusBuffers,
                settings t.1.1 = settings k)); [| |done].
    + intros [[k2 ins2] outs2] Hset. cbn [fst snd] in Hset.
      injection Hset as Hr Hde Hdl Hdr Hw Ho Hcnt Hspm Hmax.
      rewrite doRendering_one_settled.
      * unfold calcDisplacement. by rewrite Hde, Hdl, Hdr, Hw, Ho, Hmax.
      * unfold isRamping in *. by rewrite Hr, Hde, Hdl, Hdr, Hw.
      * by rewrite Hde.
    + intros t t' Ht Hrun. apply renderFrame_settings in Hrun. congruence.
  - intros Hne. unfold doRendering. rewrite Hramp.
    destruct (Nat.eqb_spec frameCount 1); [done|]. done.
Qed.


(** C6. For each of the six parameter ids and every value of the id's
    legal domain, a change to that value with ramp duration 0 followed by a
    read of the parameter returns the value, in the domain in which it was
    supplied; the difference is within 1e-5 (it is zero, the arithmetic
    being exact here). *)
Theorem parameter_round_trip (address : ParameterAddress) (v : Q) k :
  legal address v →
  let k' := setRampedParameterValue address v 0 k in
  (getParameterValue address k' == v)%Q
  ∧ (Qabs (getParameterValue address k' - v) <= 1.0e-5)%Q.
Proof.
  intros Hlegal. cbn zeta.
  assert (getParameterValue address (setRampedParameterValue address v 0 k) == v)%Q
    as Heq.
  { destruct address; simpl in *; try reflexivity.
    1-3: destruct Hlegal as [H0 H100];
         unfold PercentageParameter.get, PercentageParameter.clamp, Parameters.get;
         simpl; rewrite (Q.min_r 100 v H100), (Q.max_r 0 v H0); field.
    unfold BoolParameter.get, Parameters.get, Qlt_bool. simpl.
    destruct (Qle_bool v 0.5) eqn:Hle; simpl.
    - apply Qle_bool_iff in Hle. destruct Hlegal as [Hv|Hv]; rewrite Hv in *;
        [reflexivity|]. exfalso. revert Hle. apply Qlt_not_le. reflexivity.
    - destruct Hlegal as [Hv|Hv]; rewrite Hv in *; [|reflexivity].
      assert (Qle_bool 0 0.5 = true) by reflexivity.
      assert (Qle_bool v 0.5 = true) as Hv'.
      { apply Qle_bool_iff. rewrite Hv. by intros [=]. }
      congruence. }
  split; [done|]. rewrite Heq.
  assert (v - v == 0)%Q as -> by ring. by intros [=].
Qed.

(** [writeSample] passes [channel & 1] where [generate] expects [isEven]:
    on an even channel the reads go to the odd taps, on an odd channel to
    the even taps. *)
Lemma writeSample_tap_choice k (inputSample : Q) (delayLine : DelayLine) channel :
  (lfoCount_ k ≤ length (taps_ k))%nat →
  generate k inputSample delayLine (Nat.odd channel)
  = div_count
      (foldl (λ output tap,
                (output + read delayLine (if Nat.even channel then tap.2 else tap.1))%Q)
         0%Q (take (lfoCount_ k) (taps_ k)))
      (lfoCount_ k).
Proof.
  intros Hlen. rewrite generate_eq by done. unfold readSum.
  rewrite <- Nat.negb_even. by destruct (Nat.even channel).
Qed.

(** [initialize] hands every oscillator the phase [index / lfos_.size()],
    an integer quotient that is 0 for every slot of the array. *)
Lemma initialize_lfo channelCount sampleRate maxDelayMilliseconds k index lfo :
  length (lfos_ k) = MAX_LFOS → lfos_ k !! index = Some lfo →
  lfos_ (initialize channelCount sampleRate maxDelayMilliseconds k) !! index
  = Some (setPhase 0%Q
            (setFrequency (MillisecondsParameter.get (rate_ k)) 0
               (setWaveform sinusoid (setSampleRate sampleRate lfo)))).
Proof.
  intros Hlen Hlfo. simpl. rewrite list_lookup_imap, Hlfo. simpl.
  apply lookup_lt_Some in Hlfo. rewrite Nat.div_small by lia. done.
Qed.

End KernelFacts.

(** ** The single-oscillator listings *)

Section SingleOscillatorFacts.
Import DSPHeaders DSPHeaders.Parameters SingleOscillator.
Context {LFO DelayLine : Type} `{!LFOOps LFO} `{!DelayBufferOps DelayLine}.
Implicit Types k : Kernel LFO DelayLine.

(** [Kernel.hpp]: the taps are [value * displacement + tap] with
    [displacement = tap * fraction] (no factor samplesPerMillisecond); an
    odd channel reads the odd tap when odd90 is set, every other channel
    the even tap; the line is read, then written once. *)
Lemma hpp_channel_spec odd90 evenTap oddTap wetMix dryMix channel k
    (ins outs : ChorusKernel.BusBuffers) inputSample rest delayLine buffer :
  ins !! channel = Some (inputSample :: rest) →
  delayLines_ k !! channel = Some delayLine →
  outs !! channel = Some buffer →
  hpp_channel odd90 evenTap oddTap wetMix dryMix channel (k, ins, outs)
  = Ok (with_delayLines (<[channel:=write inputSample delayLine]> (delayLines_ k)) k,
        <[channel:=rest]> ins,
        <[channel:=buffer ++
             [(wetMix * read delayLine (if Nat.odd channel && odd90 then oddTap else evenTap)
               + dryMix * inputSample)%Q]]> outs).
Proof.
  intros Hin Hline Hout. unfold hpp_channel.
  rewrite (read_advance_cons _ _ _ _ Hin). cbn [mbind result_bind].
  rewrite (at_index_lookup _ _ _ Hline). cbn [mbind result_bind].
  by rewrite (write_advance_lookup _ _ _ _ Hout).
Qed.

(** [unnamed/part_001]: when the displacement is zero the delay line is
    neither read nor written and the input sample stands in for the
    delayed sample. *)
Lemma part_001_channel_zero odd90 displacement evenDelay oddDelay wetMix dryMix channel k
    (ins outs : ChorusKernel.BusBuffers) inputSample rest buffer :
  (displacement == 0)%Q →
  ins !! channel = Some (inputSample :: rest) →
  outs !! channel = Some buffer →
  part_001_channel odd90 displacement evenDelay oddDelay wetMix dryMix channel
    (k, ins, outs)
  = Ok (k, <[channel:=rest]> ins,
        <[channel:=buffer ++ [(wetMix * inputSample + dryMix * inputSample)%Q]]> outs).
Proof.
  intros Hzero Hin Hout. unfold part_001_channel.
  rewrite (read_advance_cons _ _ _ _ Hin). cbn [mbind result_bind].
  rewrite (proj2 (Qeq_bool_iff displacement 0) Hzero). cbn [negb mbind result_bind].
  by rewrite (write_advance_lookup _ _ _ _ Hout).
Qed.

(** [unnamed/part_001]: with a non-zero displacement the channel is
    rendered as in [Kernel.hpp]. *)
Lemma part_001_channel_nonzero odd90 displacement evenDelay oddDelay wetMix dryMix
    channel k (ins outs : ChorusKernel.BusBuffers) :
  ¬ (displacement == 0)%Q →
  part_001_channel odd90 displacement evenDelay oddDelay wetMix dryMix channel
    (k, ins, outs)
  = hpp_channel odd90 evenDelay oddDelay wetMix dryMix channel (k, ins, outs).
Proof.
  intros Hnz. unfold part_001_channel, hpp_channel.
  destruct (Qeq_bool displacement 0) eqn:Hq.
  { by apply Qeq_bool_iff in Hq. }
  destruct (ChorusKernel.read_advance ins channel) as [[x ins']|e];
    cbn [negb mbind result_bind]; [|done].
  by destruct (at_index (delayLines_ k) channel).
Qed.

End SingleOscillatorFacts.

(** ** The kernel on concrete inputs *)

Section Concrete.
Import DSPHeaders DSPHeaders.Parameters ChorusKernel TestDoubles.
Local Open Scope Q_scope.

(** C3 on the code: with odd90 enabled the one oscillator of the kernel has
    the even tap 4 and the odd tap 6; the delay lines hold 5 at offset 4 and
    7 at offset 6. The frame's output on channel 0, an even channel, is 7,
    the sample at the odd tap, and the output on channel 1 is 5, the sample
    at the even tap. *)
Theorem even_channel_reads_odd_tap :
  ∃ k' ins' outs',
    doRendering [[9]; [9]] [[]; []] 1 (demoKernelPlayed 1 1) = Ok (k', ins', outs')
    ∧ (λ tap, (Qred tap.1, Qred tap.2)) <$> taps_ k' !! 0%nat = Some (4, 6)
    ∧ read demoHistory 4 = 5 ∧ read demoHistory 6 = 7
    ∧ map (map Qred) outs' = [[7]; [5]].
Proof. vm_compute. eexists _, _, _. repeat split; reflexivity. Qed.

(** C9 on the code: after [initialize] the ten active oscillators of a
    default kernel all have phase 0; oscillator 5 is not at 5/10 of a
    cycle. *)
Theorem initialize_phases_all_zero :
  let k := initialize 2 44100 50 (members (DelayLine:=HistoryLine) newLFO 10) in
  phase <$> take 10 (lfos_ k) = replicate 10 0
  ∧ phase <$> lfos_ k !! 5%nat = Some 0
  ∧ ¬ (0 == 5 / 10).
Proof. vm_compute. repeat split; try reflexivity. by intros [=]. Qed.

Lemma demo_reachable : reachable (demoKernel 2 1).
Proof.
  unfold demoKernel. cbn zeta.
  do 6 apply reachable_setRampedParameterValue.
  apply reachable_initialize.
  by apply (reachable_construct newLFO 2).
Defined.

Lemma calcTaps_formula_witness :
  arrays_ok (demoKernel 2 1)
  ∧ ∃ k', calcTaps 6 2 true (demoKernel 2 1) = Ok k'
      ∧ (λ tap, (Qred tap.1, Qred tap.2)) <$> taps_ k' !! 0%nat = Some (4, 6).
Proof.
  assert (arrays_ok (demoKernel 2 1)) as Hok.
  { unfold arrays_ok. vm_compute. repeat split; lia. }
  split; [exact Hok|].
  destruct (calcTaps_formula 6 2 true (demoKernel 2 1) Hok) as (k' & Hrun & Htaps).
  exists k'. split; [exact Hrun|].
  destruct (Htaps 0%nat newLFO_configured) as [-> _]; [vm_compute; lia|reflexivity|].
  reflexivity.
Defined.

Lemma demo_block_ok :
  block_ok 3 (demoKernelPlayed 2 1) [[9; 10; 11]; [9; 10; 11]] [[]; []].
Proof.
  split; [unfold arrays_ok; vm_compute; repeat split; lia|].
  split; [vm_compute; lia|]. split; [vm_compute; lia|]. split; [vm_compute; lia|].
  intros [|[|channel]] buffer Hb; simpl in Hb; [| |discriminate];
    injection Hb as <-; simpl; lia.
Defined.

Lemma demo_percentages_ok : percentages_ok (demoKernelPlayed 2 1).
Proof. repeat split; reflexivity. Defined.

Lemma displacement_formula_witness :
  block_ok 3 (demoKernelPlayed 2 1) [[9; 10; 11]; [9; 10; 11]] [[]; []]
  ∧ (1 ≤ 3)%nat
  ∧ percentages_ok (demoKernelPlayed 2 1)
  ∧ in_unit_interval (Ramp.frameAt 0 (depth_ (demoKernelPlayed 2 1))) = true
  ∧ calcDisplacement (demoKernelPlayed 2 1) 6 0.5 = (10 - 6) * 0.5
  ∧ ∃ s', renderBlock true 3
            (demoKernelPlayed 2 1, [[9; 10; 11]; [9; 10; 11]], [[]; []]) = Ok s'.
Proof.
  split; [exact demo_block_ok|]. split; [lia|]. split; [exact demo_percentages_ok|].
  split; [reflexivity|].
  destruct (displacement_formula true 3 (demoKernelPlayed 2 1)
              [[9; 10; 11]; [9; 10; 11]] [[]; []])
    as (Hformula & _ & _ & _ & s' & Hrun & _);
    [exact demo_block_ok|lia|exact demo_percentages_ok|reflexivity|].
  split; [apply Hformula|]. by exists s'.
Defined.

Lemma block_strategy_matches_per_sample_witness :
  isRamping (demoKernelPlayed 2 1) = false
  ∧ percentages_ok (demoKernelPlayed 2 1)
  ∧ renderBlock true 3 (demoKernelPlayed 2 1, [[9; 10; 11]; [9; 10; 11]], [[]; []])
    = perSampleStrategy 3 (demoKernelPlayed 2 1, [[9; 10; 11]; [9; 10; 11]], [[]; []]).
Proof.
  split; [reflexivity|]. split; [exact demo_percentages_ok|].
  destruct (block_strategy_matches_per_sample 3 (demoKernelPlayed 2 1)
              [[9; 10; 11]; [9; 10; 11]] [[]; []]) as [Heq _];
    [reflexivity|exact demo_percentages_ok|].
  exact Heq.
Defined.

Lemma read_before_unconditional_write_witness :
  block_ok 3 (demoKernelPlayed 2 1) [[9; 10; 11]; [9; 10; 11]] [[]; []]
  ∧ (1 ≤ 3)%nat
  ∧ percentages_ok (demoKernelPlayed 2 1)
  ∧ in_unit_interval (Ramp.frameAt 0 (depth_ (demoKernelPlayed 2 1))) = true
  ∧ isRamping (demoKernelPlayed 2 1) = false
  ∧ (∃ k' ins' outs',
       doRendering [[9; 10; 11]; [9; 10; 11]] [[]; []] 1 (demoKernelPlayed 2 1)
       = Ok (k', ins', outs')
       ∧ delayLines_ k' !! 0%nat = Some (write 9 demoHistory))
  ∧ (∃ k' ins' outs',
       renderFrame 6 0 true 1 0
         (demoKernelPlayed 2 1, [[9; 10; 11]; [9; 10; 11]], [[]; []])
       = Ok (k', ins', outs')
       ∧ delayLines_ k' !! 0%nat = Some (write 9 demoHistory)
       ∧ map Qred <$> outs' !! 0%nat = Some [read demoHistory 6])
  ∧ (∃ k' ins' outs',
       doRendering [[9; 10; 11]; [9; 10; 11]] [[]; []] 3 (demoKernelPlayed 2 1)
       = Ok (k', ins', outs')
       ∧ delayLines_ k' !! 0%nat = Some (write 11 (write 10 (write 9 demoHistory))))
  ∧ lfoCount_ (demoKernelPlayed 0 1) = 0%nat
  ∧ channels_ok (demoKernelPlayed 0 1) [[9]; [9]] [[]; []]
  ∧ (∃ k' ins' outs',
       writeSample_with (λ _ _ _ _, Ok 0) [[9]; [9]] [[]; []] true 1 0
         (demoKernelPlayed 0 1) = Ok (k', ins', outs')
       ∧ delayLines_ k' !! 0%nat = Some (write 9 demoHistory)).
Proof.
  split; [exact demo_block_ok|]. split; [lia|]. split; [exact demo_percentages_ok|].
  split; [reflexivity|]. split; [reflexivity|].
  destruct (read_before_unconditional_write 6 0 true 1 0 3 (demoKernelPlayed 2 1)
              [[9; 10; 11]; [9; 10; 11]] [[]; []])
    as (Hsample & Hframe & Hblock & _ & Hany);
    [exact demo_block_ok|lia|exact demo_percentages_ok|reflexivity|].
  assert (channels_ok (demoKernelPlayed 0 1) [[9]; [9]] [[]; []]) as Hch.
  { split; [vm_compute; lia|]. split; [vm_compute; lia|].
    intros [|[|channel]] buffer Hb; simpl in Hb; [| |discriminate];
      injection Hb as <-; discriminate. }
  split; [|split; [|split; [|split; [reflexivity|split; [exact Hch|]]]]].
  - destruct Hsample as (k' & ins' & outs' & Hrun & _ & Hchan).
    exists k', ins', outs'. split; [exact Hrun|].
    by destruct (Hchan 0%nat 9 [10; 11] demoHistory []) as (_ & Hline & _).
  - destruct Hframe as (k1 & k' & ins' & outs' & Hk1 & Hrun & _ & _ & Hchan).
    exists k', ins', outs'. split; [exact Hrun|].
    destruct (Hchan 0%nat 9 [10; 11] demoHistory []) as (Hout & Hline & _);
      [reflexivity|reflexivity|reflexivity|].
    split; [exact Hline|]. rewrite Hout.
    vm_compute in Hk1. injection Hk1 as <-. reflexivity.
  - destruct Hblock as (k' & ins' & outs' & Hrun & _ & Hlines);
      [reflexivity|lia|].
    exists k', ins', outs'. split; [exact Hrun|].
    by destruct (Hlines 0%nat [9; 10; 11] demoHistory) as [Hline _].
  - destruct (Hany (λ _ _ _ _, Ok 0) [[9]; [9]] [[]; []] (demoKernelPlayed 0 1))
      as (k' & ins' & outs' & Hrun & _ & Hchan); [by eexists|exact Hch|].
    exists k', ins', outs'. split; [exact Hrun|].
    by destruct (Hchan 0%nat 9 [] demoHistory) as [Hline _].
Defined.


Lemma parameter_round_trip_witness :
  legal ParameterAddressDepth 13.5
  ∧ getParameterValue ParameterAddressDepth
      (setRampedParameterValue ParameterAddressDepth 13.5 0 (demoKernel 2 1)) == 13.5.
Proof.
  assert (legal ParameterAddressDepth 13.5) as Hlegal.
  { split; by intros [=]. }
  split; [exact Hlegal|].
  destruct (parameter_round_trip ParameterAddressDepth 13.5 (demoKernel 2 1) Hlegal)
    as [Heq _].
  exact Heq.
Defined.

Lemma ramp_linear_monotone_exact_witness :
  remaining (settled 0) = 0%nat
  ∧ Ramp.frameAt 4 (set 1 4 (settled 0)) = 1
  ∧ Ramp.frameAt 1 (set 1 4 (settled 0)) <= Ramp.frameAt 2 (set 1 4 (settled 0)).
Proof.
  split; [reflexivity|].
  destruct (ramp_linear_monotone_exact (settled 0) 1 4) as (_ & Hup & _ & Hend & _);
    [reflexivity|].
  split.
  - apply Hend. lia.
  - apply Hup; [by intros [=]|lia].
Defined.

End Concrete.

(** * Further properties of the code *)

Section CoverageFacts.
Import DSPHeaders DSPHeaders.Parameters ChorusKernel Coverage.
Context {LFO DelayLine : Type} `{!LFOOps LFO} `{!DelayBufferOps DelayLine}.
Implicit Types k : Kernel LFO DelayLine.

(** What a successful run of the channel loop of [writeSample] implies for
    every channel it went through. *)
Lemma writeSample_loop_Ok wetMix dryMix count :
  ∀ start k (ins outs : BusBuffers) s',
    for_loop start count (writeSample_channel wetMix dryMix) (k, ins, outs) = Ok s' →
    ∀ c, (start ≤ c < start + count)%nat →
      (c < length (delayLines_ k))%nat ∧ (c < length outs)%nat
      ∧ (∃ inputSample rest, ins !! c = Some (inputSample :: rest)).
Proof.
  induction count as [|count IH]; intros start k ins outs s' Hrun c Hc; [lia|].
  simpl in Hrun. apply bind_Ok in Hrun as ([[k1 ins1] outs1] & Hstep & Hrun).
  unfold writeSample_channel in Hstep.
  apply bind_Ok in Hstep as ([x ins0] & Hread & Hstep).
  apply bind_Ok in Hstep as (dl & Hline & Hstep).
  apply bind_Ok in Hstep as (w & Hgen & Hstep).
  apply bind_Ok in Hstep as (o & Hwrite & [= <- <- <-]).
  unfold read_advance in Hread. apply bind_Ok in Hread as (buffer & Hbuf & Hread).
  destruct buffer as [|x' rest]; [done|]. injection Hread as -> <-.
  unfold write_advance in Hwrite. apply bind_Ok in Hwrite as (obuf & Hobuf & [= <-]).
  apply at_index_Ok in Hbuf, Hline, Hobuf.
  destruct (decide (c = start)) as [->|Hne].
  - split; [by eapply lookup_lt_Some|]. split; [by eapply lookup_lt_Some|]. eauto.
  - destruct (IH _ _ _ _ _ Hrun c) as (Hl & Ho & (y & r & Hin)); [lia|].
    cbn [delayLines_ with_delayLines] in Hl. rewrite length_insert in Hl.
    rewrite length_insert in Ho.
    rewrite list_lookup_insert_ne in Hin by lia.
    split; [done|]. split; [done|]. eauto.
Qed.

(** X2. [writeSample] indexes the delay lines and the output bus by the
    input channel without a check: it can only return when every input
    channel has a delay line, an output channel and a sample left. In
    particular rendering input on a kernel that has no delay lines yet is
    an out-of-bounds access at [delayLines_[0]]. *)
Theorem writeSample_needs_channels ins outs odd90 wetMix dryMix k :
  (∀ s', writeSample ins outs odd90 wetMix dryMix k = Ok s' → channels_ok k ins outs)
  ∧ (∀ inputSample rest others,
       delayLines_ k = [] → ins = (inputSample :: rest) :: others →
       writeSample ins outs odd90 wetMix dryMix k = Fault OutOfBounds).
Proof.
  split.
  - intros s' Hrun. unfold writeSample in Hrun.
    pose proof (writeSample_loop_Ok _ _ _ _ _ _ _ _ Hrun) as Hall.
    split; [|split].
    + destruct ins as [|b ins']; [simpl; lia|].
      destruct (Hall (length ins')) as (Hl & _); [simpl; lia|]. simpl. lia.
    + destruct ins as [|b ins']; [simpl; lia|].
      destruct (Hall (length ins')) as (_ & Ho & _); [simpl; lia|]. simpl. lia.
    + intros channel buffer Hb ->.
      destruct (Hall channel) as (_ & _ & (x & r & Hin)).
      { apply lookup_lt_Some in Hb. lia. }
      congruence.
  - intros x rest others Hlines ->. unfold writeSample. simpl.
    unfold writeSample_channel, read_advance. simpl. by rewrite Hlines.
Qed.

(** X3. [calcTaps] works on the active slots only: it does not fault on a
    kernel whose arrays are in bounds, leaves every oscillator and tap from
    index lfoCount on as it was, changes neither parameters, format nor
    delay lines, and with lfoCount = 0 it changes nothing at all. *)
Theorem calcTaps_leaves_inactive_slots nominalMs displacementMs odd90 k :
  arrays_ok k →
  ∃ k', calcTaps nominalMs displacementMs odd90 k = Ok k'
    ∧ (∀ index, (lfoCount_ k ≤ index)%nat →
         taps_ k' !! index = taps_ k !! index ∧ lfos_ k' !! index = lfos_ k !! index)
    ∧ settings k' = settings k ∧ delayLines_ k' = delayLines_ k
    ∧ sizes k' = sizes k
    ∧ (lfoCount_ k = 0%nat → k' = k).
Proof.
  intros Hok.
  destruct (calcTaps_lookup nominalMs displacementMs odd90 k Hok)
    as (k' & Hrun & Hsame & _ & Hinactive).
  exists k'. split; [done|]. split; [done|].
  split; [by eapply calcTaps_settings|].
  destruct Hsame as (_&_&_&_&_&_&_&_&_&Hd&Hl&Ht).
  split; [done|]. split; [unfold sizes; by rewrite Hd, Hl, Ht|].
  intros Hzero. unfold calcTaps in Hrun. rewrite Hzero in Hrun. simpl in Hrun.
  by injection Hrun as <-.
Qed.

(** X4. [writeSample] loops over the input channels only: on a frame that
    can be read and written it leaves the delay lines and the output
    channels from index ins.size() on as they were, and oscillators, taps
    and parameters altogether; with no input channel it changes nothing. *)
Theorem writeSample_only_input_channels ins outs odd90 wetMix dryMix k :
  channels_ok k ins outs →
  (1 ≤ lfoCount_ k)%nat → (lfoCount_ k ≤ length (taps_ k))%nat →
  ∃ k' ins' outs', writeSample ins outs odd90 wetMix dryMix k = Ok (k', ins', outs')
    ∧ (∀ channel, (length ins ≤ channel)%nat →
         delayLines_ k' !! channel = delayLines_ k !! channel
         ∧ outs' !! channel = outs !! channel)
    ∧ lfos_ k' = lfos_ k ∧ taps_ k' = taps_ k ∧ settings k' = settings k
    ∧ sizes k' = sizes k ∧ length outs' = length outs ∧ length ins' = length ins
    ∧ (ins = [] → (k', ins', outs') = (k, ins, outs)).
Proof.
  intros Hch Hone Htaps.
  destruct (writeSample_spec ins outs odd90 wetMix dryMix k Hch Hone Htaps)
    as ([[k' ins'] outs'] & Hrun & Hsame & Hli & Hlo & Hchan).
  exists k', ins', outs'. split; [done|]. cbn [fst snd] in *.
  destruct Hsame as (_&_&_&_&_&_&_&_&_&Hlf&Htp&Hll).
  split.
  { intros channel Hc. specialize (Hchan channel).
    rewrite bool_decide_false in Hchan by lia. by destruct Hchan as (_ & ? & ?). }
  split; [done|]. split; [done|].
  split; [exact (writeSample_settings _ _ _ _ _ _ _ Hrun)|].
  split; [unfold sizes; by rewrite Hlf, Htp, Hll|].
  split; [done|]. split; [done|].
  intros ->. unfold writeSample in Hrun. simpl in Hrun. by injection Hrun as <- <- <-.
Qed.

(** *** Identical oscillators *)

Lemma oscillators_identical_calcTaps nominalMs displacementMs odd90 k k' :
  arrays_ok k → oscillators_identical k →
  calcTaps nominalMs displacementMs odd90 k = Ok k' →
  oscillators_identical k' ∧ ∃ tap, taps_identical k' tap.
Proof.
  intros Hok [lfo Hlfo] Hrun.
  destruct (calcTaps_lookup nominalMs displacementMs odd90 k Hok)
    as (k'' & Hrun' & Hsame & Hactive & _).
  assert (k'' = k') as -> by congruence.
  assert (lfoCount_ k' = lfoCount_ k) as Hcnt by apply Hsame.
  split.
  - exists (increment lfo). intros index Hi. rewrite Hcnt in Hi.
    by destruct (Hactive index lfo Hi (Hlfo index Hi)).
  - exists (tapOf k lfo nominalMs displacementMs odd90). intros index Hi.
    rewrite Hcnt in Hi. by destruct (Hactive index lfo Hi (Hlfo index Hi)).
Qed.

Lemma oscillators_identical_same k k' :
  lfos_ k' = lfos_ k → lfoCount_ k' = lfoCount_ k →
  oscillators_identical k → oscillators_identical k'.
Proof. intros Hl Hc [lfo Hlfo]. exists lfo. intros index. rewrite Hl, Hc. apply Hlfo. Qed.

Lemma oscillators_identical_renderFrame nominal displacement odd90 wetMix dryMix s s' :
  renderFrame nominal displacement odd90 wetMix dryMix s = Ok s' →
  kernel_ok s.1.1 ∧ oscillators_identical s.1.1 →
  kernel_ok s'.1.1 ∧ oscillators_identical s'.1.1.
Proof.
  intros Hrun [Hok Hid]. split; [by eapply renderFrame_kernel_ok|].
  destruct s as [[k ins] outs]. unfold renderFrame in Hrun.
  apply bind_Ok in Hrun as (k1 & Hk1 & Hrun). cbn [fst snd] in *.
  destruct (oscillators_identical_calcTaps _ _ _ _ _ (proj1 Hok) Hid Hk1) as [Hid1 _].
  pose proof (writeSample_settings _ _ _ _ _ _ _ Hrun) as Hset.
  apply writeSample_arrays in Hrun as [Hl _].
  injection Hset as _ _ _ _ _ _ Hcnt _ _.
  by apply (oscillators_identical_same k1).
Qed.

Lemma oscillators_identical_renderSample odd90 k ins outs s' :
  renderSample odd90 (k, ins, outs) = Ok s' →
  arrays_ok k → oscillators_identical k → oscillators_identical s'.1.1.
Proof.
  intros Hrun Hok Hid. unfold renderSample in Hrun.
  destruct (MillisecondsParameter.frameValue (delay_ k)) as [nominal delay'].
  cbn [depth_ with_delay] in Hrun.
  destruct (PercentageParameter.frameValue (depth_ k)) as [frac depth'].
  apply bind_Ok in Hrun as (_ & _ & Hrun).
  apply bind_Ok in Hrun as (k1 & Hk1 & Hrun).
  destruct (oscillators_identical_calcTaps _ _ _
              (with_depth depth' (with_delay delay' k)) _ Hok Hid Hk1) as [Hid1 _].
  destruct (PercentageParameter.frameValue (wetMix_ k1)) as [wetMix wetP].
  cbn [dryMix_ with_wetMix] in Hrun.
  destruct (PercentageParameter.frameValue (dryMix_ k1)) as [dryMix dryP].
  pose proof (writeSample_settings _ _ _ _ _ _ _ Hrun) as Hset.
  apply writeSample_arrays in Hrun as [Hl _].
  injection Hset as _ _ _ _ _ _ Hcnt _ _.
  by apply (oscillators_identical_same k1).
Qed.

Lemma reachable_oscillators_identical k : reachable k → oscillators_identical k.
Proof.
  induction 1 as [newLFO lfoCount k Hk|c sr md k Hr IH|address v d k Hr IH
                  |rendering k Hr IH|ins outs n k k' ins' outs' Hr IH Hrun].
  - unfold construct, assert in Hk. case_bool_decide as Hle; [|done].
    injection Hk as <-. exists newLFO. intros index Hi.
    cbn [lfos_ lfoCount_ members] in *.
    apply lookup_replicate. split; [done|lia].
  - destruct IH as [lfo Hlfo].
    destruct (reachable_kernel_ok k Hr) as ((Hl & _ & Hc) & _).
    eexists. intros index Hi. cbn [lfoCount_ initialize with_delayLines with_lfos
                                   with_format] in Hi.
    by apply initialize_lfo; [|apply Hlfo].
  - destruct IH as [lfo Hlfo]. destruct address; try (by exists lfo).
    exists (setFrequency v d lfo). intros index Hi. cbn in *.
    by rewrite list_lookup_fmap, (Hlfo index Hi).
  - destruct rendering; [done|]. destruct IH as [lfo Hlfo]. by exists lfo.
  - pose proof (reachable_kernel_ok k Hr) as Hok.
    unfold doRendering in Hrun. destruct (isRamping k || Nat.eqb n 1).
    + apply bind_Ok in Hrun as (_ & _ & Hrun).
      exact (oscillators_identical_renderSample _ _ _ _ _ Hrun (proj1 Hok) IH).
    + unfold renderBlock in Hrun.
      apply bind_Ok in Hrun as (_ & _ & Hrun).
      apply bind_Ok in Hrun as (_ & _ & Hrun).
      apply bind_Ok in Hrun as (_ & _ & Hrun).
      eapply (repeat_loop_preserves
                (λ t : Kernel LFO DelayLine * BusBuffers * BusBuffers,
                   kernel_ok t.1.1 ∧ oscillators_identical t.1.1)) in Hrun;
        [exact (proj2 Hrun)| |by split].
      intros t t' Ht. by eapply oscillators_identical_renderFrame.
Qed.

(** X5. The oscillators of the kernel never separate: in every kernel the
    operations of the class produce (construction, [initialize], parameter
    changes, rendering-state notifications, rendering) the active
    oscillators are all in the same state, and after [calcTaps] the active
    taps are all the same pair. ([initialize] gives every oscillator the
    phase [index / 50 = 0] and every later operation treats them alike.) *)
Theorem oscillators_never_separate k :
  reachable k →
  oscillators_identical k
  ∧ ∀ nominalMs displacementMs odd90,
      ∃ k' lfo,
        calcTaps nominalMs displacementMs odd90 k = Ok k'
        ∧ (∀ index, (index < lfoCount_ k)%nat → lfos_ k !! index = Some lfo)
        ∧ taps_identical k' (tapOf k lfo nominalMs displacementMs odd90)
        ∧ oscillators_identical k'.
Proof.
  intros Hr. pose proof (reachable_oscillators_identical k Hr) as Hid.
  split; [done|]. intros nominalMs displacementMs odd90.
  destruct (reachable_kernel_ok k Hr) as (Hok & _).
  destruct Hid as [lfo Hlfo].
  destruct (calcTaps_lookup nominalMs displacementMs odd90 k Hok)
    as (k' & Hrun & Hsame & Hactive & _).
  assert (lfoCount_ k' = lfoCount_ k) as Hcnt by apply Hsame.
  exists k', lfo. split; [done|]. split; [done|]. split.
  - intros index Hi. rewrite Hcnt in Hi.
    by destruct (Hactive index lfo Hi (Hlfo index Hi)).
  - exists (increment lfo). intros index Hi. rewrite Hcnt in Hi.
    by destruct (Hactive index lfo Hi (Hlfo index Hi)).
Qed.

Lemma readSum_repeated k (delayLine : DelayLine) (isEven : bool) (tap : Q * Q) n :
  (n ≤ length (taps_ k))%nat →
  (∀ index, (index < n)%nat → taps_ k !! index = Some tap) →
  foldl (λ output t, (output + read delayLine (if isEven then t.1 else t.2))%Q)
    0%Q (take n (taps_ k))
  = Nat.iter n
      (λ output, (output + read delayLine (if isEven then tap.1 else tap.2))%Q) 0%Q.
Proof.
  intros Hlen Hall. induction n as [|n IH]; [done|].
  rewrite (take_S_r _ _ tap) by (apply Hall; lia).
  rewrite foldl_app. cbn [foldl Nat.iter nat_rect].
  rewrite IH by (lia || (intros; apply Hall; lia)). reflexivity.
Qed.

(** X6. When the active taps are all the same pair, every one of the
    lfoCount reads [generate] makes is the same read of the delay line: the
    value it returns is that one sample added lfoCount times to 0, one
    addition after the other as the loop makes them, divided by lfoCount.
    With X5 this is the wet sample of every kernel the class produces: the
    oscillators do not contribute different reads. *)
Theorem generate_identical_taps k inputSample (delayLine : DelayLine) isEven tap :
  (1 ≤ lfoCount_ k)%nat → (lfoCount_ k ≤ length (taps_ k))%nat →
  taps_identical k tap →
  generate k inputSample delayLine isEven
  = Ok (Nat.iter (lfoCount_ k)
          (λ output, output + read delayLine (if isEven then tap.1 else tap.2)) 0
        / inject_Z (Z.of_nat (lfoCount_ k)))%Q.
Proof.
  intros Hone Hlen Hall. rewrite generate_eq by done. unfold readSum.
  rewrite (readSum_repeated k delayLine isEven tap (lfoCount_ k) Hlen Hall).
  unfold div_count. destruct (lfoCount_ k); [lia|done].
Qed.

(** *** What a block consumes and produces *)

Lemma frames_produced_step nominal displacement odd90 wetMix dryMix n k ins outs j s' :
  block_ok n k ins outs → (j < n)%nat →
  frames_done nominal displacement odd90 k ins outs j s' →
  frames_produced wetMix dryMix ins outs j s' →
  ∃ s'', renderFrame nominal displacement odd90 wetMix dryMix s' = Ok s''
    ∧ frames_done nominal displacement odd90 k ins outs (Datatypes.S j) s''
    ∧ frames_produced wetMix dryMix ins outs (Datatypes.S j) s''.
Proof.
  intros Hblock Hj Hdone Hprod.
  destruct (frames_done_step nominal displacement odd90 wetMix dryMix n k ins outs j s'
              Hblock Hj Hdone) as (s'' & Hrun & Hdone').
  exists s''. split; [done|]. split; [done|].
  destruct (frames_done_ready _ _ _ _ _ _ _ _ _ Hblock Hj Hdone) as (Hok' & Hone' & Hch').
  destruct s' as [[k' ins'] outs']. cbn [fst snd] in *.
  destruct (renderFrame_spec nominal displacement odd90 wetMix dryMix k' ins' outs'
              Hok' Hone' Hch') as (k1 & s2 & Hk1 & Hrun2 & Htaps & Hw).
  assert (s2 = s'') as -> by congruence.
  destruct Hw as (_ & _ & _ & Hchan).
  destruct Htaps as [Hsame1 _].
  assert (delayLines_ k1 = delayLines_ k') as Hd1 by apply Hsame1.
  destruct Hdone as (_ & Hli & _ & _ & Hins).
  intros channel inBuffer outBuffer Hin Hout.
  destruct (Hprod channel inBuffer outBuffer Hin Hout) as (samples & Hs & Hlen & Hpass).
  cbn [fst snd] in *.
  pose proof (Hins channel inBuffer Hin) as Hcur.
  assert (channel < length ins)%nat as Hlt by (by eapply lookup_lt_Some).
  destruct Hblock as (_ & _ & Hlines & _ & Hsamples).
  pose proof (Hsamples channel inBuffer Hin) as Hn.
  destruct (drop j inBuffer) as [|inputSample rest] eqn:Hdrop.
  { apply (f_equal length) in Hdrop. rewrite length_drop in Hdrop. simpl in Hdrop. lia. }
  destruct (lookup_lt_is_Some_2 (delayLines_ k1) channel) as [delayLine Hline].
  { rewrite Hd1. destruct Hch' as (Hc1 & _). cbn [fst snd] in Hc1. lia. }
  specialize (Hchan channel). rewrite bool_decide_true in Hchan by lia.
  destruct (Hchan inputSample rest delayLine (outBuffer ++ samples) Hcur Hline Hs)
    as (w & _ & _ & _ & Hout').
  exists (samples ++ [(wetMix * w + dryMix * inputSample)%Q]).
  split; [by rewrite Hout', <- app_assoc|]. split; [rewrite length_app; simpl; lia|].
  intros Hwet Hdry.
  rewrite (take_S_r _ _ inputSample) by (by eapply drop_cons_lookup).
  apply Forall2_app; [by apply Hpass|]. constructor; [|constructor].
  rewrite Hwet, Hdry. ring.
Qed.

Lemma renderFrames_produced nominal displacement odd90 wetMix dryMix n k ins outs :
  block_ok n k ins outs →
  ∃ s', repeat_loop n (renderFrame nominal displacement odd90 wetMix dryMix) (k, ins, outs)
        = Ok s'
    ∧ frames_done nominal displacement odd90 k ins outs n s'
    ∧ frames_produced wetMix dryMix ins outs n s'.
Proof.
  intros Hblock.
  apply (repeat_loop_inv
           (λ j t, frames_done nominal displacement odd90 k ins outs j t
                   ∧ frames_produced wetMix dryMix ins outs j t)).
  - split; [apply frames_done_start|].
    intros channel inBuffer outBuffer Hin Hout. exists []. cbn [fst snd].
    rewrite app_nil_r. split; [done|]. split; [done|]. intros _ _.
    rewrite take_0. constructor.
  - intros j t Hj [Hdone Hprod]. by eapply frames_produced_step.
Qed.

(** X7. The per-block branch of [doRendering] on a block that can be
    rendered returns, having consumed exactly [frameCount] samples of every
    input channel and appended exactly [frameCount] samples to the matching
    output channel; the parameters, the format and the sizes of the
    containers are as before, and every active oscillator was incremented
    [frameCount] times. *)
Theorem renderBlock_consumes_and_produces odd90 frameCount k ins outs :
  block_ok frameCount k ins outs → percentages_ok k →
  ∃ k' ins' outs',
    renderBlock odd90 frameCount (k, ins, outs) = Ok (k', ins', outs')
    ∧ (∀ channel buffer, ins !! channel = Some buffer →
         ins' !! channel = Some (drop frameCount buffer))
    ∧ (∀ channel inBuffer outBuffer,
         ins !! channel = Some inBuffer → outs !! channel = Some outBuffer →
         ∃ samples, outs' !! channel = Some (outBuffer ++ samples)
                    ∧ length samples = frameCount)
    ∧ length ins' = length ins ∧ length outs' = length outs
    ∧ settings k' = settings k ∧ sizes k' = sizes k
    ∧ (∀ index lfo, (index < lfoCount_ k)%nat → lfos_ k !! index = Some lfo →
         lfos_ k' !! index = Some (Nat.iter frameCount increment lfo)).
Proof.
  intros Hblock (Hdepth & Hwet & Hdry). unfold renderBlock.
  rewrite Hdepth, Hwet, Hdry. cbn [assert mbind result_bind].
  destruct (renderFrames_produced (MillisecondsParameter.get (delay_ k))
              (calcDisplacement k (MillisecondsParameter.get (delay_ k))
                 (PercentageParameter.normalized (depth_ k)))
              odd90 (PercentageParameter.normalized (wetMix_ k))
              (PercentageParameter.normalized (dryMix_ k)) frameCount k ins outs Hblock)
    as ([[k' ins'] outs'] & Hrun & Hdone & Hprod).
  exists k', ins', outs'. split; [done|].
  destruct Hdone as (Hset & Hli & Hlo & Hosc & Hins). cbn [fst snd] in *.
  split; [done|]. split.
  { intros channel inBuffer outBuffer Hin Hout.
    destruct (Hprod channel inBuffer outBuffer Hin Hout) as (samples & ? & ? & _).
    by exists samples. }
  split; [done|]. split; [done|].
  destruct Hset as (Hr&Hde&Hdl&Hdr&Hw&Ho&Hcnt&Hspm&Hmax&Hll&Htl&Hdll).
  split; [unfold settings; by rewrite Hr, Hde, Hdl, Hdr, Hw, Ho, Hcnt, Hspm, Hmax|].
  split; [unfold sizes; by rewrite Hll, Htl, Hdll|].
  intros index lfo Hi Hlfo. by destruct (Hosc index lfo Hi Hlfo).
Qed.


(** *** Which state rendering advances *)

Lemma calcTaps_delayLines nominal displacement odd90 k k' :
  calcTaps nominal displacement odd90 k = Ok k' → delayLines_ k' = delayLines_ k.
Proof.
  intros Hrun.
  eapply (for_loop_preserves (λ t, delayLines_ t = delayLines_ k)); [|exact Hrun|done].
  intros i t t' Hstep Ht. unfold calcTaps_index in Hstep.
  apply bind_Ok in Hstep as (lfo & _ & Hstep).
  destruct (calcTap t lfo nominal displacement odd90) as [tap lfo'].
  apply bind_Ok in Hstep as (taps & _ & [= <-]). exact Ht.
Qed.

Lemma writeSample_lengths ins outs odd90 wetMix dryMix k s' :
  writeSample ins outs odd90 wetMix dryMix k = Ok s' →
  length (delayLines_ s'.1.1) = length (delayLines_ k)
  ∧ length s'.1.2 = length ins ∧ length s'.2 = length outs.
Proof.
  intros Hrun.
  eapply (for_loop_preserves
            (λ t : Kernel LFO DelayLine * BusBuffers * BusBuffers,
               length (delayLines_ t.1.1) = length (delayLines_ k)
               ∧ length t.1.2 = length ins ∧ length t.2 = length outs));
    [|exact Hrun|done].
  intros i [[t tin] tout] t' Hstep (Hd & Hi & Ho). unfold writeSample_channel in Hstep.
  apply bind_Ok in Hstep as ([x tin'] & Hread & Hstep).
  apply bind_Ok in Hstep as (dl & _ & Hstep).
  apply bind_Ok in Hstep as (w & _ & Hstep).
  apply bind_Ok in Hstep as (o & Hwrite & [= <-]).
  unfold read_advance in Hread. apply bind_Ok in Hread as (buffer & _ & Hread).
  destruct buffer as [|y rest]; [done|]. injection Hread as _ <-.
  unfold write_advance in Hwrite. apply bind_Ok in Hwrite as (obuf & _ & [= <-]).
  cbn [fst snd delayLines_ with_delayLines] in *. by rewrite !length_insert.
Qed.

Lemma renderFrame_sizes nominal displacement odd90 wetMix dryMix k ins outs s' :
  renderFrame nominal displacement odd90 wetMix dryMix (k, ins, outs) = Ok s' →
  settings s'.1.1 = settings k ∧ sizes s'.1.1 = sizes k
  ∧ length s'.1.2 = length ins ∧ length s'.2 = length outs.
Proof.
  intros Hrun. pose proof (renderFrame_settings _ _ _ _ _ _ _ Hrun) as Hset.
  unfold renderFrame in Hrun. apply bind_Ok in Hrun as (k1 & Hk1 & Hrun).
  pose proof (calcTaps_delayLines _ _ _ _ _ Hk1) as Hd.
  apply calcTaps_lengths in Hk1 as [Hl Ht].
  pose proof (writeSample_lengths _ _ _ _ _ _ _ Hrun) as (Hd' & Hi & Ho).
  apply writeSample_arrays in Hrun as [Hl' Ht'].
  split; [done|]. split; [|done]. unfold sizes. by rewrite Hl', Ht', Hd', Hl, Ht, Hd.
Qed.

(** What one frame of the per-sample branch does to the kernel: the delay,
    depth, wet-mix and dry-mix parameters are each advanced by one
    [frameValue()], nothing else of the settings changes. *)
Lemma renderSample_parameters odd90 k ins outs s' :
  renderSample odd90 (k, ins, outs) = Ok s' →
  delay_ s'.1.1 = (frameValue (delay_ k)).2
  ∧ depth_ s'.1.1 = (frameValue (depth_ k)).2
  ∧ wetMix_ s'.1.1 = (frameValue (wetMix_ k)).2
  ∧ dryMix_ s'.1.1 = (frameValue (dryMix_ k)).2
  ∧ rate_ s'.1.1 = rate_ k ∧ odd90_ s'.1.1 = odd90_ k
  ∧ lfoCount_ s'.1.1 = lfoCount_ k
  ∧ samplesPerMillisecond_ s'.1.1 = samplesPerMillisecond_ k
  ∧ maxDelayMilliseconds_ s'.1.1 = maxDelayMilliseconds_ k
  ∧ sizes s'.1.1 = sizes k
  ∧ length s'.1.2 = length ins ∧ length s'.2 = length outs.
Proof.
  intros Hrun. unfold renderSample in Hrun.
  unfold MillisecondsParameter.frameValue, PercentageParameter.frameValue in Hrun.
  destruct (frameValue (delay_ k)) as [nominal delay'].
  cbn [depth_ with_delay] in Hrun.
  destruct (frameValue (depth_ k)) as [frac depth'].
  apply bind_Ok in Hrun as (_ & _ & Hrun).
  apply bind_Ok in Hrun as (k1 & Hk1 & Hrun).
  pose proof (calcTaps_settings _ _ _ _ _ Hk1) as Hset.
  pose proof (calcTaps_delayLines _ _ _ _ _ Hk1) as Hd.
  apply calcTaps_lengths in Hk1 as [Hl Ht].
  injection Hset as Hr1 Hde1 Hdl1 Hdr1 Hw1 Ho1 Hcnt1 Hspm1 Hmax1.
  cbn [rate_ depth_ delay_ dryMix_ wetMix_ odd90_ lfoCount_ samplesPerMillisecond_
       maxDelayMilliseconds_ lfos_ taps_ delayLines_ with_depth with_delay] in *.
  destruct (frameValue (wetMix_ k1)) as [wetMix wetP] eqn:Hwet.
  cbn [dryMix_ with_wetMix] in Hrun.
  destruct (frameValue (dryMix_ k1)) as [dryMix dryP] eqn:Hdry.
  pose proof (writeSample_settings _ _ _ _ _ _ _ Hrun) as Hset'.
  pose proof (writeSample_lengths _ _ _ _ _ _ _ Hrun) as (Hd' & Hi & Ho').
  apply writeSample_arrays in Hrun as [Hl' Ht'].
  injection Hset' as Hr' Hde' Hdl' Hdr' Hw' Hod' Hcnt' Hspm' Hmax'.
  cbn [rate_ depth_ delay_ dryMix_ wetMix_ odd90_ lfoCount_ samplesPerMillisecond_
       maxDelayMilliseconds_ lfos_ taps_ delayLines_ with_dryMix with_wetMix] in *.
  rewrite <- Hw1, Hwet. rewrite <- Hdr1, Hdry. cbn [snd].
  unfold sizes. rewrite Hl', Ht', Hd', Hl, Ht, Hd.
  repeat split; congruence.
Qed.

Lemma advance_succ_l n (p : RampingParameter) :
  Ramp.advance n (frameValue p).2 = Ramp.advance (Datatypes.S n) p.
Proof.
  replace (Datatypes.S n) with (n + 1)%nat by lia. by rewrite advance_add.
Qed.

(** X9. Rendering a block one frame at a time advances the ramps frame by
    frame: when [frameCount] successive one-frame calls of [doRendering]
    return, each of the delay, depth, wet-mix and dry-mix parameters has
    been advanced by exactly [frameCount] calls of [frameValue()], while the
    rate and odd90 parameters, the format and the sizes of the containers
    are as before -- rendering never advances the rate parameter. *)
Theorem per_sample_rendering_advances_ramps frameCount k ins outs k' ins' outs' :
  perSampleStrategy frameCount (k, ins, outs) = Ok (k', ins', outs') →
  delay_ k' = Ramp.advance frameCount (delay_ k)
  ∧ depth_ k' = Ramp.advance frameCount (depth_ k)
  ∧ wetMix_ k' = Ramp.advance frameCount (wetMix_ k)
  ∧ dryMix_ k' = Ramp.advance frameCount (dryMix_ k)
  ∧ rate_ k' = rate_ k ∧ odd90_ k' = odd90_ k
  ∧ lfoCount_ k' = lfoCount_ k
  ∧ samplesPerMillisecond_ k' = samplesPerMillisecond_ k
  ∧ maxDelayMilliseconds_ k' = maxDelayMilliseconds_ k
  ∧ sizes k' = sizes k.
Proof.
  unfold perSampleStrategy. revert k ins outs.
  induction frameCount as [|n IH]; intros k ins outs Hrun; simpl in Hrun.
  - injection Hrun as <- <- <-. by repeat split.
  - apply bind_Ok in Hrun as ([[k1 ins1] outs1] & Hstep & Hrun).
    unfold doRendering in Hstep. rewrite orb_true_r in Hstep.
    apply bind_Ok in Hstep as (_ & _ & Hstep).
    apply renderSample_parameters in Hstep
      as (Hdl & Hde & Hw & Hdr & Hr & Ho & Hc & Hs & Hm & Hz & _). cbn [fst snd] in *.
    destruct (IH _ _ _ Hrun) as (Hdl' & Hde' & Hw' & Hdr' & Hr' & Ho' & Hc' & Hs' & Hm' & Hz').
    rewrite Hdl', Hde', Hw', Hdr', Hdl, Hde, Hw, Hdr, !advance_succ_l.
    repeat split; congruence.
Qed.

(** X10. [doRendering] keeps the shape of the kernel: whenever it returns,
    for any frame count and either branch, the rate and odd90 parameters,
    the oscillator count, the format, the sizes of the three containers and
    the number of channels of both buses are as before; in the per-block
    branch the other four parameters are unchanged as well. *)
Theorem doRendering_keeps_shape ins outs frameCount k k' ins' outs' :
  doRendering ins outs frameCount k = Ok (k', ins', outs') →
  rate_ k' = rate_ k ∧ odd90_ k' = odd90_ k
  ∧ lfoCount_ k' = lfoCount_ k
  ∧ samplesPerMillisecond_ k' = samplesPerMillisecond_ k
  ∧ maxDelayMilliseconds_ k' = maxDelayMilliseconds_ k
  ∧ sizes k' = sizes k
  ∧ length ins' = length ins ∧ length outs' = length outs
  ∧ (isRamping k = false → frameCount ≠ 1%nat → settings k' = settings k).
Proof.
  intros Hrun. unfold doRendering in Hrun.
  destruct (isRamping k || Nat.eqb frameCount 1) eqn:Hbranch.
  - apply bind_Ok in Hrun as (_ & _ & Hrun).
    apply renderSample_parameters in Hrun
      as (_ & _ & _ & _ & Hr & Ho & Hc & Hs & Hm & Hz & Hi & Hou). cbn [fst snd] in *.
    repeat (split; [done|]). intros Hramp Hne. rewrite Hramp in Hbranch.
    apply Nat.eqb_eq in Hbranch. done.
  - unfold renderBlock in Hrun.
    apply bind_Ok in Hrun as (_ & _ & Hrun).
    apply bind_Ok in Hrun as (_ & _ & Hrun).
    apply bind_Ok in Hrun as (_ & _ & Hrun).
    eapply (repeat_loop_preserves
              (λ t : Kernel LFO DelayLine * BusBuffers * BusBuffers,
                 settings t.1.1 = settings k ∧ sizes t.1.1 = sizes k
                 ∧ length t.1.2 = length ins ∧ length t.2 = length outs)) in Hrun.
    + destruct Hrun as (Hset & Hz & Hi & Ho). cbn [fst snd] in *.
      pose proof Hset as Hall. injection Hset as Hr _ _ _ _ Hod Hc Hs Hm.
      by repeat (split; [done|]).
    + intros [[t tin] tout] t' Ht (Hset & Hz & Hi & Ho).
      apply renderFrame_sizes in Ht as (Hset' & Hz' & Hi' & Ho'). cbn [fst snd] in *.
      repeat split; congruence.
    + done.
Qed.

End CoverageFacts.

(** ** The single-oscillator listings, continued *)

Section SingleOscillatorCoverage.
Import DSPHeaders DSPHeaders.Parameters SingleOscillator.
Context {LFO DelayLine : Type} `{!LFOOps LFO} `{!DelayBufferOps DelayLine}.
Implicit Types k : Kernel LFO DelayLine.

Lemma result_bind_Ok_r {A} (m : result A) : m ≫= (λ a, Ok a) = m.
Proof. by destruct m. Qed.

(** X12. [unnamed/part_001]: a frame rendered with displacement zero does
    not touch the delay lines at all -- they are not even indexed, so the
    frame returns on a kernel without delay lines -- and outputs
    wetMix * input + dryMix * input on every channel; the oscillator is
    still incremented once. Input arriving while the depth is zero is thus
    never recorded in the delay lines. *)
Theorem part_001_frame_zero_displacement odd90 tap displacement wetMix dryMix k
    (ins outs : ChorusKernel.BusBuffers) :
  (displacement == 0)%Q →
  (length ins ≤ length outs)%nat →
  (∀ channel buffer, ins !! channel = Some buffer → buffer ≠ []) →
  ∃ ins' outs',
    part_001_frame odd90 tap displacement wetMix dryMix (k, ins, outs)
    = Ok (with_lfo (increment (lfo_ k)) k, ins', outs')
    ∧ delayLines_ (with_lfo (increment (lfo_ k)) k) = delayLines_ k
    ∧ ∀ channel inputSample rest buffer,
        ins !! channel = Some (inputSample :: rest) → outs !! channel = Some buffer →
        ins' !! channel = Some rest
        ∧ outs' !! channel
          = Some (buffer ++ [(wetMix * inputSample + dryMix * inputSample)%Q]).
Proof.
  intros Hzero Hlen Hnonempty. unfold part_001_frame.
  set (k0 := with_lfo (increment (lfo_ k)) k).
  set (body := part_001_channel odd90 displacement
                 (value (lfo_ k) * displacement + tap)%Q
                 (quadPhaseValue (lfo_ k) * displacement + tap)%Q wetMix dryMix).
  destruct (for_loop_inv
    (λ c (t : Kernel LFO DelayLine * ChorusKernel.BusBuffers * ChorusKernel.BusBuffers),
       t.1.1 = k0 ∧ length t.1.2 = length ins ∧ length t.2 = length outs
       ∧ ∀ channel,
           if bool_decide (channel < c)%nat
           then ∀ inputSample rest buffer,
                  ins !! channel = Some (inputSample :: rest) →
                  outs !! channel = Some buffer →
                  t.1.2 !! channel = Some rest
                  ∧ t.2 !! channel
                    = Some (buffer ++ [(wetMix * inputSample + dryMix * inputSample)%Q])
           else t.1.2 !! channel = ins !! channel ∧ t.2 !! channel = outs !! channel)
    body (length ins) 0%nat (k0, ins, outs)) as ([[k' ins'] outs'] & Hrun & Hk & _ & _ & Hchan).
  - split; [done|]. split; [done|]. split; [done|].
    intros channel. by rewrite bool_decide_false by lia.
  - intros c [[t tin] tout] Hc (Ht & Hli & Hlo & Hchan). cbn [fst snd] in *. subst t.
    pose proof (Hchan c) as Hcur. rewrite bool_decide_false in Hcur by lia.
    destruct Hcur as [Hin Hout].
    destruct (lookup_lt_is_Some_2 ins c) as [buffer Hbuffer]; [lia|].
    destruct buffer as [|inputSample rest]; [by destruct (Hnonempty c [])|].
    destruct (lookup_lt_is_Some_2 outs c) as [obuf Hobuf]; [lia|].
    eexists. split.
    { unfold body. apply part_001_channel_zero; [done| |].
      - by rewrite Hin.
      - by rewrite Hout. }
    cbn [fst snd]. split; [done|]. split; [by rewrite length_insert|].
    split; [by rewrite length_insert|].
    intros channel. specialize (Hchan channel).
    destruct (decide (channel = c)) as [->|Hne].
    + rewrite bool_decide_true by lia. intros x r b Hx Hb.
      assert (x = inputSample ∧ r = rest) as [-> ->] by (split; congruence).
      assert (b = obuf) as -> by congruence.
      by rewrite !list_lookup_insert_eq by lia.
    + destruct (decide (channel < c)%nat).
      * rewrite bool_decide_true in Hchan by done. rewrite bool_decide_true by lia.
        intros x r b Hx Hb. rewrite !list_lookup_insert_ne by done. by apply Hchan.
      * rewrite bool_decide_false in Hchan by done. rewrite bool_decide_false by lia.
        by rewrite !list_lookup_insert_ne.
  - cbn [fst snd] in *. subst k'. exists ins', outs'. split; [done|]. split; [done|].
    intros channel x r b Hx Hb. specialize (Hchan channel).
    rewrite bool_decide_true in Hchan by (apply lookup_lt_Some in Hx; lia).
    by apply Hchan.
Qed.

(** *** Which state the single-oscillator listings advance *)

Lemma frameValues_Ok k tap frac wetMix dryMix k' :
  frameValues k = Ok (tap, frac, wetMix, dryMix, k') →
  k' = with_parameters (frameValue (delay_ k)).2 (frameValue (depth_ k)).2
         (frameValue (wetMix_ k)).2 (frameValue (dryMix_ k)).2 k.
Proof.
  unfold frameValues, MillisecondsParameter.frameValue, PercentageParameter.frameValue.
  destruct (frameValue (delay_ k)) as [t d].
  destruct (frameValue (depth_ k)) as [f de]. intros Hrun.
  apply bind_Ok in Hrun as (_ & _ & Hrun).
  destruct (frameValue (wetMix_ k)) as [w wp].
  apply bind_Ok in Hrun as (_ & _ & Hrun).
  destruct (frameValue (dryMix_ k)) as [y yp].
  apply bind_Ok in Hrun as (_ & _ & Hrun). by injection Hrun as _ _ _ _ <-.
Qed.

Lemma hpp_channels_core odd90 evenTap oddTap wetMix dryMix count :
  ∀ start (s s' : Kernel LFO DelayLine * ChorusKernel.BusBuffers * ChorusKernel.BusBuffers),
    for_loop start count (hpp_channel odd90 evenTap oddTap wetMix dryMix) s = Ok s' →
    Coverage.core s'.1.1 = Coverage.core s.1.1.
Proof.
  intros start s s' Hrun.
  eapply (for_loop_preserves
            (λ t : Kernel LFO DelayLine * ChorusKernel.BusBuffers * ChorusKernel.BusBuffers,
               Coverage.core t.1.1 = Coverage.core s.1.1)); [|exact Hrun|done].
  intros i [[t tin] tout] t' Hstep Ht. unfold hpp_channel in Hstep.
  apply bind_Ok in Hstep as ([x tin'] & _ & Hstep).
  apply bind_Ok in Hstep as (dl & _ & Hstep).
  apply bind_Ok in Hstep as (o & _ & [= <-]). exact Ht.
Qed.

Lemma part_001_channels_core odd90 displacement evenDelay oddDelay wetMix dryMix count :
  ∀ start (s s' : Kernel LFO DelayLine * ChorusKernel.BusBuffers * ChorusKernel.BusBuffers),
    for_loop start count
      (part_001_channel odd90 displacement evenDelay oddDelay wetMix dryMix) s = Ok s' →
    Coverage.core s'.1.1 = Coverage.core s.1.1.
Proof.
  intros start s s' Hrun.
  eapply (for_loop_preserves
            (λ t : Kernel LFO DelayLine * ChorusKernel.BusBuffers * ChorusKernel.BusBuffers,
               Coverage.core t.1.1 = Coverage.core s.1.1)); [|exact Hrun|done].
  intros i [[t tin] tout] t' Hstep Ht. unfold part_001_channel in Hstep.
  apply bind_Ok in Hstep as ([x tin'] & _ & Hstep).
  apply bind_Ok in Hstep as ([d t1] & Hmid & Hstep).
  apply bind_Ok in Hstep as (o & _ & [= <-]). cbn [fst snd] in *.
  destruct (negb (Qeq_bool displacement 0)).
  - apply bind_Ok in Hmid as (dl & _ & [= _ <-]). exact Ht.
  - injection Hmid as _ <-. exact Ht.
Qed.

Lemma hpp_frame_core odd90 k ins outs s' :
  hpp_frame odd90 (k, ins, outs) = Ok s' →
  Coverage.core s'.1.1
  = (rate_ k, (frameValue (depth_ k)).2, (frameValue (delay_ k)).2,
     (frameValue (dryMix_ k)).2, (frameValue (wetMix_ k)).2, odd90_ k,
     samplesPerMillisecond_ k, increment (lfo_ k), rampRemaining_ k).
Proof.
  unfold hpp_frame. intros Hrun.
  apply bind_Ok in Hrun as ([[[[tap frac] wetMix] dryMix] k1] & Hvalues & Hrun).
  apply frameValues_Ok in Hvalues as ->.
  apply hpp_channels_core in Hrun. rewrite Hrun. reflexivity.
Qed.

(** X13. [Sources/Kernel/C++/Kernel.hpp]: [doRendering] advances the
    parameters and the oscillator once per frame. When a block of
    [frameCount] frames returns, each of the delay, depth, wet-mix and
    dry-mix parameters has been advanced by [frameCount] calls of
    [frameValue()] and the oscillator has been incremented [frameCount]
    times; the rate and odd90 parameters are as before. *)
Theorem hpp_doRendering_advances_per_frame ins outs frameCount k k' ins' outs' :
  hpp_doRendering ins outs frameCount k = Ok (k', ins', outs') →
  delay_ k' = Ramp.advance frameCount (delay_ k)
  ∧ depth_ k' = Ramp.advance frameCount (depth_ k)
  ∧ wetMix_ k' = Ramp.advance frameCount (wetMix_ k)
  ∧ dryMix_ k' = Ramp.advance frameCount (dryMix_ k)
  ∧ lfo_ k' = Nat.iter frameCount increment (lfo_ k)
  ∧ rate_ k' = rate_ k ∧ odd90_ k' = odd90_ k.
Proof.
  unfold hpp_doRendering. generalize (BoolParameter.get (odd90_ k)). intros odd90.
  revert k ins outs. induction frameCount as [|n IH]; intros k ins outs Hrun.
  - simpl in Hrun. injection Hrun as <- <- <-. by repeat split.
  - cbn [repeat_loop] in Hrun.
    apply bind_Ok in Hrun as ([[k1 ins1] outs1] & Hstep & Hrun).
    apply hpp_frame_core in Hstep. cbn [fst snd] in Hstep.
    injection Hstep as Hr Hde Hdl Hdr Hw Ho _ Hlfo _.
    destruct (IH _ _ _ Hrun) as (Hdl' & Hde' & Hw' & Hdr' & Hlfo' & Hr' & Ho').
    rewrite Hdl', Hde', Hw', Hdr', Hlfo', Hdl, Hde, Hw, Hdr, Hlfo, !advance_succ_l.
    rewrite Nat.iter_succ_r. repeat split; congruence.
Qed.

Lemma part_001_frame_core odd90 tap displacement wetMix dryMix k ins outs s' :
  part_001_frame odd90 tap displacement wetMix dryMix (k, ins, outs) = Ok s' →
  Coverage.core s'.1.1 = Coverage.core (with_lfo (increment (lfo_ k)) k).
Proof. unfold part_001_frame. intros Hrun. by apply part_001_channels_core in Hrun. Qed.

Lemma part_001_frames_core odd90 tap displacement wetMix dryMix n :
  ∀ k ins outs s',
    repeat_loop n (part_001_frame odd90 tap displacement wetMix dryMix) (k, ins, outs)
    = Ok s' →
    Coverage.core s'.1.1
    = (rate_ k, depth_ k, delay_ k, dryMix_ k, wetMix_ k, odd90_ k,
       samplesPerMillisecond_ k, Nat.iter n increment (lfo_ k), rampRemaining_ k).
Proof.
  induction n as [|n IH]; intros k ins outs s' Hrun.
  - simpl in Hrun. by injection Hrun as <-.
  - cbn [repeat_loop] in Hrun.
    apply bind_Ok in Hrun as ([[k1 ins1] outs1] & Hstep & Hrun).
    apply part_001_frame_core in Hstep. cbn [fst snd] in Hstep.
    rewrite (IH _ _ _ _ Hrun). injection Hstep as -> -> -> -> -> -> -> -> ->.
    cbn [lfo_ with_lfo]. by rewrite Nat.iter_succ_r.
Qed.

Lemma renderFrames_core n k ins outs s' :
  renderFrames n (k, ins, outs) = Ok s' →
  Coverage.core s'.1.1
  = (rate_ k, (frameValue (depth_ k)).2, (frameValue (delay_ k)).2,
     (frameValue (dryMix_ k)).2, (frameValue (wetMix_ k)).2, odd90_ k,
     samplesPerMillisecond_ k, Nat.iter n increment (lfo_ k), rampRemaining_ k).
Proof.
  unfold renderFrames. intros Hrun.
  apply bind_Ok in Hrun as ([[[[tap frac] wetMix] dryMix] k1] & Hvalues & Hrun).
  apply frameValues_Ok in Hvalues as ->.
  apply part_001_frames_core in Hrun. rewrite Hrun. reflexivity.
Qed.

(** X14. [unnamed/part_001]: [renderFrames] reads the parameters once for
    the whole call. When a call for [frameCount] frames returns, each of the
    delay, depth, wet-mix and dry-mix parameters has been advanced by a
    single [frameValue()], whatever the frame count, while the oscillator
    has been incremented [frameCount] times; the rate and odd90 parameters
    and the ramp counter are as before. *)
Theorem renderFrames_reads_parameters_once frameCount k ins outs k' ins' outs' :
  renderFrames frameCount (k, ins, outs) = Ok (k', ins', outs') →
  delay_ k' = Ramp.advance 1 (delay_ k)
  ∧ depth_ k' = Ramp.advance 1 (depth_ k)
  ∧ wetMix_ k' = Ramp.advance 1 (wetMix_ k)
  ∧ dryMix_ k' = Ramp.advance 1 (dryMix_ k)
  ∧ lfo_ k' = Nat.iter frameCount increment (lfo_ k)
  ∧ rate_ k' = rate_ k ∧ odd90_ k' = odd90_ k
  ∧ rampRemaining_ k' = rampRemaining_ k.
Proof.
  intros Hrun. apply renderFrames_core in Hrun. cbn [fst snd] in Hrun.
  injection Hrun as Hr Hde Hdl Hdr Hw Ho _ Hlfo Hramp. by repeat split.
Qed.

Lemma renderFrames_one_loop_ramp n :
  ∀ k ins outs s',
    repeat_loop n (renderFrames 1) (k, ins, outs) = Ok s' →
    rampRemaining_ s'.1.1 = rampRemaining_ k.
Proof.
  induction n as [|n IH]; intros k ins outs s' Hrun.
  - simpl in Hrun. by injection Hrun as <-.
  - cbn [repeat_loop] in Hrun.
    apply bind_Ok in Hrun as ([[k1 ins1] outs1] & Hstep & Hrun).
    apply renderFrames_core in Hstep. cbn [fst snd] in Hstep.
    injection Hstep as _ _ _ _ _ _ _ _ Hramp.
    rewrite (IH _ _ _ _ Hrun). exact Hramp.
Qed.

(** X15. [unnamed/part_001]: how [doRendering] splits a block. An empty
    block changes nothing. With no ramp frames left the whole block is one
    call of [renderFrames]; with at least [frameCount] ramp frames left the
    block is rendered as [frameCount] one-frame calls after the counter was
    lowered by [frameCount]. Whenever [doRendering] returns, the ramp
    counter has gone down by min(rampRemaining_, frameCount). *)
Theorem part_001_doRendering_splits_block ins outs frameCount k :
  part_001_doRendering ins outs 0 k = Ok (k, ins, outs)
  ∧ (rampRemaining_ k = 0%nat → (0 < frameCount)%nat →
     part_001_doRendering ins outs frameCount k = renderFrames frameCount (k, ins, outs))
  ∧ ((0 < frameCount ≤ rampRemaining_ k)%nat →
     part_001_doRendering ins outs frameCount k
     = repeat_loop frameCount (renderFrames 1)
         (with_rampRemaining (rampRemaining_ k - frameCount) k, ins, outs))
  ∧ (∀ k' ins' outs',
       part_001_doRendering ins outs frameCount k = Ok (k', ins', outs') →
       rampRemaining_ k' = (rampRemaining_ k - Nat.min (rampRemaining_ k) frameCount)%nat).
Proof.
  split; [|split; [|split]].
  - unfold part_001_doRendering. by rewrite Nat.min_0_r.
  - intros Hzero Hpos. unfold part_001_doRendering. rewrite Hzero. cbn.
    rewrite Nat.sub_0_r. by destruct frameCount; [lia|].
  - intros [Hpos Hle]. unfold part_001_doRendering.
    rewrite Nat.min_r by done.
    destruct (Nat.ltb_spec 0 frameCount); [|lia].
    rewrite Nat.sub_diag. cbn [Nat.ltb Nat.leb]. apply result_bind_Ok_r.
  - intros k' ins' outs' Hrun. unfold part_001_doRendering in Hrun.
    set (rampCount := Nat.min (rampRemaining_ k) frameCount) in *.
    apply bind_Ok in Hrun as ([[k1 ins1] outs1] & Hfirst & Hrun).
    assert (rampRemaining_ k1 = (rampRemaining_ k - rampCount)%nat) as Hk1.
    { destruct (Nat.ltb_spec 0 rampCount).
      - apply renderFrames_one_loop_ramp in Hfirst. exact Hfirst.
      - injection Hfirst as <- _ _. lia. }
    destruct (0 <? frameCount - rampCount)%nat.
    + apply renderFrames_core in Hrun. cbn [fst snd] in Hrun.
      injection Hrun as _ _ _ _ _ _ _ _ Hramp. congruence.
    + injection Hrun as <- _ _. exact Hk1.
Qed.

End SingleOscillatorCoverage.

(** ** The input signal of the tests *)

Section MockInput.

Import Coverage.
Local Open Scope Q_scope.

Lemma mockFill_Ok frameCount count :
  (2 ≤ frameCount)%nat →
  ∀ pos, ∃ buffer,
    mockFill frameCount pos count = Ok buffer
    ∧ length buffer = count
    ∧ ∀ i, (i < count)%nat →
        buffer !! i
        = Some (inject_Z (Z.of_nat (pos + i)) / inject_Z (Z.of_nat (frameCount - 1))).
Proof.
  intros Hsize. induction count as [|c IH]; intros pos.
  - exists []. split; [done|]. split; [done|]. intros i Hi. lia.
  - destruct (IH (Datatypes.S pos)) as (rest & Hrest & Hlen & Hat).
    exists (inject_Z (Z.of_nat pos) / inject_Z (Z.of_nat (frameCount - 1)) :: rest).
    split; [|split].
    + cbn [mockFill]. unfold mockSample, div_count.
      destruct (frameCount - 1)%nat as [|m] eqn:Hm; [lia|].
      cbn [mbind result_bind]. rewrite Hrest. reflexivity.
    + cbn [length]. by rewrite Hlen.
    + intros [|i] Hi.
      * cbn. by rewrite Nat.add_0_r.
      * cbn [lookup list_lookup]. rewrite Hat by lia.
        by replace (pos + Datatypes.S i)%nat with (Datatypes.S pos + i)%nat by lia.
Qed.

(** X16. [Tests/KernelTests/KernelTests.mm], [mockPullInput]: for a block
    of at least two and at most 2^24 frames the test input is a buffer of
    [frameCount] samples with sample [pos] equal to pos / (frameCount - 1):
    it starts at 0, ends at 1, rises strictly from one sample to the next
    and never leaves the range 0..1. (Up to 2^24 frames the single-precision
    [AUValue] holds [pos] and [frameCount - 1] exactly and neighbouring
    quotients are more than one rounding step apart; the tests use 512.) *)
Theorem mockBuffer_is_unit_ramp frameCount :
  (2 ≤ frameCount)%nat → (Z.of_nat frameCount <= 2 ^ 24)%Z →
  ∃ buffer,
    mockBuffer frameCount = Ok buffer
    ∧ length buffer = frameCount
    ∧ (∀ pos, (pos < frameCount)%nat →
         ∃ sample, buffer !! pos = Some sample
           ∧ sample == inject_Z (Z.of_nat pos) / inject_Z (Z.of_nat (frameCount - 1))
           ∧ 0 <= sample <= 1)
    ∧ (∃ first, buffer !! 0%nat = Some first ∧ first == 0)
    ∧ (∃ final, buffer !! (frameCount - 1)%nat = Some final ∧ final == 1)
    ∧ (∀ pos sample next, buffer !! pos = Some sample →
         buffer !! Datatypes.S pos = Some next → sample < next).
Proof.
  intros Hsize _. unfold mockBuffer.
  destruct (mockFill_Ok frameCount frameCount Hsize 0) as (buffer & Hrun & Hlen & Hat).
  assert (0 < inject_Z (Z.of_nat (frameCount - 1))) as Hden.
  { change 0 with (inject_Z 0). rewrite <- Zlt_Qlt. lia. }
  exists buffer. split; [done|]. split; [done|].
  split; [|split; [|split]].
  - intros pos Hpos. eexists. split; [by apply Hat|]. split; [reflexivity|].
    cbn [Nat.add]. split.
    + apply Qle_shift_div_l; [done|]. rewrite Qmult_0_l.
      change 0 with (inject_Z 0). rewrite <- Zle_Qle. lia.
    + apply Qle_shift_div_r; [done|]. rewrite Qmult_1_l.
      rewrite <- Zle_Qle. lia.
  - eexists. split; [apply Hat; lia|]. cbn [Nat.add Z.of_nat].
    unfold Qdiv. apply Qmult_0_l.
  - eexists. split; [apply Hat; lia|]. cbn [Nat.add].
    apply Qmult_inv_r. intros Heq. rewrite Heq in Hden. by apply Qlt_irrefl in Hden.
  - intros pos sample next Hsample Hnext.
    assert (Datatypes.S pos < frameCount)%nat as Hpos.
    { rewrite <- Hlen. by eapply lookup_lt_Some. }
    rewrite Hat in Hsample by lia. rewrite Hat in Hnext by lia.
    injection Hsample as <-. injection Hnext as <-. cbn [Nat.add].
    unfold Qdiv. apply Qmult_lt_compat_r.
    + by apply Qinv_lt_0_compat.
    + rewrite <- Zlt_Qlt. lia.
Qed.

(** X17. [mockPullInput] at its two smallest frame counts: a one-frame
    block divides by [frameCount - 1 = 0] (0.0 / 0, a NaN sample on IEEE
    hardware, the division fault of the model), and is the only frame count
    that does; an empty block is left empty. *)
Theorem mockBuffer_faults_only_at_one frameCount :
  (mockBuffer frameCount = Fault DivisionByZero ↔ frameCount = 1%nat)
  ∧ mockBuffer 0 = Ok [].
Proof.
  split; [|done]. split.
  - intros Hrun. destruct frameCount as [|[|n]]; [done|done|].
    destruct (mockFill_Ok (Datatypes.S (Datatypes.S n)) (Datatypes.S (Datatypes.S n))
                ltac:(lia) 0%nat) as (buffer & Hok & _).
    unfold mockBuffer in Hrun. congruence.
  - by intros ->.
Qed.

End MockInput.

(** ** The further properties on concrete kernels *)

Section CoverageConcrete.
Import DSPHeaders DSPHeaders.Parameters ChorusKernel Coverage TestDoubles.
Local Open Scope Q_scope.

Lemma demo_channels_ok : channels_ok (demoKernelPlayed 2 1) [[9]; [9]] [[]; []].
Proof.
  split; [vm_compute; lia|]. split; [vm_compute; lia|].
  intros [|[|channel]] buffer Hb; simpl in Hb; [| |discriminate];
    injection Hb as <-; discriminate.
Defined.

Lemma writeSample_needs_channels_witness :
  (∃ s', writeSample [[9]; [9]] [[]; []] true 1 0 (demoKernelPlayed 2 1) = Ok s')
  ∧ channels_ok (demoKernelPlayed 2 1) [[9]; [9]] [[]; []]
  ∧ delayLines_ (members (DelayLine:=HistoryLine) newLFO 2) = []
  ∧ writeSample [[9]] [[]] true 1 0 (members (DelayLine:=HistoryLine) newLFO 2)
    = Fault OutOfBounds.
Proof.
  assert (∃ s', writeSample [[9]; [9]] [[]; []] true 1 0 (demoKernelPlayed 2 1) = Ok s')
    as [s' Hrun] by (vm_compute; eexists; reflexivity).
  split; [by exists s'|].
  destruct (writeSample_needs_channels [[9]; [9]] [[]; []] true 1 0
              (demoKernelPlayed 2 1)) as [Honly _].
  destruct (writeSample_needs_channels [[9]] [[]] true 1 0
              (members (DelayLine:=HistoryLine) newLFO 2)) as [_ Hfault].
  split; [exact (Honly s' Hrun)|]. split; [reflexivity|].
  by apply (Hfault 9 [] []).
Defined.

Lemma calcTaps_leaves_inactive_slots_witness :
  arrays_ok (demoKernel 2 1)
  ∧ ∃ k', calcTaps 6 2 true (demoKernel 2 1) = Ok k'
      ∧ taps_ k' !! 7%nat = Some (0, 0) ∧ lfos_ k' !! 7%nat = Some newLFO_configured.
Proof.
  assert (arrays_ok (demoKernel 2 1)) as Hok.
  { unfold arrays_ok. vm_compute. repeat split; lia. }
  split; [exact Hok|].
  destruct (calcTaps_leaves_inactive_slots 6 2 true (demoKernel 2 1) Hok)
    as (k' & Hrun & Hslots & _).
  exists k'. split; [exact Hrun|].
  destruct (Hslots 7%nat) as [-> ->]; [vm_compute; lia|].
  split; reflexivity.
Defined.

Lemma writeSample_only_input_channels_witness :
  channels_ok (demoKernelPlayed 2 1) [[9]] [[]; []]
  ∧ (1 ≤ lfoCount_ (demoKernelPlayed 2 1))%nat
  ∧ (lfoCount_ (demoKernelPlayed 2 1) ≤ length (taps_ (demoKernelPlayed 2 1)))%nat
  ∧ ∃ k' ins' outs',
      writeSample [[9]] [[]; []] true 1 0 (demoKernelPlayed 2 1) = Ok (k', ins', outs')
      ∧ delayLines_ k' !! 1%nat = Some demoHistory ∧ outs' !! 1%nat = Some [].
Proof.
  assert (channels_ok (demoKernelPlayed 2 1) [[9]] [[]; []]) as Hch.
  { split; [vm_compute; lia|]. split; [vm_compute; lia|].
    intros [|channel] buffer Hb; simpl in Hb; [|discriminate].
    injection Hb as <-. discriminate. }
  assert (1 ≤ lfoCount_ (demoKernelPlayed 2 1))%nat as Hone by (vm_compute; lia).
  assert (lfoCount_ (demoKernelPlayed 2 1) ≤ length (taps_ (demoKernelPlayed 2 1)))%nat
    as Hsize by (vm_compute; lia).
  split; [exact Hch|]. split; [exact Hone|]. split; [exact Hsize|].
  destruct (writeSample_only_input_channels [[9]] [[]; []] true 1 0
              (demoKernelPlayed 2 1) Hch Hone Hsize)
    as (k' & ins' & outs' & Hrun & Hrest & _).
  exists k', ins', outs'. split; [exact Hrun|].
  destruct (Hrest 1%nat) as [-> ->]; [simpl; lia|].
  split; reflexivity.
Defined.

Lemma oscillators_never_separate_witness :
  reachable (demoKernel 2 1)
  ∧ ∃ k', calcTaps 6 2 true (demoKernel 2 1) = Ok k'
      ∧ taps_identical k' (tapOf (demoKernel 2 1) newLFO_configured 6 2 true).
Proof.
  split; [exact demo_reachable|].
  destruct (oscillators_never_separate (demoKernel 2 1) demo_reachable) as [_ Htaps].
  destruct (Htaps 6 2 true) as (k' & lfo & Hrun & Hlfo & Hsame & _).
  exists k'. split; [exact Hrun|].
  assert (lfo = newLFO_configured) as <-; [|exact Hsame].
  specialize (Hlfo 0%nat). cbn in Hlfo.
  assert (Some newLFO_configured = Some lfo) as [= <-]; [|reflexivity].
  apply Hlfo. lia.
Defined.

Lemma generate_identical_taps_witness :
  (1 ≤ lfoCount_ (demoKernelPlayed 2 1))%nat
  ∧ (lfoCount_ (demoKernelPlayed 2 1) ≤ length (taps_ (demoKernelPlayed 2 1)))%nat
  ∧ taps_identical (demoKernelPlayed 2 1) (0, 0)
  ∧ generate (demoKernelPlayed 2 1) 9 demoHistory true
    = Ok ((0 + read demoHistory 0 + read demoHistory 0) / 2).
Proof.
  assert (1 ≤ lfoCount_ (demoKernelPlayed 2 1))%nat as Hone by (vm_compute; lia).
  assert (lfoCount_ (demoKernelPlayed 2 1) ≤ length (taps_ (demoKernelPlayed 2 1)))%nat
    as Hsize by (vm_compute; lia).
  assert (taps_identical (demoKernelPlayed 2 1) (0, 0)) as Hsame.
  { intros [|[|index]] Hindex; [reflexivity|reflexivity|].
    vm_compute in Hindex. lia. }
  split; [exact Hone|]. split; [exact Hsize|]. split; [exact Hsame|].
  exact (generate_identical_taps (demoKernelPlayed 2 1) 9 demoHistory true (0, 0)
           Hone Hsize Hsame).
Defined.

Lemma renderBlock_consumes_and_produces_witness :
  block_ok 3 (demoKernelPlayed 2 1) [[9; 10; 11]; [9; 10; 11]] [[]; []]
  ∧ percentages_ok (demoKernelPlayed 2 1)
  ∧ ∃ k' ins' outs',
      renderBlock true 3 (demoKernelPlayed 2 1, [[9; 10; 11]; [9; 10; 11]], [[]; []])
      = Ok (k', ins', outs')
      ∧ ins' !! 0%nat = Some []
      ∧ lfos_ k' !! 0%nat = Some (Nat.iter 3 increment newLFO_configured).
Proof.
  split; [exact demo_block_ok|]. split; [exact demo_percentages_ok|].
  destruct (renderBlock_consumes_and_produces true 3 (demoKernelPlayed 2 1)
              [[9; 10; 11]; [9; 10; 11]] [[]; []] demo_block_ok demo_percentages_ok)
    as (k' & ins' & outs' & Hrun & Hins & _ & _ & _ & _ & _ & Hlfos).
  exists k', ins', outs'. split; [exact Hrun|]. split.
  - by apply (Hins 0%nat [9; 10; 11]).
  - apply (Hlfos 0%nat newLFO_configured); [vm_compute; lia|reflexivity].
Defined.


Lemma per_sample_rendering_advances_ramps_witness :
  ∃ k' ins' outs',
    perSampleStrategy 3 (demoKernelRamping, [[9; 10; 11]; [9; 10; 11]], [[]; []])
    = Ok (k', ins', outs')
    ∧ depth_ k' = Ramp.advance 3 (depth_ demoKernelRamping)
    ∧ remaining (Ramp.advance 3 (depth_ demoKernelRamping)) = 1%nat.
Proof.
  assert (∃ s', perSampleStrategy 3
                  (demoKernelRamping, [[9; 10; 11]; [9; 10; 11]], [[]; []]) = Ok s')
    as [[[k' ins'] outs'] Hrun] by (vm_compute; eexists; reflexivity).
  exists k', ins', outs'. split; [exact Hrun|].
  destruct (per_sample_rendering_advances_ramps 3 demoKernelRamping
              [[9; 10; 11]; [9; 10; 11]] [[]; []] k' ins' outs' Hrun)
    as (_ & Hdepth & _).
  split; [exact Hdepth|reflexivity].
Defined.

Lemma doRendering_keeps_shape_witness :
  ∃ k' ins' outs',
    doRendering [[9; 10; 11]; [9; 10; 11]] [[]; []] 3 (demoKernelPlayed 2 1)
    = Ok (k', ins', outs')
    ∧ sizes k' = (50, 50, 2)%nat ∧ length outs' = 2%nat.
Proof.
  assert (∃ s', doRendering [[9; 10; 11]; [9; 10; 11]] [[]; []] 3 (demoKernelPlayed 2 1)
                = Ok s')
    as [[[k' ins'] outs'] Hrun] by (vm_compute; eexists; reflexivity).
  exists k', ins', outs'. split; [exact Hrun|].
  destruct (doRendering_keeps_shape [[9; 10; 11]; [9; 10; 11]] [[]; []] 3
              (demoKernelPlayed 2 1) k' ins' outs' Hrun)
    as (_ & _ & _ & _ & _ & Hsizes & _ & Houts & _).
  split; [rewrite Hsizes; reflexivity|exact Houts].
Defined.

Lemma part_001_frame_zero_displacement_witness :
  0 == 0
  ∧ ∃ ins' outs',
      SingleOscillator.part_001_frame true 6 0 1 0
        (demoSingleKernel, [[9]; [9]], [[]; []])
      = Ok (SingleOscillator.with_lfo (increment (SingleOscillator.lfo_ demoSingleKernel))
              demoSingleKernel, ins', outs')
      ∧ outs' !! 0%nat = Some [1 * 9 + 0 * 9].
Proof.
  split; [reflexivity|].
  destruct (part_001_frame_zero_displacement true 6 0 1 0 demoSingleKernel
              [[9]; [9]] [[]; []]) as (ins' & outs' & Hrun & _ & Hchannels).
  - reflexivity.
  - simpl. lia.
  - intros [|[|channel]] buffer Hb; simpl in Hb; [| |discriminate];
      injection Hb as <-; discriminate.
  - exists ins', outs'. split; [exact Hrun|].
    by destruct (Hchannels 0%nat 9 [] []) as [_ ->].
Defined.

Lemma hpp_doRendering_advances_per_frame_witness :
  ∃ k' ins' outs',
    SingleOscillator.hpp_doRendering [[9; 10; 11]; [9; 10; 11]] [[]; []] 3 demoSingleKernel
    = Ok (k', ins', outs')
    ∧ SingleOscillator.depth_ k'
      = Ramp.advance 3 (SingleOscillator.depth_ demoSingleKernel)
    ∧ SingleOscillator.lfo_ k' = Nat.iter 3 increment newLFO_configured.
Proof.
  assert (∃ s', SingleOscillator.hpp_doRendering [[9; 10; 11]; [9; 10; 11]] [[]; []] 3
                  demoSingleKernel = Ok s')
    as [[[k' ins'] outs'] Hrun] by (vm_compute; eexists; reflexivity).
  exists k', ins', outs'. split; [exact Hrun|].
  destruct (hpp_doRendering_advances_per_frame [[9; 10; 11]; [9; 10; 11]] [[]; []] 3
              demoSingleKernel k' ins' outs' Hrun) as (_ & Hdepth & _ & _ & Hlfo & _).
  split; [exact Hdepth|exact Hlfo].
Defined.

Lemma renderFrames_reads_parameters_once_witness :
  ∃ k' ins' outs',
    SingleOscillator.renderFrames 3
      (demoSingleKernel, [[9; 10; 11]; [9; 10; 11]], [[]; []])
    = Ok (k', ins', outs')
    ∧ SingleOscillator.depth_ k'
      = Ramp.advance 1 (SingleOscillator.depth_ demoSingleKernel)
    ∧ SingleOscillator.lfo_ k' = Nat.iter 3 increment newLFO_configured.
Proof.
  assert (∃ s', SingleOscillator.renderFrames 3
                  (demoSingleKernel, [[9; 10; 11]; [9; 10; 11]], [[]; []]) = Ok s')
    as [[[k' ins'] outs'] Hrun] by (vm_compute; eexists; reflexivity).
  exists k', ins', outs'. split; [exact Hrun|].
  destruct (renderFrames_reads_parameters_once 3 demoSingleKernel
              [[9; 10; 11]; [9; 10; 11]] [[]; []] k' ins' outs' Hrun)
    as (_ & Hdepth & _ & _ & Hlfo & _).
  split; [exact Hdepth|exact Hlfo].
Defined.

Lemma part_001_doRendering_splits_block_witness :
  (0 < 3 ≤ SingleOscillator.rampRemaining_ demoSingleKernel)%nat
  ∧ SingleOscillator.part_001_doRendering [[9; 10; 11]; [9; 10; 11]] [[]; []] 3
      demoSingleKernel
    = repeat_loop 3 (SingleOscillator.renderFrames 1)
        (SingleOscillator.with_rampRemaining 1 demoSingleKernel,
         [[9; 10; 11]; [9; 10; 11]], [[]; []]).
Proof.
  assert (0 < 3 ≤ SingleOscillator.rampRemaining_ demoSingleKernel)%nat as Hcount
    by (simpl; lia).
  split; [exact Hcount|].
  destruct (part_001_doRendering_splits_block [[9; 10; 11]; [9; 10; 11]] [[]; []] 3
              demoSingleKernel) as (_ & _ & Hramp & _).
  exact (Hramp Hcount).
Defined.

Lemma mockBuffer_is_unit_ramp_witness :
  (2 ≤ 512)%nat ∧ (Z.of_nat 512 <= 2 ^ 24)%Z
  ∧ ∃ buffer, mockBuffer 512 = Ok buffer ∧ length buffer = 512%nat.
Proof.
  assert (2 ≤ 512)%nat as Hsize by lia.
  assert (Z.of_nat 512 <= 2 ^ 24)%Z as Hbound by lia.
  split; [exact Hsize|]. split; [exact Hbound|].
  destruct (mockBuffer_is_unit_ramp 512 Hsize Hbound) as (buffer & Hrun & Hlen & _).
  by exists buffer.
Defined.

End CoverageConcrete.
